(** * SapWebb: the custom steps of the uncal-to-L1 reduction

    A shallow embedding of the Python package [sapwebb]:

    - [uncal2L1.FlagSaturatedColumns]                 (uncal2L1.py)
    - [cds_custom_step.process]                       (cds_custom_step.py)
    - [refcorr_custom_step.process]                   (refcorr_custom_step.py)
    - [flagging_custom_step.process]                  (flagging_custom_step.py)
    - [timeaverage_custom_step.process]               (timeaverage_custom_step.py)
    - [uncal2L1_run.run], the chain of these steps     (uncal2L1.py)

    Conventions.  A numpy array is a function from in-range indices to
    elements, carried together with its shape; floating-point elements are
    Rocq's primitive binary64 floats (numpy's default [float64]);
    data-quality words are unsigned, [N] with [N.lor] and [N.land]; a numpy
    masked array is an array of [MA.mval] (stored value and mask bit).
    Exceptions raised by Python or numpy are results in the [exn] sum.  The
    calls into jwst and astropy that the steps make (reference files,
    [sigma_clip]) are parameters. *)

From Stdlib Require Import ZArith List Bool Lia Uint63 Floats.
Import ListNotations.

Set Implicit Arguments.

(* ================================================================== *)
(** ** Python and numpy primitives                                     *)
(* ================================================================== *)

Module Py.

(** The exceptions the modelled code paths can raise. *)
Inductive exn : Type :=
| IndexError
| ValueError
| ZeroDivisionError.

Definition result (A : Type) : Type := (exn + A)%type.
Definition ok {A : Type} (a : A) : result A := inr a.
Definition raise {A : Type} (e : exn) : result A := inl e.

(** One bound of a slice [a[start:stop]] over an axis of length [len], as
    CPython adjusts it: a negative bound counts from the end, and the
    outcome is clamped to [0, len]. *)
Definition slice_bound (x : Z) (len : nat) : nat :=
  let n := Z.of_nat len in
  if (x <? 0)%Z
  then (if (x + n <? 0)%Z then 0 else Z.to_nat (x + n))
  else (if (n <=? x)%Z then len else Z.to_nat x).

(** [k] is one of the positions selected by [start:stop] on that axis. *)
Definition in_slice (start stop : Z) (len k : nat) : bool :=
  (slice_bound start len <=? k) && (k <? slice_bound stop len).

(** Conversion of a Python [int] (a shape entry or a loop index) to float. *)
Definition float_of_nat (n : nat) : float :=
  of_uint63 (Uint63.of_Z (Z.of_nat n)).

End Py.

Module Np.

Definition array2 (A : Type) : Type := nat -> nat -> A.
Definition array3 (A : Type) : Type := nat -> nat -> nat -> A.
Definition array4 (A : Type) : Type := nat -> nat -> nat -> nat -> A.

(** All index triples (quadruples) of a shape, in C (row-major) order: the
    order in which [np.where] lists the positions it selects. *)
Definition indices3 (n0 n1 n2 : nat) : list (nat * nat * nat) :=
  flat_map (fun i =>
    flat_map (fun j =>
      map (fun k => (i, j, k)) (seq 0 n2)) (seq 0 n1)) (seq 0 n0).

Definition indices4 (n0 n1 n2 n3 : nat) : list (nat * nat * nat * nat) :=
  flat_map (fun i =>
    flat_map (fun j =>
      flat_map (fun r =>
        map (fun k => (i, j, r, k)) (seq 0 n3)) (seq 0 n2)) (seq 0 n1))
    (seq 0 n0).

Definition where3 (n0 n1 n2 : nat) (c : array3 bool)
  : list (nat * nat * nat) :=
  filter (fun '(i, j, k) => c i j k) (indices3 n0 n1 n2).

Definition where4 (n0 n1 n2 n3 : nat) (c : array4 bool)
  : list (nat * nat * nat * nat) :=
  filter (fun '(i, j, r, k) => c i j r k) (indices4 n0 n1 n2 n3).

(** Array literals: [np.array(l)] for nested lists; [d] stands outside
    the range of [l]. *)
Definition of_list2 {A : Type} (d : A) (l : list (list A)) : array2 A :=
  fun r k => nth k (nth r l []) d.

Definition of_list3 {A : Type} (d : A) (l : list (list (list A)))
  : array3 A :=
  fun i r k => nth k (nth r (nth i l []) []) d.

Definition of_list4 {A : Type} (d : A) (l : list (list (list (list A))))
  : array4 A :=
  fun i j r k => nth k (nth r (nth j (nth i l []) []) []) d.

End Np.

(** The data-quality flags of [jwst.datamodels.dqflags.pixel] that the
    package uses, as the jwst library defines them: DO_NOT_USE is bit 0,
    SATURATED bit 1, JUMP_DET bit 2. *)
Module dqflags.
Definition DO_NOT_USE : N := 1.
Definition SATURATED : N := 2.
Definition JUMP_DET : N := 4.
End dqflags.

(** The ramp data model (jwst's RampModel): [data] and [groupdq] are indexed
    by integration, group, row, column; [pixeldq] by row, column. *)
Record RampModel : Type := {
  ramp_shape : nat * nat * nat * nat;
  ramp_data : Np.array4 float;
  groupdq : Np.array4 N;
  pixeldq : Np.array2 N
}.

(* ================================================================== *)
(** ** uncal2L1.py                                                     *)
(* ================================================================== *)

Module uncal2L1.

(** [groupdq[i, j, :, start:stop] |= v] *)
Definition ior_columns (n3 : nat) (g : Np.array4 N) (i j : nat)
    (start stop : Z) (v : N) : Np.array4 N :=
  fun i' j' r' k' =>
    if (i' =? i) && (j' =? j) && Py.in_slice start stop n3 k'
    then N.lor (g i' j' r' k') v
    else g i' j' r' k'.

(** One iteration of [for i, j, k in zip(idx[0], idx[1], idx[3])]:
    [groupdq[i, j, :, k-ncols:k+ncols+1] |= flag_sat]. *)
Definition flag_pixel (n3 : nat) (ncols : Z) (flag_sat : N)
    (g : Np.array4 N) (x : nat * nat * nat * nat) : Np.array4 N :=
  let '(i, j, _, k) := x in
  ior_columns n3 g i j (Z.of_nat k - ncols) (Z.of_nat k + ncols + 1)
    flag_sat.

Definition FlagSaturatedColumns (input_model : RampModel) (ncols : Z)
  : RampModel :=
  let '(n0, n1, n2, n3) := ramp_shape input_model in
  let flag_sat := N.lor dqflags.SATURATED dqflags.DO_NOT_USE in
  let idx :=
    Np.where4 n0 n1 n2 n3
      (fun i j r k =>
         negb (N.land (groupdq input_model i j r k) dqflags.SATURATED =? 0)%N)
  in
  let gdq :=
    fold_left (flag_pixel n3 ncols flag_sat) idx (groupdq input_model) in
  {| ramp_shape := ramp_shape input_model;
     ramp_data := ramp_data input_model;
     groupdq := gdq;
     pixeldq := pixeldq input_model |}.

End uncal2L1.

(* ================================================================== *)
(** ** numpy.ma: masked values and the operations the steps apply     *)
(* ================================================================== *)

(** The operations follow numpy/ma/core.py: a result carries a mask bit and
    a stored value, and where the result is masked numpy puts the first
    operand back as the stored value ([_MaskedBinaryOperation]: "Revert
    result to da where masked"; [_DomainedBinaryOperation]: "When the mask is
    True, put back da"; [_MaskedUnaryOperation] likewise).  Operations with a
    validity domain also mask the results that are not finite
    ([m = ~umath.isfinite(result)]; [m |= domain(da, db)]). *)
Module MA.

(** One element of a masked array: the stored value and its mask bit.  A
    plain ndarray element is an [mval] with the mask off. *)
Record mval : Type := { val : float; msk : bool }.

Definition plain (x : float) : mval := {| val := x; msk := false |}.

(** [np.ma.array(data=d, mask=m)]: the mask of [d], when it has one, is
    kept and or-ed with [m] (keep_mask=True). *)
Definition array (d : mval) (m : bool) : mval :=
  {| val := val d; msk := msk d || m |}.

Definition filled (fill_value : float) (a : mval) : float :=
  if msk a then fill_value else val a.

Definition getmask (a : mval) : bool := msk a.

(** Binary operations without a validity domain ([+], [-], [*]): the result
    is masked where either operand is, and the first operand is put back
    under the mask. *)
Definition binop (f : float -> float -> float) (a b : mval) : mval :=
  let m := msk a || msk b in
  {| val := if m then val a else f (val a) (val b); msk := m |}.

Definition add : mval -> mval -> mval := binop PrimFloat.add.
Definition subtract : mval -> mval -> mval := binop PrimFloat.sub.
Definition multiply : mval -> mval -> mval := binop PrimFloat.mul.

(** [np.finfo(float).tiny], the tolerance of the safe-division domain. *)
Definition tiny : float := Eval compute in 0x1p-1022%float.

(** The domain test of masked division: [abs(a) * tiny >= abs(b)]. *)
Definition domain_safe_divide (a b : float) : bool :=
  (abs b <=? abs a * tiny)%float.

(** [a / b] on masked arrays: masked where an operand is masked, where the
    quotient is not finite, or where the divisor fails the domain test; the
    dividend is put back under the mask. *)
Definition true_divide (a b : mval) : mval :=
  let r := (val a / val b)%float in
  let m := negb (is_finite r) || domain_safe_divide (val a) (val b)
           || msk a || msk b in
  {| val := if m then val a else r; msk := m |}.

(** [np.ma.sqrt(a)]: masked where [a] is masked, negative, or the root is
    not finite; the argument is put back under the mask. *)
Definition sqrt (a : mval) : mval :=
  let r := PrimFloat.sqrt (val a) in
  let m := negb (is_finite r) || (val a <? 0)%float || msk a in
  {| val := if m then val a else r; msk := m |}.

(** [np.sqrt(a)] applied to a masked array: the ufunc result is wrapped,
    masked where [a] is masked or negative, and filled with 0 there. *)
Definition np_sqrt (a : mval) : mval :=
  let m := msk a || (val a <? 0)%float in
  {| val := if m then 0%float else PrimFloat.sqrt (val a); msk := m |}.

(** [a *= x] in place, [x] a scalar ([MaskedArray.__imul__]): the entries
    that are masked are multiplied by 1, the others by [x]. *)
Definition imul_scalar (a : mval) (x : float) : mval :=
  {| val := (val a * (if msk a then 1 else x))%float; msk := msk a |}.

(** Reductions along one axis; the list holds the samples along it, and the
    sum accumulates them in order from the additive identity. *)
Definition fsum (l : list float) : float := fold_left PrimFloat.add l 0%float.

Definition count (l : list mval) : nat :=
  length (filter (fun a => negb (msk a)) l).

(** [a.sum(axis)]: the masked samples count as 0; the result is masked
    when every sample is. *)
Definition sum (l : list mval) : mval :=
  {| val := fsum (map (filled 0%float) l); msk := forallb msk l |}.

(** [a.mean(axis)], for an array that carries a mask:
    [dsum * 1. / cnt]. *)
Definition mean (l : list mval) : mval :=
  true_divide (multiply (sum l) (plain 1%float))
              (plain (Py.float_of_nat (count l))).

(** Sorting as numpy orders floats: ascending, NaN last. *)
Definition sort_le (x y : float) : bool := (x <=? y)%float || is_nan y.

Fixpoint insert (x : float) (l : list float) : list float :=
  match l with
  | [] => [x]
  | y :: l' => if sort_le x y then x :: l else y :: insert x l'
  end.

Definition sort (l : list float) : list float := fold_right insert [] l.

(** [np.ma.median(a, axis)] (numpy/ma/extras.py, [_median]): with [n]
    unmasked samples sorted, half the sum of the two middle ones (the middle
    one taken twice when [n] is odd); NaN when an unmasked sample is NaN;
    masked when [n = 0]. *)
Definition median (l : list mval) : mval :=
  let s := sort (map val (filter (fun a => negb (msk a)) l)) in
  let n := length s in
  if n =? 0 then {| val := 0%float; msk := true |}
  else
    let h := n / 2 in
    let lo := if Nat.odd n then h else h - 1 in
    let m := ((nth lo s nan + nth h s nan) / 2)%float in
    plain (if is_nan (nth (n - 1) s nan) then nan else m).

End MA.

(** The rate cube (jwst's CubeModel): arrays indexed by integration, row,
    column.  [ngroup] and [background] are the attributes the steps attach
    with [setattr]; [None] when absent. *)
Record CubeModel : Type := {
  cube_shape : nat * nat * nat;
  data : Np.array3 MA.mval;
  dq : Np.array3 N;
  var_poisson : Np.array3 MA.mval;
  var_rnoise : Np.array3 MA.mval;
  err : Np.array3 MA.mval;
  ngroup : option (Np.array3 float);
  background : option (Np.array2 MA.mval)
}.

(** The readnoise and gain subarrays that jwst's
    [get_reference_file_subarrays] returns for the exposure. *)
Record ReferenceFiles : Type := {
  readnoise_2d : Np.array2 float;
  gain_2d : Np.array2 float
}.

(* ================================================================== *)
(** ** cds_custom_step.py                                              *)
(* ================================================================== *)

Module cds_custom_step.

(** [get_gain_ron_2d]: the gain, and the read noise converted to counts. *)
Definition get_gain_ron_2d (ref : ReferenceFiles)
  : Np.array2 float * Np.array2 float :=
  (gain_2d ref, fun r k => (readnoise_2d ref r k * gain_2d ref r k)%float).

(** [a[i, :, k] = v] *)
Definition set_column {A : Type} (a : Np.array3 A) (i k : nat)
    (v : nat -> A) : Np.array3 A :=
  fun i' r' k' => if (i' =? i) && (k' =? k) then v r' else a i' r' k'.

(** [np.diff(groupdq[:, :, n2//2, :] & SATURATED, axis=1)]; the flag words
    are unsigned 8-bit, so the differences wrap around. *)
Definition saturation_diff (input_model : RampModel) (n2 : nat)
  : Np.array3 Z :=
  fun i j k =>
    let mid := n2 / 2 in
    ((Z.of_N (N.land (groupdq input_model i (S j) mid k) dqflags.SATURATED)
      - Z.of_N (N.land (groupdq input_model i j mid k) dqflags.SATURATED))
     mod 2 ^ 8)%Z.

(** The three arrays the loop over the saturation transitions updates. *)
Record estimate : Type := {
  cds : Np.array3 float;
  mask : Np.array3 N;
  ngroup_used : Np.array3 float
}.

(** The defaults: last group minus first group. *)
Definition defaults (input_model : RampModel) (n1 : nat) : estimate :=
  let last := n1 - 1 in
  {| cds := fun i r k =>
       ((ramp_data input_model i last r k
         - ramp_data input_model i 0%nat r k)
        / Py.float_of_nat last)%float;
     mask := fun i r k =>
       N.lor (N.lor (groupdq input_model i last r k)
                    (groupdq input_model i 0 r k))
             (pixeldq input_model r k);
     ngroup_used := fun _ _ _ => (0 + Py.float_of_nat last)%float |}.

(** One iteration of [for i, j, k in zip( *idx )]. *)
Definition truncate (input_model : RampModel) (e : estimate)
    (ijk : nat * nat * nat) : estimate :=
  let '(i, j, k) := ijk in
  let norm := if j =? 0 then 1 else j in
  let do_not_use := if j =? 0 then dqflags.DO_NOT_USE else 0%N in
  {| cds := set_column (cds e) i k (fun r =>
       ((ramp_data input_model i j r k - ramp_data input_model i 0%nat r k)
        / Py.float_of_nat norm)%float);
     mask := set_column (mask e) i k (fun r =>
       N.lor (N.lor (N.lor (groupdq input_model i j r k)
                           (groupdq input_model i 0 r k))
                    (pixeldq input_model r k))
             do_not_use);
     ngroup_used := set_column (ngroup_used e) i k (fun _ =>
       if j =? 0 then nan else Py.float_of_nat j) |}.

(** The positions [np.where(p == SATURATED)] lists, in its order. *)
Definition transitions (input_model : RampModel)
  : list (nat * nat * nat) :=
  let '(n0, n1, n2, n3) := ramp_shape input_model in
  Np.where3 n0 (n1 - 1) n3
    (fun i j k =>
       (saturation_diff input_model n2 i j k =? Z.of_N dqflags.SATURATED)%Z).

(** The state of [cds], [mask], [ngroup] when the loop ends. *)
Definition estimates (input_model : RampModel) : estimate :=
  let '(n0, n1, n2, n3) := ramp_shape input_model in
  fold_left (truncate input_model) (transitions input_model)
    (defaults input_model n1).

(** [CDSCustomStep.process].  On a ramp without groups or without rows
    [data[:, -1]] and [groupdq[:, :, n2//2, :]] raise IndexError. *)
Definition process (ref : ReferenceFiles) (input_model : RampModel)
  : Py.result CubeModel :=
  let '(gain, readnoise) := get_gain_ron_2d ref in
  let '(n0, n1, n2, n3) := ramp_shape input_model in
  if (n1 =? 0) || (n2 =? 0) then Py.raise Py.IndexError
  else
    let e := estimates input_model in
    let masked i r k := (0 <? mask e i r k)%N in
    let cds_ma : Np.array3 MA.mval := fun i r k =>
      MA.array (MA.plain (gain r k * cds e i r k)%float) (masked i r k) in
    let varP : Np.array3 MA.mval := fun i r k =>
      MA.true_divide (cds_ma i r k) (MA.plain (ngroup_used e i r k)) in
    let varR : Np.array3 MA.mval := fun i r k =>
      MA.array
        (MA.plain (2 * (readnoise r k * readnoise r k)
                   / (ngroup_used e i r k * ngroup_used e i r k))%float)
        (masked i r k) in
    Py.ok {| cube_shape := (n0, n2, n3);
             data := cds_ma;
             dq := mask e;
             var_poisson := varP;
             var_rnoise := varR;
             err := fun i r k => MA.sqrt (MA.add (varP i r k) (varR i r k));
             ngroup := Some (ngroup_used e);
             background := None |}.

End cds_custom_step.

(* ================================================================== *)
(** ** refcorr_custom_step.py                                          *)
(* ================================================================== *)

Module refcorr_custom_step.

(** The rows of [data[:, 0:6, :]] followed by those of [data[:, -6:, :]]:
    the order of the samples of [background] along its axis 1. *)
Definition reference_rows (n1 : nat) : list nat :=
  seq (Py.slice_bound 0 n1) (Py.slice_bound 6 n1 - Py.slice_bound 0 n1)
  ++ seq (Py.slice_bound (-6) n1) (n1 - Py.slice_bound (-6) n1).

(** [background[k, :, c]] *)
Definition background_samples (input_model : CubeModel) (n1 k c : nat)
  : list MA.mval :=
  map (fun r => data input_model k r c) (reference_rows n1).

(** [ReferenceCorrectionCustomStep.process]. *)
Definition process (input_model : CubeModel) : Py.result CubeModel :=
  let '(n0, n1, n2) := cube_shape input_model in
  (* reshape(n0, -1, n2) cannot resolve -1 when n0 * n2 = 0 *)
  if n0 * n2 =? 0 then Py.raise Py.ValueError
  else
    let median_background : Np.array2 MA.mval := fun k c =>
      MA.median (background_samples input_model n1 k c) in
    let shape1 := length (reference_rows n1) in
    (* 1.0/background.shape[1] *)
    if shape1 =? 0 then Py.raise Py.ZeroDivisionError
    else
      let factor := (1 + 1 / Py.float_of_nat shape1)%float in
      Py.ok {| cube_shape := cube_shape input_model;
               data := fun k r c =>
                 MA.subtract (data input_model k r c) (median_background k c);
               dq := dq input_model;
               var_poisson := var_poisson input_model;
               var_rnoise := fun k r c =>
                 MA.imul_scalar (var_rnoise input_model k r c) factor;
               err := err input_model;
               ngroup := ngroup input_model;
               background := Some median_background |}.

End refcorr_custom_step.

(* ================================================================== *)
(** ** flagging_custom_step.py                                         *)
(* ================================================================== *)

Module flagging_custom_step.

Section Process.

(** astropy's [sigma_clip(data, sigma=5, axis=0)]: from the shape and the
    (masked) data to the clipped masked array. *)
Variable sigma_clip :
  nat * nat * nat -> Np.array3 MA.mval -> Np.array3 MA.mval.

Definition new_outliers (input_model : CubeModel) : Np.array3 bool :=
  let _cds_ := sigma_clip (cube_shape input_model) (data input_model) in
  fun i r c => xorb (0 <? dq input_model i r c)%N (MA.getmask (_cds_ i r c)).

Definition process (input_model : CubeModel) : CubeModel :=
  let _cds_ := sigma_clip (cube_shape input_model) (data input_model) in
  {| cube_shape := cube_shape input_model;
     data := _cds_;
     dq := fun i r c =>
       if new_outliers input_model i r c
       then N.lor (dq input_model i r c)
                  (N.lor dqflags.JUMP_DET dqflags.DO_NOT_USE)
       else dq input_model i r c;
     var_poisson := var_poisson input_model;
     var_rnoise := var_rnoise input_model;
     err := err input_model;
     ngroup := ngroup input_model;
     background := background input_model |}.

End Process.

End flagging_custom_step.

(* ================================================================== *)
(** ** timeaverage_custom_step.py                                      *)
(* ================================================================== *)

Module timeaverage_custom_step.

(** [a.reshape(-1, d1, d2, d3)] on an array of [size] elements: the length
    numpy gives the unknown first axis, or the ValueError it raises (a
    second negative entry, or a size the known entries do not divide). *)
Definition reshape_unknown (size : nat) (known : list Z) : Py.result nat :=
  if existsb (fun d => (d <? 0)%Z) known then Py.raise Py.ValueError
  else
    let s := Z.to_nat (fold_right Z.mul 1%Z known) in
    if s =? 0 then Py.raise Py.ValueError
    else if size mod s =? 0 then Py.ok (size / s)
    else Py.raise Py.ValueError.

(** The samples of bin [b] at pixel [(r, c)], in time order:
    [a.reshape(-1, num_ave, n1, n2)[b, :, r, c]]. *)
Definition bin_samples {A : Type} (num_ave : nat) (a : Np.array3 A)
    (b r c : nat) : list A :=
  map (fun t => a (b * num_ave + t) r c) (seq 0 num_ave).

(** [TimeAverageStep.process], [num_ave] being the step's parameter. *)
Definition process (num_ave : Z) (input_model : CubeModel)
  : Py.result CubeModel :=
  let '(n0, n1, n2) := cube_shape input_model in
  (* n0 % num_ave *)
  if (num_ave =? 0)%Z then Py.raise Py.ZeroDivisionError
  else
    let new_n0 := (Z.of_nat n0 - Z.of_nat n0 mod num_ave)%Z in
    (* the integrations that [0:new_n0] keeps *)
    let kept := Py.slice_bound new_n0 n0 - Py.slice_bound 0 n0 in
    match reshape_unknown (kept * n1 * n2)
            [num_ave; Z.of_nat n1; Z.of_nat n2] with
    | inl e => Py.raise e
    | inr bins =>
        let B := Z.to_nat num_ave in
        let masked i r c := (0 <? dq input_model i r c)%N in
        let data_ma : Np.array3 MA.mval := fun i r c =>
          MA.array (data input_model i r c) (masked i r c) in
        let varp_ma : Np.array3 MA.mval := fun i r c =>
          MA.array (var_poisson input_model i r c) (masked i r c) in
        let varr_ma : Np.array3 MA.mval := fun i r c =>
          MA.array (var_rnoise input_model i r c) (masked i r c) in
        let count b r c := MA.count (bin_samples B data_ma b r c) in
        let data' : Np.array3 MA.mval := fun b r c =>
          MA.mean (bin_samples B data_ma b r c) in
        let varp : Np.array3 MA.mval := fun b r c =>
          MA.true_divide (MA.mean (bin_samples B varp_ma b r c))
                         (MA.plain (Py.float_of_nat (count b r c))) in
        let varr : Np.array3 MA.mval := fun b r c =>
          MA.true_divide (MA.mean (bin_samples B varr_ma b r c))
                         (MA.plain (Py.float_of_nat (count b r c))) in
        let err' : Np.array3 MA.mval := fun b r c =>
          MA.np_sqrt (MA.add (varp b r c) (varr b r c)) in
        Py.ok
          {| cube_shape := (bins, n1, n2);
             data := fun b r c => MA.plain (MA.filled 0%float (data' b r c));
             dq := fun b r c => N.b2n (MA.getmask (data' b r c));
             var_poisson := fun b r c =>
               MA.plain (MA.filled 0%float (varp b r c));
             var_rnoise := fun b r c =>
               MA.plain (MA.filled 0%float (varr b r c));
             err := fun b r c => MA.plain (MA.filled 0%float (err' b r c));
             ngroup :=
               match ngroup input_model with
               | Some ng => Some (fun b r c => MA.fsum (bin_samples B ng b r c))
               | None => None
               end;
             background :=
               match background input_model with
               | Some bg =>
                   Some (fun b c =>
                           MA.mean
                             (map (fun t => bg (b * B + t) c) (seq 0 B)))
               | None => None
               end |}
    end.

End timeaverage_custom_step.

(* ================================================================== *)
(** ** uncal2L1.py: the reduction                                      *)
(* ================================================================== *)

Module uncal2L1_run.

Definition bind {A B : Type} (x : Py.result A) (f : A -> Py.result B)
  : Py.result B :=
  match x with
  | inl e => Py.raise e
  | inr a => f a
  end.

Notation "x <- e ;; k" := (bind e (fun x => k))
  (at level 61, e at next level, right associativity).

Section Run.

Variable sigma_clip :
  nat * nat * nat -> Np.array3 MA.mval -> Np.array3 MA.mval.

(** The reference files the archive serves for the exposure. *)
Variable ref : ReferenceFiles.

(** [run], from the ramp that jwst's DarkCurrentStep hands over (the chain
    DQInitStep .. DarkCurrentStep is jwst's) to the pair [run] returns when
    no output file is asked for.  The jwst steps that follow the time
    average attach a wavelength solution to [data_cube_mean] and leave its
    arrays as they are. *)
Definition run (data : RampModel) (num_ave : Z)
  : Py.result (CubeModel * CubeModel) :=
  let data := uncal2L1.FlagSaturatedColumns data 1 in
  data_cube <- cds_custom_step.process ref data ;;
  data_cube <- refcorr_custom_step.process data_cube ;;
  let data_cube := flagging_custom_step.process sigma_clip data_cube in
  data_cube_mean <- timeaverage_custom_step.process num_ave data_cube ;;
  Py.ok (data_cube_mean, data_cube).

End Run.

End uncal2L1_run.

(* ================================================================== *)
(** ** Vocabulary of the properties                                    *)
(* ================================================================== *)

Module Props.

(** The flagged pixel [x] reaches column [k'] of group [j'] of integration
    [i'] through the slice [k-ncols:k+ncols+1]. *)
Definition covers (n3 : nat) (ncols : Z) (i' j' k' : nat)
    (x : nat * nat * nat * nat) : bool :=
  let '(i, j, _, k) := x in
  (i' =? i) && (j' =? j)
  && Py.in_slice (Z.of_nat k - ncols) (Z.of_nat k + ncols + 1) n3 k'.

(** The saturation state the rate estimator reads for column [k] of
    integration [i] at group [j]: the SATURATED bit of the middle row. *)
Definition saturated (m : RampModel) (i j k : nat) : bool :=
  let '(_, _, n2, _) := ramp_shape m in
  let mid := n2 / 2 in
  negb (N.land (groupdq m i j mid k) dqflags.SATURATED =? 0)%N.

(** Saturation first appears right after group [g]: groups [0..g] are
    clean and group [g+1] is saturated ([g] is the transition index; [g = 0]
    means that saturation is already present by group 1). *)
Definition saturates_after (m : RampModel) (i k g : nat) : bool :=
  forallb (fun j => negb (saturated m i j k)) (seq 0 (S g))
  && saturated m i (S g) k.

(** Once saturated after group [g], the column stays saturated up to the
    last group. *)
Definition stays_saturated (m : RampModel) (i k g : nat) : bool :=
  let '(_, n1, _, _) := ramp_shape m in
  forallb (fun j => saturated m i j k) (seq (S g) (n1 - S g)).

(** A float is finite when its specification is a zero or a finite
    number. *)
Definition finite_SF (f : spec_float) : bool :=
  match f with
  | S754_zero _ | S754_finite _ _ _ => true
  | _ => false
  end.

(** Whether numpy keeps the quotient [a / b] of a masked division: it is
    finite and the divisor passes the safe-division test. *)
Definition valid_quotient (a b : float) : bool :=
  is_finite (a / b)%float && negb (MA.domain_safe_divide a b).

(** The masked mean of the samples of a bin, in the spec's words: the sum
    of the unmasked samples (the masked ones counting as 0) over their
    number; [None] when no sample is unmasked or the quotient is not a
    valid number. *)
Definition bin_mean (l : list MA.mval) : option float :=
  let n := MA.count l in
  let s := (MA.fsum (map (MA.filled 0%float) l) * 1)%float in
  if n =? 0 then None
  else if valid_quotient s (Py.float_of_nat n)
       then Some (s / Py.float_of_nat n)%float
       else None.

(** The binned variance: the masked mean of the variance samples divided
    by [n], the number of unmasked signal samples of the bin. *)
Definition bin_variance (l : list MA.mval) (n : nat) : option float :=
  match bin_mean l with
  | Some v =>
      if valid_quotient v (Py.float_of_nat n)
      then Some (v / Py.float_of_nat n)%float
      else None
  | None => None
  end.

(** The binned error: the root of the sum of the two binned variances. *)
Definition bin_error (vp vr : option float) : option float :=
  match vp, vr with
  | Some a, Some b =>
      if (a + b <? 0)%float then None else Some (PrimFloat.sqrt (a + b))
  | _, _ => None
  end.

Definition or_zero (x : option float) : float :=
  match x with Some v => v | None => 0%float end.

(** Column [k'] of group [j] of integration [i] lies in the slice
    [k-ncols:k+ncols+1] of some pixel [(i, j, r, k)] of the ramp that is
    flagged SATURATED. *)
Definition reached (m : RampModel) (ncols : Z) (i j k' : nat) : bool :=
  let '(n0, n1, n2, n3) := ramp_shape m in
  (i <? n0) && (j <? n1)
  && existsb (fun r =>
       existsb (fun k =>
         negb (N.land (groupdq m i j r k) dqflags.SATURATED =? 0)%N
         && Py.in_slice (Z.of_nat k - ncols) (Z.of_nat k + ncols + 1) n3 k')
         (seq 0 n3)) (seq 0 n2).

(** Column [k] of integration [i] goes from clean at group [j] to saturated
    at group [j+1]: the positions [np.where(p == SATURATED)] lists. *)
Definition transition (m : RampModel) (i j k : nat) : bool :=
  negb (saturated m i j k) && saturated m i (S j) k.

(** [g] is the last transition of the column. *)
Definition last_transition (m : RampModel) (i k g : nat) : bool :=
  let '(_, n1, _, _) := ramp_shape m in
  transition m i g k
  && forallb (fun j => negb (transition m i j k)) (seq (S g) (n1 - 1 - S g)).

(** The column has no transition at all. *)
Definition no_transition (m : RampModel) (i k : nat) : bool :=
  let '(_, n1, _, _) := ramp_shape m in
  forallb (fun j => negb (transition m i j k)) (seq 0 (n1 - 1)).

(** The clipping masks at least the entries that are masked in its input
    (the mask it returns is the input's with the clipped entries added). *)
Definition keeps_mask
    (sigma_clip : nat * nat * nat -> Np.array3 MA.mval -> Np.array3 MA.mval)
  : Prop :=
  forall s a i r c, MA.msk (a i r c) = true ->
                    MA.msk (sigma_clip s a i r c) = true.

(** The values the loop of the rate estimator writes at a pixel of a
    column for a transition at group [g]: rate in detector counts, mask
    word, effective group count. *)
Definition written (m : RampModel) (i g r k : nat) : float * N * float :=
  let norm := if g =? 0 then 1 else g in
  (((ramp_data m i g r k - ramp_data m i 0%nat r k)
    / Py.float_of_nat norm)%float,
   N.lor (N.lor (N.lor (groupdq m i g r k) (groupdq m i 0 r k))
                (pixeldq m r k))
         (if g =? 0 then dqflags.DO_NOT_USE else 0%N),
   if g =? 0 then nan else Py.float_of_nat g).

End Props.

(* ================================================================== *)
(** ** Concrete cubes used below                                       *)
(* ================================================================== *)

Module Examples.

Definition no_flags2 : Np.array2 N := fun _ _ => 0%N.

(** Two groups of two rows and four columns with a single saturated pixel,
    at group 1, row 0, column 2. *)
Definition one_saturated_pixel : RampModel :=
  {| ramp_shape := (1, 2, 2, 4);
     ramp_data := fun _ _ _ _ => 0%float;
     groupdq := fun i j r k =>
       if (i =? 0) && (j =? 1) && (r =? 0) && (k =? 2) then 2%N else 0%N;
     pixeldq := no_flags2 |}.

(** One group of one row and three columns, the first column saturated. *)
Definition first_column_saturated : RampModel :=
  {| ramp_shape := (1, 1, 1, 3);
     ramp_data := fun _ _ _ _ => 0%float;
     groupdq := Np.of_list4 0%N [[[[2; 0; 0]]]]%N;
     pixeldq := no_flags2 |}.

Definition unit_reference : ReferenceFiles :=
  {| readnoise_2d := fun _ _ => 1%float; gain_2d := fun _ _ => 1%float |}.

Definition reference : ReferenceFiles :=
  {| readnoise_2d := fun _ _ => 3%float; gain_2d := fun _ _ => 2%float |}.

(** Five groups of one row and three columns.  Column 0 saturates after
    group 1, column 1 never, column 2 after group 0. *)
Definition ramp : RampModel :=
  {| ramp_shape := (1, 5, 1, 3);
     ramp_data :=
       Np.of_list4 0%float
         [[[[10; 10; 10]]; [[20; 21; 22]]; [[35; 32; 34]];
           [[60; 43; 46]]; [[99; 54; 58]]]]%float;
     groupdq :=
       Np.of_list4 0%N
         [[[[0; 0; 0]]; [[0; 0; 2]]; [[2; 0; 2]]; [[2; 0; 2]];
           [[2; 0; 2]]]]%N;
     pixeldq := no_flags2 |}.

(** The same signal in a single column whose SATURATED flag is set in
    group 2, cleared in group 3 and set again in group 4. *)
Definition flicker : RampModel :=
  {| ramp_shape := (1, 5, 1, 1);
     ramp_data :=
       Np.of_list4 0%float [[[[10]]; [[20]]; [[35]]; [[60]]; [[99]]]]%float;
     groupdq := Np.of_list4 0%N [[[[0]]; [[0]]; [[2]]; [[0]]; [[2]]]]%N;
     pixeldq := no_flags2 |}.

(** The end-to-end scenario of the spec: 2 integrations, 10 groups, 4 x 4
    pixels, no flags; the signal grows with the square of the group. *)
Definition scenario : RampModel :=
  {| ramp_shape := (2, 10, 4, 4);
     ramp_data := fun i j r k =>
       (Py.float_of_nat (i + r + k) + Py.float_of_nat (j * j))%float;
     groupdq := fun _ _ _ _ => 0%N;
     pixeldq := no_flags2 |}.

Definition empty_cube : CubeModel :=
  {| cube_shape := (0, 0, 0);
     data := fun _ _ _ => MA.plain 0%float;
     dq := fun _ _ _ => 0%N;
     var_poisson := fun _ _ _ => MA.plain 0%float;
     var_rnoise := fun _ _ _ => MA.plain 0%float;
     err := fun _ _ _ => MA.plain 0%float;
     ngroup := None;
     background := None |}.

Definition cube_of (c : Py.result CubeModel) : CubeModel :=
  match c with inr c => c | inl _ => empty_cube end.

(** The rate cube of [ramp]. *)
Definition rate_cube : CubeModel :=
  cube_of (cds_custom_step.process reference ramp).

(** One integration of one pixel: an unmasked, infinite rate. *)
Definition overflowed_cube : CubeModel :=
  {| cube_shape := (1, 1, 1);
     data := fun _ _ _ => MA.plain infinity;
     dq := fun _ _ _ => 0%N;
     var_poisson := fun _ _ _ => MA.plain 1%float;
     var_rnoise := fun _ _ _ => MA.plain 1%float;
     err := fun _ _ _ => MA.plain (PrimFloat.sqrt 2);
     ngroup := None;
     background := None |}.

(** Three integrations of one row and two columns, a clean cube. *)
Definition small_cube : CubeModel :=
  {| cube_shape := (3, 1, 2);
     data := fun i _ c => MA.plain (Py.float_of_nat (i + c));
     dq := fun i _ c => if (i =? 1) && (c =? 1) then 4%N else 0%N;
     var_poisson := fun _ _ _ => MA.plain 2%float;
     var_rnoise := fun _ _ _ => MA.plain 4%float;
     err := fun _ _ _ => MA.plain (PrimFloat.sqrt 6);
     ngroup := Some (fun _ _ _ => 9%float);
     background := None |}.

(** One integration, 13 rows, one column: every row holds 5 but row 6,
    which holds 100. *)
Definition offset_cube : CubeModel :=
  {| cube_shape := (1, 13, 1);
     data := fun _ r _ => MA.plain (if Nat.eqb r 6 then 100 else 5)%float;
     dq := fun _ _ _ => 0%N;
     var_poisson := fun _ _ _ => MA.plain 1%float;
     var_rnoise := fun _ _ _ => MA.plain 12%float;
     err := fun _ _ _ => MA.plain (PrimFloat.sqrt 13);
     ngroup := None;
     background := None |}.

(** [offset_cube] with the pixel of row 6 masked, in the signal and in
    the read-noise variance. *)
Definition masked_offset_cube : CubeModel :=
  {| cube_shape := (1, 13, 1);
     data := fun _ r _ =>
       if Nat.eqb r 6 then {| MA.val := 100%float; MA.msk := true |}
       else MA.plain 5%float;
     dq := fun _ r _ => if Nat.eqb r 6 then 1%N else 0%N;
     var_poisson := fun _ _ _ => MA.plain 1%float;
     var_rnoise := fun _ r _ =>
       {| MA.val := 12%float; MA.msk := Nat.eqb r 6 |};
     err := fun _ _ _ => MA.plain (PrimFloat.sqrt 13);
     ngroup := None;
     background := None |}.

(** A ramp of a single group: one row, two columns, no flags. *)
Definition one_group : RampModel :=
  {| ramp_shape := (1, 1, 1, 2);
     ramp_data := Np.of_list4 0%float [[[[7; 9]]]]%float;
     groupdq := fun _ _ _ _ => 0%N;
     pixeldq := no_flags2 |}.

(** One integration of three rows and two columns: column 0 is masked in
    every row; column 1 holds 5, 8, 5 with the middle row masked. *)
Definition shadowed_cube : CubeModel :=
  {| cube_shape := (1, 3, 2);
     data := fun _ r c =>
       {| MA.val := (if Nat.eqb r 1 then 8 else 5)%float;
          MA.msk := Nat.eqb c 0 || Nat.eqb r 1 |};
     dq := fun _ r c => if Nat.eqb c 0 || Nat.eqb r 1 then 1%N else 0%N;
     var_poisson := fun _ _ _ => MA.plain 1%float;
     var_rnoise := fun _ r c =>
       {| MA.val := 6%float; MA.msk := Nat.eqb c 0 || Nat.eqb r 1 |};
     err := fun _ _ _ => MA.plain (PrimFloat.sqrt 7);
     ngroup := None;
     background := None |}.

(** A clipping that keeps the mask of its input and clips the pixel
    (0, 0, 0). *)
Definition clip_first (s : nat * nat * nat) (a : Np.array3 MA.mval)
  : Np.array3 MA.mval :=
  fun i r c => MA.array (a i r c) ((i =? 0) && (r =? 0) && (c =? 0)).

(** One integration of four groups, three rows and three columns: the
    pixel of row 0, column 1 is saturated from group 2 on; nothing else is
    flagged. *)
Definition corner_hit : RampModel :=
  {| ramp_shape := (1, 4, 3, 3);
     ramp_data := fun _ j r k => Py.float_of_nat (10 * j + r + k);
     groupdq := fun _ j r k =>
       if (2 <=? j) && (r =? 0) && (k =? 1) then 2%N else 0%N;
     pixeldq := no_flags2 |}.

(** The same event in column 0: the pixel of row 0, column 0 is saturated
    from group 2 on. *)
Definition edge_hit : RampModel :=
  {| ramp_shape := (1, 4, 3, 3);
     ramp_data := fun _ j r k => Py.float_of_nat (10 * j + r + k);
     groupdq := fun _ j r k =>
       if (2 <=? j) && (r =? 0) && (k =? 0) then 2%N else 0%N;
     pixeldq := no_flags2 |}.

(** Two integrations of one pixel, without any flag or mask: the rates 1
    and infinity. *)
Definition spiked_cube : CubeModel :=
  {| cube_shape := (2, 1, 1);
     data := fun i _ _ => MA.plain (if Nat.eqb i 1 then infinity else 1%float);
     dq := fun _ _ _ => 0%N;
     var_poisson := fun _ _ _ => MA.plain 1%float;
     var_rnoise := fun _ _ _ => MA.plain 1%float;
     err := fun _ _ _ => MA.plain (PrimFloat.sqrt 2);
     ngroup := None;
     background := None |}.

(** [small_cube] binned by two, and the samples of its bin 0 at pixel
    (0, 1) as the binner masks them. *)
Definition binned_small_cube : CubeModel :=
  cube_of (timeaverage_custom_step.process 2 small_cube).

Definition small_bin : list MA.mval :=
  timeaverage_custom_step.bin_samples 2
    (fun i r c => MA.array (data small_cube i r c) (0 <? dq small_cube i r c)%N)
    0 0 1.

End Examples.

(* ================================================================== *)
(** ** Facts on binary64 arithmetic                                    *)
(* ================================================================== *)

Section FloatFacts.

Open Scope float_scope.

Lemma is_finite_SF (x : float) : is_finite x = Props.finite_SF (Prim2SF x).
Proof.
  unfold is_finite, is_nan, is_infinity.
  rewrite !eqb_spec, abs_spec.
  change (Prim2SF infinity) with (S754_infinity false).
  destruct (Prim2SF x) as [s | s | | s m e]; try reflexivity.
  - destruct s; reflexivity.
  - unfold SFeqb, SFcompare, SFabs, Props.finite_SF.
    rewrite Z.compare_refl, Pos.compare_cont_refl.
    destruct s; reflexivity.
Qed.

Lemma is_nan_eq (x : float) : is_nan x = true -> x = nan.
Proof.
  unfold is_nan. rewrite eqb_spec. intros H.
  apply Prim2SF_inj. change (Prim2SF nan) with S754_nan.
  destruct (Prim2SF x) as [s | s | | s m e]; try reflexivity.
  - discriminate.
  - destruct s; discriminate.
  - unfold SFeqb, SFcompare in H.
    rewrite Z.compare_refl, Pos.compare_cont_refl in H.
    destruct s; discriminate.
Qed.

Lemma digits2_shift52 (m : positive) :
  Z.pos (digits2_pos (4503599627370496 * m))
  = (Z.pos (digits2_pos m) + 52)%Z.
Proof. cbn [Pos.mul digits2_pos]. lia. Qed.

(** Multiplying by 1.0 is exact. *)
Lemma float_mul_1_l (x : float) : 1 * x = x.
Proof.
  apply Prim2SF_inj. rewrite mul_spec.
  change (Prim2SF 1) with (S754_finite false 4503599627370496 (-52)).
  pose proof (Prim2SF_valid x) as Hv.
  destruct (Prim2SF x) as [s | s | | s m e]; try reflexivity.
  cbn [SF64mul SFmul xorb].
  unfold SpecFloat.valid_binary, bounded, canonical_mantissa in Hv.
  apply andb_true_iff in Hv. destruct Hv as [Hc He].
  apply Z.eqb_eq in Hc.
  unfold binary_round_aux, shr_fexp.
  cbn [Zdigits2]. rewrite digits2_shift52.
  replace (Z.pos (digits2_pos m) + 52 + (-52 + e))%Z
    with (Z.pos (digits2_pos m) + e)%Z by lia.
  rewrite Hc.
  replace (e - (-52 + e))%Z with 52%Z by lia.
  cbn [shr shr_record_of_loc Pos.mul iter_pos shr_1 orb].
  cbn [loc_of_shr_record shr_r shr_s shr_m round_nearest_even Zdigits2].
  replace (-52 + e + 52)%Z with e by lia.
  rewrite Hc, Z.sub_diag. cbn [shr shr_m].
  rewrite He. reflexivity.
Qed.

(** The difference of a finite float with itself is +0. *)
Lemma float_sub_diag (x : float) : is_finite x = true -> x - x = 0.
Proof.
  rewrite is_finite_SF. intros Hf.
  apply Prim2SF_inj. rewrite sub_spec.
  change (Prim2SF 0) with (S754_zero false).
  destruct (Prim2SF x) as [s | s | | s m e]; try discriminate.
  - destruct s; reflexivity.
  - cbn [SF64sub SFsub]. rewrite Z.min_id.
    unfold shl_align. rewrite Z.sub_diag. cbn [fst].
    reflexivity.
Qed.

Lemma float_div_nan_r (x : float) : x / nan = nan.
Proof.
  apply Prim2SF_inj. rewrite div_spec.
  change (Prim2SF nan) with S754_nan.
  destruct (Prim2SF x); reflexivity.
Qed.

Lemma float_div_0_not_finite (x : float) : is_finite (x / 0) = false.
Proof.
  rewrite is_finite_SF, div_spec.
  change (Prim2SF 0) with (S754_zero false).
  destruct (Prim2SF x); reflexivity.
Qed.

(** A finite float times a zero is a zero. *)
Lemma float_mul_zero (g z : float) :
  is_finite g = true -> (z =? 0) = true -> (g * z =? 0) = true.
Proof.
  rewrite is_finite_SF, !eqb_spec, mul_spec.
  change (Prim2SF 0) with (S754_zero false).
  destruct (Prim2SF z) as [s' | s' | | s' m' e']; intros Hg Hz;
    try (destruct s'; discriminate Hz); try discriminate Hz.
  destruct (Prim2SF g) as [s | s | | s m e]; try discriminate Hg;
    reflexivity.
Qed.

Lemma binary_round_aux_sign (m e : Z) (l : location) :
  binary_round_aux prec emax false m e l <> S754_zero true.
Proof.
  unfold binary_round_aux.
  destruct (shr_fexp prec emax m e l) as [mrs' e'].
  destruct (shr_fexp prec emax _ e' loc_Exact) as [mrs'' e''].
  destruct (shr_m mrs''); try discriminate.
  destruct (e'' <=? emax - prec)%Z; discriminate.
Qed.

Lemma of_uint63_not_neg_zero (n : int) :
  Prim2SF (of_uint63 n) <> S754_zero true.
Proof.
  rewrite of_uint63_spec. unfold binary_normalize.
  pose proof (Uint63.to_Z_bounded n) as Hb.
  destruct (to_Z n) as [| p | p]; try discriminate.
  - unfold binary_round. destruct (shl_align _ _ _).
    apply binary_round_aux_sign.
  - lia.
Qed.

(** [np.zeros_like(a) + n] holds [n]. *)
Lemma float_add_0_of_nat (n : nat) :
  0 + Py.float_of_nat n = Py.float_of_nat n.
Proof.
  unfold Py.float_of_nat.
  apply Prim2SF_inj. rewrite add_spec.
  change (Prim2SF 0) with (S754_zero false).
  pose proof (of_uint63_not_neg_zero (of_Z (Z.of_nat n))) as H.
  destruct (Prim2SF (of_uint63 (of_Z (Z.of_nat n)))) as [s | s | | s m e];
    try reflexivity.
  destruct s; [congruence | reflexivity].
Qed.

End FloatFacts.


(* ================================================================== *)
(** ** Index lists, bits and folds                                     *)
(* ================================================================== *)

Section Helpers.

Lemma in_indices3 (n0 n1 n2 i j k : nat) :
  In (i, j, k) (Np.indices3 n0 n1 n2) <-> i < n0 /\ j < n1 /\ k < n2.
Proof.
  unfold Np.indices3. rewrite in_flat_map. split.
  - intros (i' & Hi & H). apply in_flat_map in H. destruct H as (j' & Hj & H).
    apply in_map_iff in H. destruct H as (k' & E & Hk).
    inversion E; subst. apply in_seq in Hi, Hj, Hk. lia.
  - intros (Hi & Hj & Hk). exists i. split; [apply in_seq; lia |].
    apply in_flat_map. exists j. split; [apply in_seq; lia |].
    apply in_map_iff. exists k. split; [reflexivity | apply in_seq; lia].
Qed.

Lemma in_indices4 (n0 n1 n2 n3 i j r k : nat) :
  In (i, j, r, k) (Np.indices4 n0 n1 n2 n3)
  <-> i < n0 /\ j < n1 /\ r < n2 /\ k < n3.
Proof.
  unfold Np.indices4. rewrite in_flat_map. split.
  - intros (i' & Hi & H). apply in_flat_map in H. destruct H as (j' & Hj & H).
    apply in_flat_map in H. destruct H as (r' & Hr & H).
    apply in_map_iff in H. destruct H as (k' & E & Hk).
    inversion E; subst. apply in_seq in Hi, Hj, Hr, Hk. lia.
  - intros (Hi & Hj & Hr & Hk). exists i. split; [apply in_seq; lia |].
    apply in_flat_map. exists j. split; [apply in_seq; lia |].
    apply in_flat_map. exists r. split; [apply in_seq; lia |].
    apply in_map_iff. exists k. split; [reflexivity | apply in_seq; lia].
Qed.

Lemma in_where3 (n0 n1 n2 : nat) (c : Np.array3 bool) (i j k : nat) :
  In (i, j, k) (Np.where3 n0 n1 n2 c)
  <-> (i < n0 /\ j < n1 /\ k < n2) /\ c i j k = true.
Proof. unfold Np.where3. rewrite filter_In, in_indices3. reflexivity. Qed.

Lemma in_where4 (n0 n1 n2 n3 : nat) (c : Np.array4 bool) (i j r k : nat) :
  In (i, j, r, k) (Np.where4 n0 n1 n2 n3 c)
  <-> (i < n0 /\ j < n1 /\ r < n2 /\ k < n3) /\ c i j r k = true.
Proof. unfold Np.where4. rewrite filter_In, in_indices4. reflexivity. Qed.

Lemma filter_none {A : Type} (f : A -> bool) (l : list A) :
  (forall x, In x l -> f x = false) -> filter f l = [].
Proof.
  induction l as [| a l IH]; intros H; [reflexivity |].
  cbn. rewrite (H a (or_introl eq_refl)). apply IH.
  intros x Hx. apply H. right. exact Hx.
Qed.

(** The SATURATED bit of a flag word, as the masking [w & SATURATED]
    leaves it. *)
Lemma land_SATURATED (w : N) :
  N.land w dqflags.SATURATED = 0%N \/ N.land w dqflags.SATURATED = 2%N.
Proof.
  unfold dqflags.SATURATED.
  destruct (N.testbit w 1) eqn:Hb; [right | left];
    apply N.bits_inj; intros n;
    rewrite N.land_spec;
    change 2%N with (2 ^ 1)%N; rewrite N.pow2_bits_eqb;
    destruct (N.eqb_spec 1 n) as [<- | Hne].
  - rewrite Hb. reflexivity.
  - rewrite andb_false_r. reflexivity.
  - rewrite Hb. rewrite N.bits_0. reflexivity.
  - rewrite andb_false_r, N.bits_0. reflexivity.
Qed.

Lemma lor_idem_r (a v : N) : N.lor (N.lor a v) v = N.lor a v.
Proof. rewrite <- N.lor_assoc, N.lor_diag. reflexivity. Qed.

(** Or-ing flags into a word clears none of its bits. *)
Lemma land_lor_absorb (a v : N) : N.land (N.lor a v) a = a.
Proof.
  apply N.bits_inj. intros n.
  rewrite N.land_spec, N.lor_spec.
  destruct (N.testbit a n), (N.testbit v n); reflexivity.
Qed.

Lemma land_lor_same (a v : N) : N.land (N.lor a v) v = v.
Proof.
  apply N.bits_inj. intros n.
  rewrite N.land_spec, N.lor_spec.
  destruct (N.testbit a n), (N.testbit v n); reflexivity.
Qed.

Lemma lor_DO_NOT_USE_pos (a : N) :
  (0 <? N.lor a dqflags.DO_NOT_USE)%N = true.
Proof. destruct a; reflexivity. Qed.

End Helpers.


(* ================================================================== *)
(** ** FlagSaturatedColumns                                            *)
(* ================================================================== *)

(** The loop or-s [v] into a word exactly when one of the listed pixels
    covers it. *)
Lemma fold_flag_pixel (n3 : nat) (ncols : Z) (v : N)
    (idx : list (nat * nat * nat * nat))
    (g : Np.array4 N) (i' j' r' k' : nat) :
  fold_left (uncal2L1.flag_pixel n3 ncols v) idx g i' j' r' k'
  = if existsb (Props.covers n3 ncols i' j' k') idx
    then N.lor (g i' j' r' k') v
    else g i' j' r' k'.
Proof.
  revert g. induction idx as [| x idx IH]; intros g; [reflexivity |].
  cbn [fold_left existsb]. rewrite IH.
  destruct x as [[[i j] r] k].
  unfold uncal2L1.flag_pixel, Props.covers at 2, uncal2L1.ior_columns.
  destruct ((i' =? i) && (j' =? j)
            && Py.in_slice (Z.of_nat k - ncols) (Z.of_nat k + ncols + 1) n3 k');
    cbn [orb].
  - destruct (existsb _ idx); [apply lor_idem_r | reflexivity].
  - reflexivity.
Qed.

(** With [ncols = 1] and a saturated pixel in column [k >= 1], the slice
    [k-1:k+2] selects the columns [k-1 .. k+1] that exist. *)
Lemma in_slice_neighbours (n3 k k' : nat) :
  1 <= k -> k' < n3 ->
  Py.in_slice (Z.of_nat k - 1) (Z.of_nat k + 1 + 1) n3 k'
  = (k - 1 <=? k') && (k' <=? k + 1).
Proof.
  intros Hk Hk'. unfold Py.in_slice, Py.slice_bound.
  destruct (Z.ltb_spec (Z.of_nat k - 1) 0); [lia |].
  destruct (Z.ltb_spec (Z.of_nat k + 1 + 1) 0); [lia |].
  destruct (Z.leb_spec (Z.of_nat n3) (Z.of_nat k - 1));
    destruct (Z.leb_spec (Z.of_nat n3) (Z.of_nat k + 1 + 1));
    destruct (Nat.leb_spec (k - 1) k'); destruct (Nat.leb_spec k' (k + 1));
    cbn [andb];
    repeat match goal with
           | |- context [Nat.leb ?a ?b] => destruct (Nat.leb_spec a b)
           | |- context [Nat.ltb ?a ?b] => destruct (Nat.ltb_spec a b)
           end; cbn [andb]; try reflexivity; lia.
Qed.

(** X1.  A single saturated pixel in a column [k >= 1]: with [ncols = 1] the
    step adds SATURATED | DO_NOT_USE to the columns [k-1 .. k+1] that exist,
    in every row of that group of that integration, and changes no other
    word. *)
Theorem FlagSaturatedColumns_single_pixel
    (m : RampModel) (n0 n1 n2 n3 i j r0 k : nat) :
  ramp_shape m = (n0, n1, n2, n3) ->
  i < n0 -> j < n1 -> r0 < n2 -> k < n3 -> 1 <= k ->
  (forall i' j' r' k', i' < n0 -> j' < n1 -> r' < n2 -> k' < n3 ->
     N.land (groupdq m i' j' r' k') dqflags.SATURATED <> 0%N ->
     (i', j', r', k') = (i, j, r0, k)) ->
  N.land (groupdq m i j r0 k) dqflags.SATURATED <> 0%N ->
  forall i' j' r' k', k' < n3 ->
    groupdq (uncal2L1.FlagSaturatedColumns m 1) i' j' r' k'
    = if (i' =? i) && (j' =? j) && (k - 1 <=? k') && (k' <=? k + 1)
      then N.lor (groupdq m i' j' r' k')
                 (N.lor dqflags.SATURATED dqflags.DO_NOT_USE)
      else groupdq m i' j' r' k'.
Proof.
  intros Hs Hi Hj Hr Hk Hk1 Honly Hsat i' j' r' k' Hk'.
  unfold uncal2L1.FlagSaturatedColumns. rewrite Hs. cbn [groupdq].
  rewrite fold_flag_pixel.
  match goal with
  | |- (if existsb ?f ?l then _ else _) = _ =>
      assert (E : existsb f l
                  = (i' =? i) && (j' =? j) && (k - 1 <=? k') && (k' <=? k + 1))
  end.
  { apply eq_true_iff_eq. rewrite existsb_exists. split.
    - intros ([[[a b] c] d] & Hin & Hc). unfold Props.covers in Hc.
      apply in_where4 in Hin. destruct Hin as ((Ha & Hb & Hc' & Hd) & Hz).
      apply negb_true_iff, N.eqb_neq in Hz.
      specialize (Honly a b c d Ha Hb Hc' Hd Hz). inversion Honly; subst.
      rewrite in_slice_neighbours in Hc by assumption.
      rewrite andb_assoc in Hc. exact Hc.
    - intros H. exists (i, j, r0, k). split.
      + apply in_where4. split; [lia |].
        apply negb_true_iff, N.eqb_neq. exact Hsat.
      + unfold Props.covers. rewrite in_slice_neighbours by assumption.
        rewrite andb_assoc. exact H. }
  rewrite E. reflexivity.
Qed.

Lemma FlagSaturatedColumns_single_pixel_witness :
  forallb
    (fun '(i', j', r', k') =>
       N.eqb
         (groupdq (uncal2L1.FlagSaturatedColumns Examples.one_saturated_pixel 1)
            i' j' r' k')
         (if (i' =? 0) && (j' =? 1) && (2 - 1 <=? k') && (k' <=? 2 + 1)
          then N.lor (groupdq Examples.one_saturated_pixel i' j' r' k')
                     (N.lor dqflags.SATURATED dqflags.DO_NOT_USE)
          else groupdq Examples.one_saturated_pixel i' j' r' k'))
    (Np.indices4 1 2 2 4)
  = true.
Proof.
  apply forallb_forall. intros [[[i' j'] r'] k'] Hin.
  apply in_indices4 in Hin. destruct Hin as (_ & _ & _ & Hk').
  apply N.eqb_eq.
  apply (@FlagSaturatedColumns_single_pixel Examples.one_saturated_pixel
           1 2 2 4 0 1 0 2); try reflexivity; try lia.
  - intros i j r k Hi Hj Hr Hk Hsat.
    cbn [Examples.one_saturated_pixel groupdq] in Hsat.
    destruct ((i =? 0) && (j =? 1) && (r =? 0) && (k =? 2)) eqn:E;
      [| contradiction Hsat; reflexivity].
    repeat (apply andb_true_iff in E; destruct E as [E ?]).
    repeat match goal with H : (_ =? _) = true |- _ =>
             apply Nat.eqb_eq in H end.
    subst. reflexivity.
  - discriminate.
Defined.

(** With [ncols = 1] and a saturated pixel in column 0 of an axis of three
    or more columns, the slice [-1:2] selects nothing. *)
Lemma in_slice_first_column (n3 k' : nat) :
  3 <= n3 -> Py.in_slice (Z.of_nat 0 - 1) (Z.of_nat 0 + 1 + 1) n3 k' = false.
Proof.
  intros H. unfold Py.in_slice, Py.slice_bound.
  change (Z.of_nat 0 - 1 <? 0)%Z with true.
  change (Z.of_nat 0 + 1 + 1 <? 0)%Z with false. cbv iota.
  destruct (Z.ltb_spec (Z.of_nat 0 - 1 + Z.of_nat n3) 0); [lia |].
  destruct (Z.leb_spec (Z.of_nat n3) (Z.of_nat 0 + 1 + 1)); [lia |].
  destruct (Nat.leb_spec (Z.to_nat (Z.of_nat 0 - 1 + Z.of_nat n3)) k');
    [| reflexivity].
  destruct (Nat.ltb_spec k' (Z.to_nat (Z.of_nat 0 + 1 + 1)));
    [lia | reflexivity].
Qed.

(** C3.  A single saturated pixel in column 0 of a ramp with three or more
    columns: with [ncols = 1] the slice [k-1:k+2] is [-1:2], which is empty,
    so the step changes no word; columns 0 and 1 of the pixel's group do not
    receive SATURATED | DO_NOT_USE. *)
Theorem FlagSaturatedColumns_first_column
    (m : RampModel) (n0 n1 n2 n3 i j r0 : nat) :
  ramp_shape m = (n0, n1, n2, n3) ->
  i < n0 -> j < n1 -> r0 < n2 -> 3 <= n3 ->
  (forall i' j' r' k', i' < n0 -> j' < n1 -> r' < n2 -> k' < n3 ->
     N.land (groupdq m i' j' r' k') dqflags.SATURATED <> 0%N ->
     (i', j', r', k') = (i, j, r0, 0)) ->
  N.land (groupdq m i j r0 0) dqflags.SATURATED <> 0%N ->
  forall i' j' r' k',
    groupdq (uncal2L1.FlagSaturatedColumns m 1) i' j' r' k'
    = groupdq m i' j' r' k'.
Proof.
  intros Hs Hi Hj Hr Hn3 Honly Hsat i' j' r' k'.
  unfold uncal2L1.FlagSaturatedColumns. rewrite Hs. cbn [groupdq].
  rewrite fold_flag_pixel.
  match goal with
  | |- (if existsb ?f ?l then _ else _) = _ =>
      assert (E : existsb f l = false)
  end.
  { apply not_true_is_false. rewrite existsb_exists.
    intros ([[[a b] c] d] & Hin & Hc). unfold Props.covers in Hc.
    apply in_where4 in Hin. destruct Hin as ((Ha & Hb & Hc' & Hd) & Hz).
    apply negb_true_iff, N.eqb_neq in Hz.
    specialize (Honly a b c d Ha Hb Hc' Hd Hz). inversion Honly; subst.
    rewrite in_slice_first_column in Hc by exact Hn3.
    rewrite andb_false_r in Hc. discriminate. }
  rewrite E. reflexivity.
Qed.

Lemma FlagSaturatedColumns_first_column_witness :
  groupdq (uncal2L1.FlagSaturatedColumns Examples.first_column_saturated 1)
    0 0 0 0 = 2%N
  /\ groupdq (uncal2L1.FlagSaturatedColumns Examples.first_column_saturated 1)
       0 0 0 1 = 0%N.
Proof.
  assert (H : forall i' j' r' k',
             groupdq (uncal2L1.FlagSaturatedColumns
                        Examples.first_column_saturated 1) i' j' r' k'
             = groupdq Examples.first_column_saturated i' j' r' k').
  { apply (@FlagSaturatedColumns_first_column
             Examples.first_column_saturated 1 1 1 3 0 0 0);
      try reflexivity; try lia.
    - intros i j r k Hi Hj Hr Hk Hsat.
      assert (i = 0) by lia. assert (j = 0) by lia. assert (r = 0) by lia.
      subst. destruct k as [| [| [| k]]]; try reflexivity; try lia;
        contradiction Hsat; reflexivity.
    - discriminate. }
  split; [exact (H 0 0 0 0) | exact (H 0 0 0 1)].
Defined.


(* ================================================================== *)
(** ** CDSCustomStep                                                   *)
(* ================================================================== *)

Section CDSFacts.

Variable m : RampModel.
Variables n0 n1 n2 n3 : nat.
Hypothesis shape : ramp_shape m = (n0, n1, n2, n3).

Lemma saturated_bit (i j k : nat) :
  N.land (groupdq m i j (n2 / 2) k) dqflags.SATURATED
  = if Props.saturated m i j k then 2%N else 0%N.
Proof.
  unfold Props.saturated. rewrite shape.
  destruct (land_SATURATED (groupdq m i j (n2 / 2) k)) as [E | E];
    rewrite E; reflexivity.
Qed.

(** A transition is listed at [j] when group [j] is clean and group [j+1]
    saturated. *)
Lemma saturation_diff_transition (i j k : nat) :
  (cds_custom_step.saturation_diff m n2 i j k =? Z.of_N dqflags.SATURATED)%Z
  = negb (Props.saturated m i j k) && Props.saturated m i (S j) k.
Proof.
  unfold cds_custom_step.saturation_diff. cbv zeta.
  rewrite !saturated_bit.
  destruct (Props.saturated m i j k), (Props.saturated m i (S j) k);
    reflexivity.
Qed.

Lemma in_transitions (i j k : nat) :
  In (i, j, k) (cds_custom_step.transitions m)
  <-> (i < n0 /\ j < n1 - 1 /\ k < n3)
      /\ Props.saturated m i j k = false
      /\ Props.saturated m i (S j) k = true.
Proof.
  unfold cds_custom_step.transitions. rewrite shape, in_where3.
  rewrite saturation_diff_transition, andb_true_iff, negb_true_iff.
  reflexivity.
Qed.

(** What the loop has written at a pixel of column [k] of integration
    [i] when every listed transition of that column is at group [g]. *)
Lemma fold_truncate_unique (i k g : nat) (l : list (nat * nat * nat))
    (e : cds_custom_step.estimate) :
  (forall j, In (i, j, k) l -> j = g) ->
  let e' := fold_left (cds_custom_step.truncate m) l e in
  let w := cds_custom_step.truncate m e (i, g, k) in
  forall r,
    (cds_custom_step.cds e' i r k,
     cds_custom_step.mask e' i r k,
     cds_custom_step.ngroup_used e' i r k)
    = if existsb (fun '(i', _, k') => (i' =? i) && (k' =? k)) l
      then (cds_custom_step.cds w i r k,
            cds_custom_step.mask w i r k,
            cds_custom_step.ngroup_used w i r k)
      else (cds_custom_step.cds e i r k,
            cds_custom_step.mask e i r k,
            cds_custom_step.ngroup_used e i r k).
Proof.
  revert e. induction l as [| [[i' j'] k'] l IH]; intros e Hg e' w r;
    [reflexivity |].
  subst e' w. cbn [fold_left existsb].
  rewrite IH by (intros j Hj; apply Hg; right; exact Hj).
  destruct (Nat.eqb_spec i' i) as [-> | Hi];
    [destruct (Nat.eqb_spec k' k) as [-> | Hk] |]; cbn [andb orb].
  - rewrite (Hg j' (or_introl eq_refl)).
    destruct (existsb _ l);
      cbn [cds_custom_step.truncate cds_custom_step.cds
           cds_custom_step.mask cds_custom_step.ngroup_used];
      unfold cds_custom_step.set_column; rewrite !Nat.eqb_refl;
      reflexivity.
  - destruct (existsb _ l);
      cbn [cds_custom_step.truncate cds_custom_step.cds
           cds_custom_step.mask cds_custom_step.ngroup_used];
      unfold cds_custom_step.set_column;
      rewrite ?Nat.eqb_refl; cbn [andb];
      destruct (Nat.eqb_spec k k') as [E | _]; try congruence; reflexivity.
  - destruct (existsb _ l);
      cbn [cds_custom_step.truncate cds_custom_step.cds
           cds_custom_step.mask cds_custom_step.ngroup_used];
      unfold cds_custom_step.set_column;
      destruct (Nat.eqb_spec i i') as [E | _]; try congruence; reflexivity.
Qed.

(** Without any SATURATED flag the loop has nothing to do. *)
Lemma transitions_none :
  (forall i j r k, i < n0 -> j < n1 -> r < n2 -> k < n3 ->
     N.land (groupdq m i j r k) dqflags.SATURATED = 0%N) ->
  0 < n2 ->
  cds_custom_step.transitions m = [].
Proof.
  intros Hclean Hn2. unfold cds_custom_step.transitions. rewrite shape.
  apply filter_none. intros [[i j] k] Hin.
  apply in_indices3 in Hin. destruct Hin as (Hi & Hj & Hk).
  rewrite saturation_diff_transition.
  assert (Hs : Props.saturated m i (S j) k = false).
  { unfold Props.saturated. rewrite shape. cbv zeta.
    rewrite Hclean; [reflexivity | lia | lia | | lia].
    apply Nat.div_lt; lia. }
  rewrite Hs. apply andb_false_r.
Qed.

(** The column has its only transition at [g]. *)
Lemma transitions_single (i k g : nat) :
  i < n0 -> k < n3 -> S g < n1 ->
  Props.saturates_after m i k g = true ->
  Props.stays_saturated m i k g = true ->
  In (i, g, k) (cds_custom_step.transitions m)
  /\ forall j, In (i, j, k) (cds_custom_step.transitions m) -> j = g.
Proof.
  intros Hi Hk Hg Hafter Hstay.
  unfold Props.saturates_after in Hafter.
  apply andb_true_iff in Hafter. destruct Hafter as [Hclean Hsat].
  rewrite forallb_forall in Hclean.
  unfold Props.stays_saturated in Hstay. rewrite shape in Hstay.
  rewrite forallb_forall in Hstay.
  assert (Hc : forall j, j <= g -> Props.saturated m i j k = false).
  { intros j Hj. apply negb_true_iff. apply Hclean. apply in_seq. lia. }
  assert (Hs : forall j, g < j -> j < n1 -> Props.saturated m i j k = true).
  { intros j Hj Hj'. apply Hstay. apply in_seq. lia. }
  split.
  - apply in_transitions. repeat split; try lia; auto.
  - intros j Hj. apply in_transitions in Hj.
    destruct Hj as ((_ & Hj & _) & Hcj & Hsj).
    destruct (Nat.lt_trichotomy j g) as [Hlt | [-> | Hgt]];
      [| reflexivity |].
    + rewrite Hc in Hsj by lia. discriminate.
    + rewrite Hs in Hcj by lia. discriminate.
Qed.

End CDSFacts.


(** C4.  A ramp without SATURATED flags: at every pixel of every integration
    the rate is the gain times (last group - first group) / (num_groups - 1)
    and the effective group count is num_groups - 1; with unit gain and 10
    groups the rate is (data[:,9] - data[:,0]) / 9 and the count is 9. *)
Theorem cds_no_saturation
    (ref : ReferenceFiles) (m : RampModel) (n0 n1 n2 n3 : nat) :
  ramp_shape m = (n0, n1, n2, n3) -> 0 < n1 -> 0 < n2 ->
  (forall i j r k, i < n0 -> j < n1 -> r < n2 -> k < n3 ->
     N.land (groupdq m i j r k) dqflags.SATURATED = 0%N) ->
  exists out ng,
    cds_custom_step.process ref m = Py.ok out /\ ngroup out = Some ng
    /\ forall i r k,
         MA.val (data out i r k)
         = (gain_2d ref r k
            * ((ramp_data m i (n1 - 1)%nat r k - ramp_data m i 0%nat r k)
               / Py.float_of_nat (n1 - 1)%nat))%float
         /\ ng i r k = Py.float_of_nat (n1 - 1)
         /\ (n1 = 10 -> gain_2d ref r k = 1%float ->
             MA.val (data out i r k)
             = ((ramp_data m i 9%nat r k - ramp_data m i 0%nat r k) / 9)%float
             /\ ng i r k = 9%float).
Proof.
  intros Hs Hn1 Hn2 Hclean.
  unfold cds_custom_step.process, cds_custom_step.get_gain_ron_2d.
  rewrite Hs.
  destruct (Nat.eqb_spec n1 0) as [E | _]; [lia |].
  destruct (Nat.eqb_spec n2 0) as [E | _]; [lia |]. cbn [orb].
  unfold cds_custom_step.estimates. rewrite Hs.
  rewrite (transitions_none m Hs Hclean Hn2). cbn [fold_left].
  eexists. eexists. split; [reflexivity |]. split; [reflexivity |].
  intros i r k.
  cbn [data MA.array MA.plain MA.val cds_custom_step.defaults
       cds_custom_step.cds cds_custom_step.ngroup_used].
  rewrite float_add_0_of_nat.
  split; [reflexivity |]. split; [reflexivity |].
  intros -> Hg. rewrite Hg, float_mul_1_l. split; reflexivity.
Qed.

Lemma cds_no_saturation_witness :
  exists out ng,
    cds_custom_step.process Examples.unit_reference Examples.scenario
    = Py.ok out
    /\ ngroup out = Some ng
    /\ forall i r k,
         MA.val (data out i r k)
         = (gain_2d Examples.unit_reference r k
            * ((ramp_data Examples.scenario i (10 - 1)%nat r k
                - ramp_data Examples.scenario i 0%nat r k)
               / Py.float_of_nat (10 - 1)%nat))%float
         /\ ng i r k = Py.float_of_nat (10 - 1)
         /\ (10 = 10 -> gain_2d Examples.unit_reference r k = 1%float ->
             MA.val (data out i r k)
             = ((ramp_data Examples.scenario i 9%nat r k
                 - ramp_data Examples.scenario i 0%nat r k) / 9)%float
             /\ ng i r k = 9%float).
Proof.
  apply (@cds_no_saturation Examples.unit_reference Examples.scenario 2 10 4 4).
  - reflexivity.
  - lia.
  - lia.
  - intros; reflexivity.
Defined.

(** C1 (as amended).  When the SATURATED flag of a column first appears
    right after group [g] (groups [0..g] clean, group [g+1] saturated,
    [g < num_groups - 1]) and stays set up to the last group, every pixel of
    the column gets, for [g >= 1], the effective group count [g] and the rate
    [(data[g] - data[0]) / g] (times the gain in the output cube); for
    [g = 0] the count is NaN and the output mask includes DO_NOT_USE. *)
Theorem cds_saturation_truncation
    (ref : ReferenceFiles) (m : RampModel) (n0 n1 n2 n3 i k g : nat) :
  ramp_shape m = (n0, n1, n2, n3) ->
  i < n0 -> k < n3 -> 0 < n2 -> S g < n1 ->
  Props.saturates_after m i k g = true ->
  Props.stays_saturated m i k g = true ->
  exists out ng,
    cds_custom_step.process ref m = Py.ok out /\ ngroup out = Some ng
    /\ forall r,
         (1 <= g ->
          ng i r k = Py.float_of_nat g
          /\ cds_custom_step.cds (cds_custom_step.estimates m) i r k
             = ((ramp_data m i g r k - ramp_data m i 0%nat r k)
                / Py.float_of_nat g)%float
          /\ MA.val (data out i r k)
             = (gain_2d ref r k
                * ((ramp_data m i g r k - ramp_data m i 0%nat r k)
                   / Py.float_of_nat g))%float)
         /\ (g = 0 ->
             ng i r k = nan
             /\ N.land (dq out i r k) dqflags.DO_NOT_USE
                = dqflags.DO_NOT_USE).
Proof.
  intros Hs Hi Hk Hn2 Hg Hafter Hstay.
  destruct (transitions_single m Hs Hi Hk Hg Hafter Hstay) as [Hin Huniq].
  unfold cds_custom_step.process, cds_custom_step.get_gain_ron_2d.
  rewrite Hs.
  destruct (Nat.eqb_spec n1 0) as [E | _]; [lia |].
  destruct (Nat.eqb_spec n2 0) as [E | _]; [lia |]. cbn [orb].
  eexists. eexists. split; [reflexivity |]. split; [reflexivity |].
  intros r.
  cbn [data dq MA.array MA.plain MA.val].
  unfold cds_custom_step.estimates. rewrite Hs.
  pose proof (fold_truncate_unique m i k
                (cds_custom_step.transitions m)
                (cds_custom_step.defaults m n1) Huniq r) as Hfold.
  cbv zeta in Hfold.
  assert (Hex : existsb (fun '(i', _, k') => (i' =? i) && (k' =? k))
                  (cds_custom_step.transitions m) = true).
  { apply existsb_exists. exists (i, g, k). split; [exact Hin |].
    rewrite !Nat.eqb_refl. reflexivity. }
  rewrite Hex in Hfold.
  cbn [cds_custom_step.truncate cds_custom_step.cds cds_custom_step.mask
       cds_custom_step.ngroup_used] in Hfold.
  unfold cds_custom_step.set_column in Hfold.
  rewrite !Nat.eqb_refl in Hfold. cbn [andb] in Hfold.
  inversion Hfold as [[Hcds Hmask Hng]]. clear Hfold.
  rewrite Hcds, Hmask, Hng.
  split.
  - intros Hg1.
    destruct (Nat.eqb_spec g 0) as [E | _]; [lia |].
    repeat split; reflexivity.
  - intros ->. cbn [Nat.eqb]. split; [reflexivity |].
    apply land_lor_same.
Qed.

Lemma cds_saturation_truncation_witness :
  exists out ng,
    cds_custom_step.process Examples.reference Examples.ramp = Py.ok out
    /\ ngroup out = Some ng
    /\ forall r,
         (1 <= 1 ->
          ng 0 r 0 = Py.float_of_nat 1
          /\ cds_custom_step.cds (cds_custom_step.estimates Examples.ramp) 0 r 0
             = ((ramp_data Examples.ramp 0%nat 1%nat r 0%nat
                 - ramp_data Examples.ramp 0%nat 0%nat r 0%nat)
                / Py.float_of_nat 1)%float
          /\ MA.val (data out 0 r 0)
             = (gain_2d Examples.reference r 0%nat
                * ((ramp_data Examples.ramp 0%nat 1%nat r 0%nat
                    - ramp_data Examples.ramp 0%nat 0%nat r 0%nat)
                   / Py.float_of_nat 1))%float)
         /\ (1 = 0 ->
             ng 0 r 0 = nan
             /\ N.land (dq out 0 r 0) dqflags.DO_NOT_USE
                = dqflags.DO_NOT_USE).
Proof.
  apply (@cds_saturation_truncation Examples.reference Examples.ramp
           1 5 1 3 0 0 1).
  - reflexivity.
  - lia.
  - lia.
  - lia.
  - lia.
  - reflexivity.
  - reflexivity.
Defined.

(** C1, as stated, fails on a ramp whose SATURATED flag is set, cleared and
    set again: saturation first appears right after group 1, yet the loop
    ends on the later transition, with 3 effective groups and the rate
    (data[3] - data[0]) / 3. *)
Lemma cds_truncation_flicker :
  Props.saturates_after Examples.flicker 0 0 1 = true
  /\ exists out ng,
       cds_custom_step.process Examples.unit_reference Examples.flicker
       = Py.ok out
       /\ ngroup out = Some ng
       /\ ng 0 0 0 = 3%float
       /\ PrimFloat.eqb (ng 0 0 0) (Py.float_of_nat 1) = false
       /\ PrimFloat.eqb
            (MA.val (data out 0 0 0))
            (PrimFloat.div
               (PrimFloat.sub (ramp_data Examples.flicker 0 1 0 0)
                              (ramp_data Examples.flicker 0 0 0 0))
               (Py.float_of_nat 1))
          = false.
Proof.
  split; [reflexivity |].
  eexists. eexists. split; [reflexivity |]. split; [reflexivity |].
  vm_compute. repeat split.
Qed.


(** C9 (as amended).  A column whose saturation transition is at index 0:
    the step writes the signal [gain * ((data[0] - data[0]) / 1)], a zero
    when the first read and the gain are finite; the column is masked in the
    signal and in the three noise arrays; under the mask var_rnoise holds
    NaN, while var_poisson and err hold the signal value that numpy.ma puts
    back; the invalidity shows in DO_NOT_USE and in the NaN group count. *)
Theorem cds_first_group_saturated
    (ref : ReferenceFiles) (m : RampModel) (n0 n1 n2 n3 i k : nat) :
  ramp_shape m = (n0, n1, n2, n3) ->
  i < n0 -> k < n3 -> 0 < n2 -> 1 < n1 ->
  Props.saturates_after m i k 0 = true ->
  Props.stays_saturated m i k 0 = true ->
  exists out ng,
    cds_custom_step.process ref m = Py.ok out /\ ngroup out = Some ng
    /\ forall r,
         let x := ramp_data m i 0 r k in
         let signal := (gain_2d ref r k * ((x - x) / 1))%float in
         data out i r k = {| MA.val := signal; MA.msk := true |}
         /\ (is_finite x = true -> is_finite (gain_2d ref r k) = true ->
             PrimFloat.eqb signal 0 = true)
         /\ var_poisson out i r k = {| MA.val := signal; MA.msk := true |}
         /\ var_rnoise out i r k = {| MA.val := nan; MA.msk := true |}
         /\ err out i r k = {| MA.val := signal; MA.msk := true |}
         /\ N.land (dq out i r k) dqflags.DO_NOT_USE = dqflags.DO_NOT_USE
         /\ ng i r k = nan.
Proof.
  intros Hs Hi Hk Hn2 Hg Hafter Hstay.
  destruct (transitions_single m Hs Hi Hk Hg Hafter Hstay) as [Hin Huniq].
  unfold cds_custom_step.process, cds_custom_step.get_gain_ron_2d.
  rewrite Hs.
  destruct (Nat.eqb_spec n1 0) as [E | _]; [lia |].
  destruct (Nat.eqb_spec n2 0) as [E | _]; [lia |].
  change (false || false) with false. cbv iota.
  eexists. eexists. split; [reflexivity |]. split; [reflexivity |].
  intros r.
  cbn [data dq var_poisson var_rnoise err].
  unfold cds_custom_step.estimates. rewrite Hs.
  pose proof (fold_truncate_unique m i k
                (cds_custom_step.transitions m)
                (cds_custom_step.defaults m n1) Huniq r) as Hfold.
  cbv zeta in Hfold.
  assert (Hex : existsb (fun '(i', _, k') => (i' =? i) && (k' =? k))
                  (cds_custom_step.transitions m) = true).
  { apply existsb_exists. exists (i, 0, k). split; [exact Hin |].
    rewrite !Nat.eqb_refl. reflexivity. }
  rewrite Hex in Hfold.
  cbn [cds_custom_step.truncate cds_custom_step.cds cds_custom_step.mask
       cds_custom_step.ngroup_used Nat.eqb] in Hfold.
  unfold cds_custom_step.set_column in Hfold.
  rewrite !Nat.eqb_refl in Hfold. cbn [andb] in Hfold.
  inversion Hfold as [[Hcds Hmask Hng]]. clear Hfold.
  rewrite Hcds, Hmask, Hng.
  unfold MA.sqrt, MA.add, MA.binop, MA.true_divide, MA.array, MA.plain.
  cbn [MA.val MA.msk].
  rewrite lor_DO_NOT_USE_pos. cbn [orb].
  rewrite !orb_true_r. cbn [orb].
  change (nan * nan)%float with nan.
  rewrite float_div_nan_r.
  change (Py.float_of_nat 1) with 1%float.
  repeat split.
  - intros Hx Hgain.
    apply float_mul_zero; [exact Hgain |].
    rewrite float_sub_diag by exact Hx. reflexivity.
  - apply land_lor_same.
Qed.

Lemma cds_first_group_saturated_witness :
  exists out ng,
    cds_custom_step.process Examples.reference Examples.ramp = Py.ok out
    /\ ngroup out = Some ng
    /\ forall r,
         let x := ramp_data Examples.ramp 0 0 r 2 in
         let signal :=
           (gain_2d Examples.reference r 2%nat * ((x - x) / 1))%float in
         data out 0 r 2 = {| MA.val := signal; MA.msk := true |}
         /\ (is_finite x = true ->
             is_finite (gain_2d Examples.reference r 2) = true ->
             PrimFloat.eqb signal 0 = true)
         /\ var_poisson out 0 r 2 = {| MA.val := signal; MA.msk := true |}
         /\ var_rnoise out 0 r 2 = {| MA.val := nan; MA.msk := true |}
         /\ err out 0 r 2 = {| MA.val := signal; MA.msk := true |}
         /\ N.land (dq out 0 r 2) dqflags.DO_NOT_USE = dqflags.DO_NOT_USE
         /\ ng 0 r 2 = nan.
Proof.
  apply (@cds_first_group_saturated Examples.reference Examples.ramp
           1 5 1 3 0 2).
  - reflexivity.
  - lia.
  - lia.
  - lia.
  - lia.
  - reflexivity.
  - reflexivity.
Defined.

(** C9, as stated, fails on column 2 of the example ramp, whose transition
    is at index 0: var_rnoise is NaN there, but var_poisson and err hold 0,
    the masked signal value, and not NaN. *)
Lemma cds_first_group_noise_not_nan :
  Props.saturates_after Examples.ramp 0 2 0 = true
  /\ Props.stays_saturated Examples.ramp 0 2 0 = true
  /\ exists out,
       cds_custom_step.process Examples.reference Examples.ramp = Py.ok out
       /\ is_nan (MA.val (var_poisson out 0 0 2)) = false
       /\ is_nan (MA.val (err out 0 0 2)) = false
       /\ is_nan (MA.val (var_rnoise out 0 0 2)) = true
       /\ MA.val (var_poisson out 0 0 2) = 0%float
       /\ MA.val (err out 0 0 2) = 0%float.
Proof.
  split; [reflexivity |]. split; [reflexivity |].
  eexists. split; [reflexivity |].
  vm_compute. repeat split.
Qed.

(** X2.  In the cube the rate estimator returns, wherever err is not masked
    it is the root of var_poisson + var_rnoise. *)
Theorem cds_err_is_root
    (ref : ReferenceFiles) (m : RampModel) (out : CubeModel) (i r k : nat) :
  cds_custom_step.process ref m = Py.ok out ->
  MA.msk (err out i r k) = false ->
  MA.val (err out i r k)
  = PrimFloat.sqrt (PrimFloat.add (MA.val (var_poisson out i r k))
                                  (MA.val (var_rnoise out i r k))).
Proof.
  unfold cds_custom_step.process, cds_custom_step.get_gain_ron_2d.
  destruct (ramp_shape m) as [[[n0 n1] n2] n3].
  destruct ((n1 =? 0) || (n2 =? 0)); [discriminate |].
  intros [= <-]. cbn [err var_poisson var_rnoise].
  unfold MA.sqrt, MA.add, MA.binop. cbn [MA.val MA.msk].
  intros H. rewrite H.
  apply orb_false_iff in H. destruct H as [_ H].
  rewrite H. reflexivity.
Qed.

Lemma cds_err_is_root_witness :
  MA.val (err Examples.rate_cube 0 0 0)
  = PrimFloat.sqrt
      (PrimFloat.add (MA.val (var_poisson Examples.rate_cube 0 0 0))
                     (MA.val (var_rnoise Examples.rate_cube 0 0 0))).
Proof.
  apply (@cds_err_is_root Examples.reference Examples.ramp
           Examples.rate_cube 0 0 0 eq_refl eq_refl).
Defined.

(** C2.  A cube of 13 rows whose err is sqrt(var_poisson + var_rnoise)
    = sqrt(1 + 12) everywhere, through the background correction: at the
    unmasked pixel (0, 0, 0) var_rnoise has grown to 13 while err is still
    sqrt(13), so err differs from sqrt(var_poisson + var_rnoise) = sqrt(14). *)
Theorem refcorr_leaves_err_stale :
  let c := Examples.offset_cube in
  MA.val (err c 0 0 0)
  = PrimFloat.sqrt (PrimFloat.add (MA.val (var_poisson c 0 0 0))
                                  (MA.val (var_rnoise c 0 0 0)))
  /\ exists out,
       refcorr_custom_step.process c = Py.ok out
       /\ dq out 0 0 0 = 0%N
       /\ MA.msk (data out 0 0 0) = false
       /\ MA.msk (err out 0 0 0) = false
       /\ MA.val (var_poisson out 0 0 0) = 1%float
       /\ MA.val (var_rnoise out 0 0 0) = 13%float
       /\ MA.val (err out 0 0 0) = PrimFloat.sqrt 13
       /\ PrimFloat.eqb
            (MA.val (err out 0 0 0))
            (PrimFloat.sqrt (PrimFloat.add (MA.val (var_poisson out 0 0 0))
                                           (MA.val (var_rnoise out 0 0 0))))
          = false.
Proof.
  split; [reflexivity |].
  eexists. split; [reflexivity |].
  vm_compute. repeat split.
Qed.


(* ================================================================== *)
(** ** ReferenceCorrectionCustomStep                                   *)
(* ================================================================== *)

Lemma insert_repeat (x : float) (n : nat) :
  MA.insert x (repeat x n) = repeat x (S n).
Proof.
  induction n as [| n IH]; [reflexivity |].
  cbn [repeat MA.insert]. rewrite IH.
  destruct (MA.sort_le x x); reflexivity.
Qed.

Lemma sort_repeat (x : float) (n : nat) :
  MA.sort (repeat x n) = repeat x n.
Proof.
  induction n as [| n IH]; [reflexivity |].
  unfold MA.sort in *. cbn [repeat fold_right]. rewrite IH.
  apply insert_repeat.
Qed.

Lemma map_const {A B : Type} (f : A -> B) (y : B) (l : list A) :
  (forall x, In x l -> f x = y) -> map f l = repeat y (length l).
Proof.
  induction l as [| a l IH]; intros H; [reflexivity |].
  cbn [map length repeat]. rewrite (H a (or_introl eq_refl)).
  f_equal. apply IH. intros x Hx. apply H. right. exact Hx.
Qed.

(** With at least 6 rows the reference band is the 6 top rows followed by
    the 6 bottom rows. *)
Lemma reference_rows_12 (n1 : nat) :
  6 <= n1 ->
  refcorr_custom_step.reference_rows n1 = seq 0 6 ++ seq (n1 - 6) 6.
Proof.
  intros H. unfold refcorr_custom_step.reference_rows, Py.slice_bound.
  change (0 <? 0)%Z with false. change (6 <? 0)%Z with false.
  change (-6 <? 0)%Z with true. cbv iota.
  destruct (Z.leb_spec (Z.of_nat n1) 0); [lia |].
  destruct (Z.ltb_spec (-6 + Z.of_nat n1) 0); [lia |].
  replace (Z.to_nat (-6 + Z.of_nat n1)) with (n1 - 6) by lia.
  replace (n1 - (n1 - 6)) with 6 by lia.
  destruct (Z.leb_spec (Z.of_nat n1) 6).
  - replace n1 with 6 by lia. reflexivity.
  - reflexivity.
Qed.

(** The masked median of 12 unmasked samples that all hold [off]. *)
Lemma median_constant (off : float) :
  MA.median (repeat (MA.plain off) 12) = MA.plain ((off + off) / 2)%float.
Proof.
  unfold MA.median.
  change (filter (fun a => negb (MA.msk a)) (repeat (MA.plain off) 12))
    with (repeat (MA.plain off) 12).
  change (map MA.val (repeat (MA.plain off) 12)) with (repeat off 12).
  rewrite sort_repeat.
  cbn [repeat length Nat.eqb Nat.div Nat.divmod fst Nat.odd Nat.even negb
       Nat.sub nth].
  destruct (is_nan off) eqn:E; [| reflexivity].
  rewrite (is_nan_eq off E). reflexivity.
Qed.

(** C5 (as amended).  When the 6 top and 6 bottom rows of a column hold the
    same unmasked value [off] in an integration, the background of that
    column is the masked median of the 12 samples, [(off + off) / 2] (which
    is [off] whenever halving the doubled offset is exact); the step
    subtracts it from every unmasked pixel of the column in that
    integration and multiplies every unmasked var_rnoise entry by
    [1 + 1/12]; masked entries keep their mask and their stored value. *)
Theorem refcorr_constant_offset
    (c : CubeModel) (n0 n1 n2 k col : nat) (off : float) :
  cube_shape c = (n0, n1, n2) ->
  k < n0 -> col < n2 -> 6 <= n1 ->
  (forall r, r < n1 -> r < 6 \/ n1 - 6 <= r ->
     data c k r col = MA.plain off) ->
  exists out bg,
    refcorr_custom_step.process c = Py.ok out
    /\ background out = Some bg
    /\ bg k col = MA.plain ((off + off) / 2)%float
    /\ forall r,
         let x := data c k r col in
         let v := var_rnoise c k r col in
         (MA.msk x = false ->
          data out k r col = MA.plain (MA.val x - (off + off) / 2)%float
          /\ (((off + off) / 2)%float = off ->
              data out k r col = MA.plain (MA.val x - off)%float))
         /\ (MA.msk x = true -> data out k r col = x)
         /\ (MA.msk v = false ->
             var_rnoise out k r col
             = MA.plain (MA.val v * (1 + 1 / 12))%float)
         /\ (MA.msk v = true ->
             var_rnoise out k r col
             = {| MA.val := (MA.val v * 1)%float; MA.msk := true |}).
Proof.
  intros Hs Hk Hcol Hn1 Hoff.
  assert (Hmed : MA.median (refcorr_custom_step.background_samples c n1 k col)
                 = MA.plain ((off + off) / 2)%float).
  { unfold refcorr_custom_step.background_samples.
    rewrite (@map_const _ _ (fun r => data c k r col) (MA.plain off)).
    - rewrite reference_rows_12 by exact Hn1. apply median_constant.
    - intros r Hr. rewrite reference_rows_12 in Hr by exact Hn1.
      apply in_app_or in Hr. destruct Hr as [Hr | Hr]; apply in_seq in Hr;
        apply Hoff; lia. }
  unfold refcorr_custom_step.process. rewrite Hs.
  destruct (Nat.eqb_spec (n0 * n2) 0) as [E | _]; [nia |].
  rewrite reference_rows_12 by exact Hn1.
  change (length (seq 0 6 ++ seq (n1 - 6) 6)) with 12.
  change (12 =? 0) with false. cbv iota.
  change (Py.float_of_nat 12) with 12%float.
  eexists. eexists. split; [reflexivity |]. split; [reflexivity |].
  split; [exact Hmed |].
  intros r. cbn [data var_rnoise]. rewrite Hmed.
  unfold MA.subtract, MA.binop, MA.imul_scalar, MA.plain.
  cbn [MA.val MA.msk]. rewrite orb_false_r.
  destruct (data c k r col) as [xv xm].
  destruct (var_rnoise c k r col) as [vv vm].
  cbn [MA.val MA.msk].
  split; [| split; [| split]].
  - intros ->. split; [reflexivity |]. intros ->. reflexivity.
  - intros ->. reflexivity.
  - intros ->. reflexivity.
  - intros ->. reflexivity.
Qed.

Lemma refcorr_constant_offset_witness :
  exists out bg,
    refcorr_custom_step.process Examples.offset_cube = Py.ok out
    /\ background out = Some bg
    /\ bg 0 0 = MA.plain ((5 + 5) / 2)%float
    /\ forall r,
         let x := data Examples.offset_cube 0 r 0 in
         let v := var_rnoise Examples.offset_cube 0 r 0 in
         (MA.msk x = false ->
          data out 0 r 0 = MA.plain (MA.val x - (5 + 5) / 2)%float
          /\ (((5 + 5) / 2)%float = 5%float ->
              data out 0 r 0 = MA.plain (MA.val x - 5)%float))
         /\ (MA.msk x = true -> data out 0 r 0 = x)
         /\ (MA.msk v = false ->
             var_rnoise out 0 r 0
             = MA.plain (MA.val v * (1 + 1 / 12))%float)
         /\ (MA.msk v = true ->
             var_rnoise out 0 r 0
             = {| MA.val := (MA.val v * 1)%float; MA.msk := true |}).
Proof.
  apply (@refcorr_constant_offset Examples.offset_cube 1 13 1 0 0 5%float).
  - reflexivity.
  - lia.
  - lia.
  - lia.
  - intros r Hr Href. cbn [Examples.offset_cube data].
    destruct (Nat.eqb_spec r 6) as [E | _]; [lia | reflexivity].
Defined.

(** C5, as stated, fails at a masked pixel: in a column whose reference
    rows all hold 5, the masked pixel of row 6 keeps its stored 100 (not
    95) and its var_rnoise keeps 12 (not 13), while the unmasked rows lose
    the offset and have their var_rnoise scaled to 13. *)
Lemma refcorr_masked_pixel_untouched :
  (forall r, r < 13 -> r < 6 \/ 13 - 6 <= r ->
     data Examples.masked_offset_cube 0 r 0 = MA.plain 5%float)
  /\ exists out,
       refcorr_custom_step.process Examples.masked_offset_cube = Py.ok out
       /\ MA.val (data out 0 6 0) = 100%float
       /\ MA.val (var_rnoise out 0 6 0) = 12%float
       /\ MA.val (data out 0 5 0) = 0%float
       /\ MA.val (var_rnoise out 0 5 0) = 13%float.
Proof.
  split.
  - intros r Hr Href. cbn [Examples.masked_offset_cube data].
    destruct (Nat.eqb_spec r 6) as [E | _]; [lia | reflexivity].
  - eexists. split; [reflexivity |]. vm_compute. repeat split.
Qed.


(* ================================================================== *)
(** ** FlaggingCustomStep                                              *)
(* ================================================================== *)

(** C7.  Whatever the clipping returns, the outlier flagger clears no bit of
    the input mask, and it or-s JUMP_DET | DO_NOT_USE into exactly the
    entries where (input mask nonzero) xor (entry clipped) holds; all other
    entries are unchanged. *)
Theorem flagging_adds_outlier_bits
    (sigma_clip : nat * nat * nat -> Np.array3 MA.mval -> Np.array3 MA.mval)
    (c : CubeModel) (i r col : nat) :
  let out := flagging_custom_step.process sigma_clip c in
  let clipped := MA.msk (sigma_clip (cube_shape c) (data c) i r col) in
  let new_outlier := xorb (0 <? dq c i r col)%N clipped in
  N.land (dq out i r col) (dq c i r col) = dq c i r col
  /\ (forall n, N.testbit (dq c i r col) n = true ->
                N.testbit (dq out i r col) n = true)
  /\ dq out i r col
     = (if new_outlier
        then N.lor (dq c i r col) (N.lor dqflags.JUMP_DET dqflags.DO_NOT_USE)
        else dq c i r col)
  /\ (new_outlier = true ->
      N.land (dq out i r col) (N.lor dqflags.JUMP_DET dqflags.DO_NOT_USE)
      = N.lor dqflags.JUMP_DET dqflags.DO_NOT_USE)
  /\ (new_outlier = false -> dq out i r col = dq c i r col).
Proof.
  intros out clipped new_outlier. subst out.
  unfold flagging_custom_step.process, flagging_custom_step.new_outliers,
    MA.getmask.
  cbn [dq]. fold clipped. fold new_outlier.
  destruct new_outlier.
  - split; [apply land_lor_absorb |]. split.
    + intros n Hn. rewrite N.lor_spec, Hn. reflexivity.
    + split; [reflexivity |]. split; [| discriminate].
      intros _. apply land_lor_same.
  - split; [apply N.land_diag |]. split; [auto |].
    split; [reflexivity |]. split; [discriminate | reflexivity].
Qed.


(* ================================================================== *)
(** ** TimeAverageStep                                                 *)
(* ================================================================== *)

Lemma count_zero_all_masked (l : list MA.mval) :
  (MA.count l =? 0) = forallb MA.msk l.
Proof.
  unfold MA.count. induction l as [| a l IH]; [reflexivity |].
  cbn [filter forallb]. destruct (MA.msk a); cbn [negb andb length];
    [exact IH | reflexivity].
Qed.

(** numpy's masked mean against the mean of the spec: the same number when
    the spec's mean exists, masked otherwise. *)
Lemma mean_bin_mean (l : list MA.mval) :
  MA.msk (MA.mean l)
  = match Props.bin_mean l with Some _ => false | None => true end
  /\ MA.filled 0%float (MA.mean l) = Props.or_zero (Props.bin_mean l)
  /\ (forall q, Props.bin_mean l = Some q -> MA.mean l = MA.plain q).
Proof.
  unfold MA.mean, Props.bin_mean, MA.true_divide, MA.multiply, MA.binop,
    MA.sum, MA.plain, MA.filled, Props.valid_quotient.
  cbn [MA.val MA.msk]. rewrite count_zero_all_masked, orb_false_r.
  destruct (forallb MA.msk l); cbn [orb].
  - rewrite !orb_true_r. repeat split. discriminate.
  - rewrite !orb_false_r.
    set (s := (MA.fsum (map (fun a => if MA.msk a then 0 else MA.val a) l)
               * 1)%float).
    set (n := Py.float_of_nat (MA.count l)).
    destruct (is_finite (s / n)); cbn [negb andb orb].
    + destruct (MA.domain_safe_divide s n); cbn [negb Props.or_zero].
      * repeat split. discriminate.
      * repeat split. intros q [= <-]. reflexivity.
    + repeat split. discriminate.
Qed.

(** The binned variance of the step against the spec's. *)
Lemma divide_bin_variance (l : list MA.mval) (n : nat) :
  let v := MA.true_divide (MA.mean l) (MA.plain (Py.float_of_nat n)) in
  MA.msk v
  = match Props.bin_variance l n with Some _ => false | None => true end
  /\ MA.filled 0%float v = Props.or_zero (Props.bin_variance l n)
  /\ (forall q, Props.bin_variance l n = Some q -> v = MA.plain q).
Proof.
  cbv zeta. unfold Props.bin_variance.
  destruct (mean_bin_mean l) as (Hm & _ & Hv).
  destruct (Props.bin_mean l) as [q |].
  - rewrite (Hv q eq_refl).
    unfold MA.true_divide, MA.plain, MA.filled, Props.valid_quotient.
    cbn [MA.val MA.msk]. rewrite !orb_false_r.
    destruct (is_finite (q / Py.float_of_nat n)); cbn [negb andb orb].
    + destruct (MA.domain_safe_divide q (Py.float_of_nat n));
        cbn [negb Props.or_zero].
      * repeat split. discriminate.
      * repeat split. intros q' [= <-]. reflexivity.
    + repeat split. discriminate.
  - unfold MA.true_divide, MA.filled. cbn [MA.val MA.msk].
    rewrite Hm. rewrite !orb_true_r. cbn [orb].
    repeat split. discriminate.
Qed.

(** No variance survives a bin without unmasked signal samples: the
    division by the count 0 is never finite. *)
Lemma bin_variance_no_sample (l : list MA.mval) :
  Props.bin_variance l 0 = None.
Proof.
  unfold Props.bin_variance, Props.valid_quotient.
  destruct (Props.bin_mean l) as [q |]; [| reflexivity].
  change (Py.float_of_nat 0) with 0%float.
  rewrite float_div_0_not_finite. reflexivity.
Qed.

(** The binned error of the step against the spec's. *)
Lemma sqrt_bin_error (lp lr : list MA.mval) (n : nat) :
  let vp := MA.true_divide (MA.mean lp) (MA.plain (Py.float_of_nat n)) in
  let vr := MA.true_divide (MA.mean lr) (MA.plain (Py.float_of_nat n)) in
  MA.filled 0%float (MA.np_sqrt (MA.add vp vr))
  = Props.or_zero
      (Props.bin_error (Props.bin_variance lp n) (Props.bin_variance lr n)).
Proof.
  cbv zeta.
  destruct (divide_bin_variance lp n) as (Hpm & _ & Hpv).
  destruct (divide_bin_variance lr n) as (Hrm & _ & Hrv).
  cbv zeta in Hpm, Hpv, Hrm, Hrv.
  unfold MA.np_sqrt, MA.add, MA.binop, MA.filled. cbn [MA.val MA.msk].
  destruct (Props.bin_variance lp n) as [a |].
  - rewrite (Hpv a eq_refl) in *.
    destruct (Props.bin_variance lr n) as [b |].
    + rewrite (Hrv b eq_refl). cbn [MA.plain MA.val MA.msk orb Props.bin_error].
      destruct (a + b <? 0)%float; reflexivity.
    + rewrite Hrm. cbn [MA.plain MA.msk orb]. reflexivity.
  - rewrite Hpm. cbn [orb]. reflexivity.
Qed.

(** For a positive bin size and a cube with pixels the reshape succeeds and
    leaves [n0 / B] bins. *)
Lemma timeaverage_bins_count (B n0 n1 n2 : nat) :
  0 < B -> 0 < n1 -> 0 < n2 ->
  let new_n0 := (Z.of_nat n0 - Z.of_nat n0 mod Z.of_nat B)%Z in
  timeaverage_custom_step.reshape_unknown
    ((Py.slice_bound new_n0 n0 - Py.slice_bound 0 n0) * n1 * n2)
    [Z.of_nat B; Z.of_nat n1; Z.of_nat n2]
  = Py.ok (n0 / B).
Proof.
  intros HB H1 H2 new_n0.
  assert (Hnew : new_n0 = Z.of_nat (B * (n0 / B))).
  { subst new_n0. rewrite Nat2Z.inj_mul, Nat2Z.inj_div.
    pose proof (Z.div_mod (Z.of_nat n0) (Z.of_nat B)). lia. }
  assert (Hle : B * (n0 / B) <= n0) by (apply Nat.Div0.mul_div_le).
  assert (Hkept : Py.slice_bound new_n0 n0 - Py.slice_bound 0 n0
                  = B * (n0 / B)).
  { rewrite Hnew. unfold Py.slice_bound.
    change (0 <? 0)%Z with false. cbv iota.
    destruct (Z.ltb_spec (Z.of_nat (B * (n0 / B))) 0); [lia |].
    destruct (Z.leb_spec (Z.of_nat n0) (Z.of_nat (B * (n0 / B))));
      destruct (Z.leb_spec (Z.of_nat n0) 0); lia. }
  rewrite Hkept. unfold timeaverage_custom_step.reshape_unknown.
  cbn [existsb fold_right].
  destruct (Z.ltb_spec (Z.of_nat B) 0); [lia |].
  destruct (Z.ltb_spec (Z.of_nat n1) 0); [lia |].
  destruct (Z.ltb_spec (Z.of_nat n2) 0); [lia |]. cbn [orb].
  replace (Z.to_nat (Z.of_nat B * (Z.of_nat n1 * (Z.of_nat n2 * 1))))
    with (B * (n1 * n2)) by lia.
  destruct (Nat.eqb_spec (B * (n1 * n2)) 0) as [E | Hne]; [nia |].
  replace (B * (n0 / B) * n1 * n2) with ((n0 / B) * (B * (n1 * n2))) by lia.
  rewrite Nat.Div0.mod_mul, Nat.div_mul by exact Hne.
  reflexivity.
Qed.


(** C6 (as amended).  For a positive bin size [B] and a cube with pixels the
    step succeeds and keeps [n0 / B] bins, bin [b] holding the integrations
    [b * B .. b * B + B - 1] (the remainder past the largest multiple of [B]
    is dropped).  A sample is masked when its stored mask or its quality
    word says so.  The binned signal is the masked mean of the bin; each
    variance is the masked mean of that variance divided by the number of
    unmasked signal samples; the error is the root of the variance sum; a
    value that does not exist (no unmasked sample, a quotient numpy rejects,
    a negative variance sum) is written as 0.  The output mask is 1 exactly
    where the binned signal does not exist, which covers every bin whose
    samples are all masked, and 0 elsewhere; with no unmasked sample the
    signal, both variances and the error are 0 and the mask is 1. *)
Theorem timeaverage_bins
    (B : nat) (c : CubeModel) (n0 n1 n2 : nat) :
  cube_shape c = (n0, n1, n2) -> 0 < B -> 0 < n1 -> 0 < n2 ->
  exists out,
    timeaverage_custom_step.process (Z.of_nat B) c = Py.ok out
    /\ cube_shape out = (n0 / B, n1, n2)
    /\ forall b r col,
         let sample (a : Np.array3 MA.mval) :=
           timeaverage_custom_step.bin_samples B
             (fun i r' c' => MA.array (a i r' c') (0 <? dq c i r' c')%N)
             b r col in
         let n := MA.count (sample (data c)) in
         let signal := Props.bin_mean (sample (data c)) in
         let vp := Props.bin_variance (sample (var_poisson c)) n in
         let vr := Props.bin_variance (sample (var_rnoise c)) n in
         data out b r col = MA.plain (Props.or_zero signal)
         /\ var_poisson out b r col = MA.plain (Props.or_zero vp)
         /\ var_rnoise out b r col = MA.plain (Props.or_zero vr)
         /\ err out b r col = MA.plain (Props.or_zero (Props.bin_error vp vr))
         /\ dq out b r col
            = match signal with Some _ => 0%N | None => 1%N end
         /\ (forallb MA.msk (sample (data c)) = true ->
             signal = None /\ vp = None /\ vr = None
             /\ Props.bin_error vp vr = None)
         /\ (forallb MA.msk (sample (data c)) = false ->
             Props.valid_quotient
               (MA.fsum (map (MA.filled 0%float) (sample (data c))) * 1)%float
               (Py.float_of_nat n) = true ->
             signal
             = Some ((MA.fsum (map (MA.filled 0%float) (sample (data c))) * 1)
                     / Py.float_of_nat n)%float).
Proof.
  intros Hs HB H1 H2.
  unfold timeaverage_custom_step.process. rewrite Hs.
  destruct (Z.eqb_spec (Z.of_nat B) 0) as [E | _]; [lia |].
  pose proof (timeaverage_bins_count n0 HB H1 H2) as Hbins.
  cbv zeta in Hbins. rewrite Hbins. rewrite Nat2Z.id.
  eexists. split; [reflexivity |]. split; [reflexivity |].
  intros b r col. cbn [data dq var_poisson var_rnoise err MA.getmask].
  set (sd := timeaverage_custom_step.bin_samples B
               (fun i r' c' => MA.array (data c i r' c') (0 <? dq c i r' c')%N)
               b r col).
  set (sp := timeaverage_custom_step.bin_samples B
               (fun i r' c' =>
                  MA.array (var_poisson c i r' c') (0 <? dq c i r' c')%N)
               b r col).
  set (sr := timeaverage_custom_step.bin_samples B
               (fun i r' c' =>
                  MA.array (var_rnoise c i r' c') (0 <? dq c i r' c')%N)
               b r col).
  destruct (mean_bin_mean sd) as (Hdm & Hdf & _).
  destruct (divide_bin_variance sp (MA.count sd)) as (_ & Hpf & _).
  destruct (divide_bin_variance sr (MA.count sd)) as (_ & Hrf & _).
  cbv zeta in Hpf, Hrf.
  unfold MA.getmask. rewrite Hdf, Hpf, Hrf, Hdm.
  rewrite (sqrt_bin_error sp sr (MA.count sd)).
  split; [reflexivity |]. split; [reflexivity |]. split; [reflexivity |].
  split; [reflexivity |].
  split; [destruct (Props.bin_mean sd); reflexivity |].
  split.
  - intros Hall. rewrite <- count_zero_all_masked in Hall.
    apply Nat.eqb_eq in Hall. rewrite Hall.
    rewrite !bin_variance_no_sample.
    unfold Props.bin_mean. rewrite Hall. repeat split.
  - intros Hsome Hvalid. rewrite <- count_zero_all_masked in Hsome.
    unfold Props.bin_mean. rewrite Hsome, Hvalid. reflexivity.
Qed.

Lemma timeaverage_bins_witness :
  exists out,
    timeaverage_custom_step.process (Z.of_nat 2) Examples.small_cube = Py.ok out
    /\ cube_shape out = (3 / 2, 1, 2)
    /\ forall b r col,
         let sample (a : Np.array3 MA.mval) :=
           timeaverage_custom_step.bin_samples 2
             (fun i r' c' =>
                MA.array (a i r' c') (0 <? dq Examples.small_cube i r' c')%N)
             b r col in
         let n := MA.count (sample (data Examples.small_cube)) in
         let signal := Props.bin_mean (sample (data Examples.small_cube)) in
         let vp :=
           Props.bin_variance (sample (var_poisson Examples.small_cube)) n in
         let vr :=
           Props.bin_variance (sample (var_rnoise Examples.small_cube)) n in
         data out b r col = MA.plain (Props.or_zero signal)
         /\ var_poisson out b r col = MA.plain (Props.or_zero vp)
         /\ var_rnoise out b r col = MA.plain (Props.or_zero vr)
         /\ err out b r col = MA.plain (Props.or_zero (Props.bin_error vp vr))
         /\ dq out b r col
            = match signal with Some _ => 0%N | None => 1%N end
         /\ (forallb MA.msk (sample (data Examples.small_cube)) = true ->
             signal = None /\ vp = None /\ vr = None
             /\ Props.bin_error vp vr = None)
         /\ (forallb MA.msk (sample (data Examples.small_cube)) = false ->
             Props.valid_quotient
               (MA.fsum (map (MA.filled 0%float)
                           (sample (data Examples.small_cube))) * 1)%float
               (Py.float_of_nat n) = true ->
             signal
             = Some ((MA.fsum (map (MA.filled 0%float)
                                 (sample (data Examples.small_cube))) * 1)
                     / Py.float_of_nat n)%float).
Proof.
  apply (@timeaverage_bins 2 Examples.small_cube 3 1 2).
  - reflexivity.
  - lia.
  - lia.
  - lia.
Defined.

(** C6, as stated, fails on a bin whose only sample is an unmasked infinite
    rate: not every sample of the bin is masked, yet the mean is not a
    finite number, numpy masks it, and the step writes signal 0 with the
    mask set. *)
Lemma timeaverage_masks_infinite_mean :
  MA.msk (data Examples.overflowed_cube 0 0 0) = false
  /\ dq Examples.overflowed_cube 0 0 0 = 0%N
  /\ exists out,
       timeaverage_custom_step.process 1 Examples.overflowed_cube = Py.ok out
       /\ cube_shape out = (1, 1, 1)
       /\ dq out 0 0 0 = 1%N
       /\ MA.val (data out 0 0 0) = 0%float.
Proof.
  split; [reflexivity |]. split; [reflexivity |].
  eexists. split; [reflexivity |]. vm_compute. repeat split.
Qed.

(** C8.  A bin size [B <= 0] makes the step raise: ZeroDivisionError for
    [B = 0] (from [n0 % num_ave]), ValueError for [B < 0] (from the reshape,
    which then has two negative entries); no cube is produced. *)
Theorem timeaverage_nonpositive_bin (num_ave : Z) (c : CubeModel) :
  (num_ave <= 0)%Z ->
  timeaverage_custom_step.process num_ave c
  = Py.raise (if (num_ave =? 0)%Z then Py.ZeroDivisionError
              else Py.ValueError)
  /\ forall out, timeaverage_custom_step.process num_ave c <> Py.ok out.
Proof.
  intros H.
  assert (E : timeaverage_custom_step.process num_ave c
              = Py.raise (if (num_ave =? 0)%Z then Py.ZeroDivisionError
                          else Py.ValueError)).
  { unfold timeaverage_custom_step.process.
    destruct (cube_shape c) as [[n0 n1] n2].
    destruct (Z.eqb_spec num_ave 0) as [-> | Hne]; [reflexivity |].
    unfold timeaverage_custom_step.reshape_unknown. cbn [existsb].
    destruct (Z.ltb_spec num_ave 0); [reflexivity | lia]. }
  split; [exact E |]. intros out. rewrite E. discriminate.
Qed.

Lemma timeaverage_nonpositive_bin_witness :
  timeaverage_custom_step.process (-25) Examples.small_cube
  = Py.raise (if (-25 =? 0)%Z then Py.ZeroDivisionError else Py.ValueError)
  /\ forall out,
       timeaverage_custom_step.process (-25) Examples.small_cube <> Py.ok out.
Proof.
  apply (@timeaverage_nonpositive_bin (-25) Examples.small_cube). lia.
Defined.

(** The mask word the step writes is the mask of the binned signal. *)
Lemma timeaverage_dq (num_ave : Z) (c out : CubeModel) :
  timeaverage_custom_step.process num_ave c = Py.ok out ->
  forall b r col,
    dq out b r col
    = N.b2n
        (MA.msk
           (MA.mean
              (timeaverage_custom_step.bin_samples (Z.to_nat num_ave)
                 (fun i r' c' =>
                    MA.array (data c i r' c') (0 <? dq c i r' c')%N)
                 b r col))).
Proof.
  unfold timeaverage_custom_step.process.
  destruct (cube_shape c) as [[n0 n1] n2].
  destruct (num_ave =? 0)%Z; [discriminate |].
  destruct (timeaverage_custom_step.reshape_unknown _ _) as [e | bins];
    [discriminate |].
  intros [= <-] b r col. reflexivity.
Qed.

(** C10 (as amended).  The quality mask of a binned cube holds only 0 and
    1: it is the mask of the binned signal cast to an integer, that is 1
    exactly where the binned signal does not exist (every sample of the bin
    masked, or a mean of the unmasked samples that numpy rejects as not a
    valid finite number) and 0 elsewhere.  The SATURATED and JUMP_DET bits
    are never set in it; the value 1 is the DO_NOT_USE bit, so the word is
    0 or exactly DO_NOT_USE, whether or not an input word carried that bit.
    No input flag is copied: the word depends on the input words only
    through which of them are nonzero. *)
Theorem timeaverage_mask_is_indicator
    (num_ave : Z) (c out : CubeModel) :
  timeaverage_custom_step.process num_ave c = Py.ok out ->
  forall b r col,
    let samples :=
      timeaverage_custom_step.bin_samples (Z.to_nat num_ave)
        (fun i r' c' => MA.array (data c i r' c') (0 <? dq c i r' c')%N)
        b r col in
    (dq out b r col = 0%N \/ dq out b r col = 1%N)
    /\ N.land (dq out b r col) dqflags.SATURATED = 0%N
    /\ N.land (dq out b r col) dqflags.JUMP_DET = 0%N
    /\ N.land (dq out b r col) dqflags.DO_NOT_USE = dq out b r col
    /\ dq out b r col = N.b2n (MA.msk (MA.mean samples))
    /\ dq out b r col
       = match Props.bin_mean samples with Some _ => 0%N | None => 1%N end
    /\ (dq out b r col = 1%N
        <-> forallb MA.msk samples = true
            \/ Props.valid_quotient
                 (MA.fsum (map (MA.filled 0%float) samples) * 1)%float
                 (Py.float_of_nat (MA.count samples)) = false)
    /\ forall c' out',
         (forall i r' k,
            data c' i r' k = data c i r' k
            /\ (0 <? dq c' i r' k)%N = (0 <? dq c i r' k)%N) ->
         timeaverage_custom_step.process num_ave c' = Py.ok out' ->
         dq out' b r col = dq out b r col.
Proof.
  intros Hout b r col. cbv zeta.
  set (samples :=
         timeaverage_custom_step.bin_samples (Z.to_nat num_ave)
           (fun i r' c' => MA.array (data c i r' c') (0 <? dq c i r' c')%N)
           b r col).
  pose proof (@timeaverage_dq num_ave c out Hout b r col) as Hdq.
  fold samples in Hdq.
  rewrite Hdq.
  destruct (mean_bin_mean samples) as (Hm & _ & _).
  assert (Hw : N.b2n (MA.msk (MA.mean samples))
               = match Props.bin_mean samples with
                 | Some _ => 0%N
                 | None => 1%N
                 end)
    by (rewrite Hm; destruct (Props.bin_mean samples); reflexivity).
  split; [destruct (MA.msk (MA.mean samples)); auto |].
  split; [destruct (MA.msk (MA.mean samples)); reflexivity |].
  split; [destruct (MA.msk (MA.mean samples)); reflexivity |].
  split; [destruct (MA.msk (MA.mean samples)); reflexivity |].
  split; [reflexivity |]. split; [exact Hw |]. split.
  - rewrite Hw. unfold Props.bin_mean.
    rewrite count_zero_all_masked.
    destruct (forallb MA.msk samples).
    + split; auto.
    + destruct (Props.valid_quotient _ _); split;
        try discriminate; auto.
      intros [H | H]; discriminate.
  - intros c' out' Hsame Hout'.
    rewrite (@timeaverage_dq num_ave c' out' Hout' b r col).
    f_equal. f_equal. f_equal.
    unfold samples, timeaverage_custom_step.bin_samples.
    apply map_ext. intros t.
    destruct (Hsame (b * Z.to_nat num_ave + t) r col) as [-> ->].
    reflexivity.
Qed.

Lemma timeaverage_mask_is_indicator_witness :
  (dq Examples.binned_small_cube 0 0 1 = 0%N
   \/ dq Examples.binned_small_cube 0 0 1 = 1%N)
  /\ N.land (dq Examples.binned_small_cube 0 0 1) dqflags.SATURATED = 0%N
  /\ N.land (dq Examples.binned_small_cube 0 0 1) dqflags.JUMP_DET = 0%N
  /\ N.land (dq Examples.binned_small_cube 0 0 1) dqflags.DO_NOT_USE
     = dq Examples.binned_small_cube 0 0 1
  /\ dq Examples.binned_small_cube 0 0 1
     = N.b2n (MA.msk (MA.mean Examples.small_bin))
  /\ dq Examples.binned_small_cube 0 0 1
     = match Props.bin_mean Examples.small_bin with
       | Some _ => 0%N
       | None => 1%N
       end
  /\ (dq Examples.binned_small_cube 0 0 1 = 1%N
      <-> forallb MA.msk Examples.small_bin = true
          \/ Props.valid_quotient
               (MA.fsum (map (MA.filled 0%float) Examples.small_bin) * 1)%float
               (Py.float_of_nat (MA.count Examples.small_bin)) = false)
  /\ forall c' out',
       (forall i r' k,
          data c' i r' k = data Examples.small_cube i r' k
          /\ (0 <? dq c' i r' k)%N = (0 <? dq Examples.small_cube i r' k)%N) ->
       timeaverage_custom_step.process 2 c' = Py.ok out' ->
       dq out' 0 0 1 = dq Examples.binned_small_cube 0 0 1.
Proof.
  exact (@timeaverage_mask_is_indicator 2 Examples.small_cube
           Examples.binned_small_cube eq_refl 0 0 1).
Defined.

(** C10, as stated, fails on a bin of two unmasked samples, 1 and
    infinity, of a cube without any flag: not every sample of the bin is
    masked (none is), yet the mask word is 1, because the mean is not
    finite; and the DO_NOT_USE bit is set in the output although no input
    word carries it. *)
Lemma timeaverage_mask_not_all_masked :
  (forall i, i < 2 ->
     MA.msk (data Examples.spiked_cube i 0 0) = false
     /\ dq Examples.spiked_cube i 0 0 = 0%N)
  /\ forallb MA.msk
       (timeaverage_custom_step.bin_samples 2
          (fun i r' c' =>
             MA.array (data Examples.spiked_cube i r' c')
                      (0 <? dq Examples.spiked_cube i r' c')%N)
          0 0 0)
     = false
  /\ exists out,
       timeaverage_custom_step.process 2 Examples.spiked_cube = Py.ok out
       /\ cube_shape out = (1, 1, 1)
       /\ dq out 0 0 0 = 1%N
       /\ N.land (dq out 0 0 0) dqflags.DO_NOT_USE = dqflags.DO_NOT_USE
       /\ MA.val (data out 0 0 0) = 0%float.
Proof.
  split; [intros i _; split; reflexivity |].
  split; [reflexivity |].
  eexists. split; [reflexivity |]. vm_compute. repeat split.
Qed.


(* ================================================================== *)
(** ** FlagSaturatedColumns on any ramp                                *)
(* ================================================================== *)

Lemma reached_spec (m : RampModel) (n0 n1 n2 n3 : nat) (ncols : Z)
    (i j k' : nat) :
  ramp_shape m = (n0, n1, n2, n3) ->
  Props.reached m ncols i j k' = true
  <-> i < n0 /\ j < n1
      /\ exists r k, r < n2 /\ k < n3
           /\ N.land (groupdq m i j r k) dqflags.SATURATED <> 0%N
           /\ Py.in_slice (Z.of_nat k - ncols) (Z.of_nat k + ncols + 1) n3 k'
              = true.
Proof.
  intros Hs. unfold Props.reached. rewrite Hs.
  rewrite !andb_true_iff, !Nat.ltb_lt, existsb_exists. split.
  - intros ((Hi & Hj) & r & Hr & H). apply existsb_exists in H.
    destruct H as (k & Hk & H). apply andb_true_iff in H.
    destruct H as (Hsat & Hin). apply in_seq in Hr, Hk.
    apply negb_true_iff, N.eqb_neq in Hsat.
    split; [exact Hi |]. split; [exact Hj |].
    exists r, k. repeat split; try lia; assumption.
  - intros (Hi & Hj & r & k & Hr & Hk & Hsat & Hin).
    split; [split; assumption |].
    exists r. split; [apply in_seq; lia |].
    apply existsb_exists. exists k. split; [apply in_seq; lia |].
    apply andb_true_iff. split; [| exact Hin].
    apply negb_true_iff, N.eqb_neq. exact Hsat.
Qed.

(** The words the loop changes are those of the columns a saturated pixel
    reaches, whatever the order in which the pixels are visited. *)
Lemma flagged_groupdq (m : RampModel) (ncols : Z) (i j r k' : nat) :
  groupdq (uncal2L1.FlagSaturatedColumns m ncols) i j r k'
  = if Props.reached m ncols i j k'
    then N.lor (groupdq m i j r k')
               (N.lor dqflags.SATURATED dqflags.DO_NOT_USE)
    else groupdq m i j r k'.
Proof.
  unfold uncal2L1.FlagSaturatedColumns.
  destruct (ramp_shape m) as [[[n0 n1] n2] n3] eqn:Hs. cbn [groupdq].
  rewrite fold_flag_pixel.
  match goal with
  | |- (if existsb ?f ?l then _ else _) = _ =>
      assert (E : existsb f l = Props.reached m ncols i j k')
  end.
  { apply eq_true_iff_eq. rewrite existsb_exists, (reached_spec _ _ _ _ _ Hs).
    split.
    - intros ([[[a b] c] d] & Hin & Hc). unfold Props.covers in Hc.
      apply in_where4 in Hin. destruct Hin as ((Ha & Hb & Hc' & Hd) & Hz).
      apply negb_true_iff, N.eqb_neq in Hz.
      apply andb_true_iff in Hc. destruct Hc as [Hc Hsl].
      apply andb_true_iff in Hc. destruct Hc as [Hi Hj].
      apply Nat.eqb_eq in Hi, Hj. subst a b.
      split; [exact Ha |]. split; [exact Hb |].
      exists c, d. repeat split; assumption.
    - intros (Hi & Hj & c & d & Hc & Hd & Hsat & Hsl).
      exists (i, j, c, d). split.
      + apply in_where4. split; [lia |].
        apply negb_true_iff, N.eqb_neq. exact Hsat.
      + unfold Props.covers. rewrite !Nat.eqb_refl. exact Hsl. }
  rewrite E. reflexivity.
Qed.

Lemma FlagSaturatedColumns_shape (m : RampModel) (ncols : Z) :
  ramp_shape (uncal2L1.FlagSaturatedColumns m ncols) = ramp_shape m.
Proof.
  unfold uncal2L1.FlagSaturatedColumns.
  destruct (ramp_shape m) as [[[n0 n1] n2] n3]. reflexivity.
Qed.

Lemma FlagSaturatedColumns_data (m : RampModel) (ncols : Z) :
  ramp_data (uncal2L1.FlagSaturatedColumns m ncols) = ramp_data m
  /\ pixeldq (uncal2L1.FlagSaturatedColumns m ncols) = pixeldq m.
Proof.
  unfold uncal2L1.FlagSaturatedColumns.
  destruct (ramp_shape m) as [[[n0 n1] n2] n3]. split; reflexivity.
Qed.

(** X3.  On any ramp and for any [ncols], FlagSaturatedColumns or-s
    SATURATED | DO_NOT_USE into exactly the words of the columns that some
    saturated pixel of the same group and integration reaches through its
    slice, in every row; it leaves all other words, the pixel data, pixeldq
    and the shape as they are, and it clears no bit. *)
Theorem FlagSaturatedColumns_reached
    (m : RampModel) (ncols : Z) (i j r k' : nat) :
  let out := uncal2L1.FlagSaturatedColumns m ncols in
  groupdq out i j r k'
  = (if Props.reached m ncols i j k'
     then N.lor (groupdq m i j r k')
                (N.lor dqflags.SATURATED dqflags.DO_NOT_USE)
     else groupdq m i j r k')
  /\ N.land (groupdq out i j r k') (groupdq m i j r k') = groupdq m i j r k'
  /\ ramp_data out = ramp_data m
  /\ pixeldq out = pixeldq m
  /\ ramp_shape out = ramp_shape m.
Proof.
  cbv zeta. rewrite flagged_groupdq.
  split; [reflexivity |]. split.
  - destruct (Props.reached m ncols i j k');
      [apply land_lor_absorb | apply N.land_diag].
  - split; [apply FlagSaturatedColumns_data |].
    split; [apply FlagSaturatedColumns_data | apply FlagSaturatedColumns_shape].
Qed.

(** When the slice [k-ncols:k+ncols+1] starts at a column that exists, it
    selects the columns within [ncols] of [k]. *)
Lemma in_slice_window (n3 k k' : nat) (ncols : Z) :
  (0 <= ncols <= Z.of_nat k)%Z -> k < n3 -> k' < n3 ->
  Py.in_slice (Z.of_nat k - ncols) (Z.of_nat k + ncols + 1) n3 k'
  = ((Z.of_nat k - ncols <=? Z.of_nat k')
     && (Z.of_nat k' <=? Z.of_nat k + ncols))%Z.
Proof.
  intros Hn Hk Hk'. unfold Py.in_slice, Py.slice_bound.
  destruct (Z.ltb_spec (Z.of_nat k - ncols) 0); [lia |].
  destruct (Z.ltb_spec (Z.of_nat k + ncols + 1) 0); [lia |].
  destruct (Z.leb_spec (Z.of_nat n3) (Z.of_nat k - ncols)); [lia |].
  destruct (Z.leb_spec (Z.of_nat n3) (Z.of_nat k + ncols + 1));
    destruct (Z.leb_spec (Z.of_nat k - ncols) (Z.of_nat k'));
    destruct (Z.leb_spec (Z.of_nat k') (Z.of_nat k + ncols));
    cbn [andb];
    repeat match goal with
           | |- context [Nat.leb ?a ?b] => destruct (Nat.leb_spec a b)
           | |- context [Nat.ltb ?a ?b] => destruct (Nat.ltb_spec a b)
           end; cbn [andb]; try reflexivity; lia.
Qed.

(** X4.  The promise of the docstring, on any ramp: when a pixel of column
    [k] is saturated in a group and [0 <= ncols <= k], every row of the
    columns within [ncols] of [k] that exist carries SATURATED and
    DO_NOT_USE in that group after the step. *)
Theorem FlagSaturatedColumns_whole_column
    (m : RampModel) (n0 n1 n2 n3 : nat) (ncols : Z) (i j r k : nat) :
  ramp_shape m = (n0, n1, n2, n3) ->
  i < n0 -> j < n1 -> r < n2 -> k < n3 ->
  (0 <= ncols <= Z.of_nat k)%Z ->
  N.land (groupdq m i j r k) dqflags.SATURATED <> 0%N ->
  forall r' k', k' < n3 ->
    (Z.of_nat k - ncols <= Z.of_nat k' <= Z.of_nat k + ncols)%Z ->
    N.land (groupdq (uncal2L1.FlagSaturatedColumns m ncols) i j r' k')
           (N.lor dqflags.SATURATED dqflags.DO_NOT_USE)
    = N.lor dqflags.SATURATED dqflags.DO_NOT_USE.
Proof.
  intros Hs Hi Hj Hr Hk Hn Hsat r' k' Hk' Hwin.
  rewrite flagged_groupdq.
  assert (E : Props.reached m ncols i j k' = true).
  { apply (reached_spec _ _ _ _ _ Hs). split; [exact Hi |]. split; [exact Hj |].
    exists r, k. repeat split; try assumption.
    rewrite in_slice_window by assumption.
    apply andb_true_iff. split; apply Z.leb_le; lia. }
  rewrite E. apply land_lor_same.
Qed.

Lemma FlagSaturatedColumns_whole_column_witness :
  forallb
    (fun '(r', k') =>
       N.eqb
         (N.land
            (groupdq (uncal2L1.FlagSaturatedColumns
                        Examples.one_saturated_pixel 2) 0 1 r' k')
            (N.lor dqflags.SATURATED dqflags.DO_NOT_USE))
         (N.lor dqflags.SATURATED dqflags.DO_NOT_USE))
    [(0, 0); (0, 1); (0, 2); (0, 3); (1, 0); (1, 1); (1, 2); (1, 3)]
  = true.
Proof.
  apply forallb_forall. intros [r' k'] Hin. apply N.eqb_eq.
  apply (@FlagSaturatedColumns_whole_column Examples.one_saturated_pixel
           1 2 2 4 2 0 1 0 2); try reflexivity; try lia.
  - discriminate.
  - cbn [In] in Hin.
    repeat (destruct Hin as [[= <- <-] | Hin]; [lia |]). contradiction.
  - cbn [In] in Hin.
    repeat (destruct Hin as [[= <- <-] | Hin]; [lia |]). contradiction.
Defined.

(** With [ncols = 0] the slice of a saturated pixel is its own column. *)
Lemma in_slice_self (n3 k k' : nat) :
  k < n3 ->
  Py.in_slice (Z.of_nat k - 0) (Z.of_nat k + 0 + 1) n3 k' = (k' =? k).
Proof.
  intros Hk. unfold Py.in_slice, Py.slice_bound.
  destruct (Z.ltb_spec (Z.of_nat k - 0) 0); [lia |].
  destruct (Z.ltb_spec (Z.of_nat k + 0 + 1) 0); [lia |].
  destruct (Z.leb_spec (Z.of_nat n3) (Z.of_nat k - 0)); [lia |].
  destruct (Z.leb_spec (Z.of_nat n3) (Z.of_nat k + 0 + 1));
    destruct (Nat.eqb_spec k' k);
    repeat match goal with
           | |- context [Nat.leb ?a ?b] => destruct (Nat.leb_spec a b)
           | |- context [Nat.ltb ?a ?b] => destruct (Nat.ltb_spec a b)
           end; cbn [andb]; try reflexivity; lia.
Qed.

Lemma saturated_lor (a : N) :
  N.land (N.lor a (N.lor dqflags.SATURATED dqflags.DO_NOT_USE))
         dqflags.SATURATED <> 0%N.
Proof.
  intros H.
  assert (B : N.testbit
                (N.land (N.lor a (N.lor dqflags.SATURATED dqflags.DO_NOT_USE))
                        dqflags.SATURATED) 1 = true).
  { rewrite N.land_spec, N.lor_spec.
    change (N.testbit (N.lor dqflags.SATURATED dqflags.DO_NOT_USE) 1)
      with true.
    change (N.testbit dqflags.SATURATED 1) with true.
    rewrite orb_true_r. reflexivity. }
  rewrite H in B. discriminate.
Qed.

(** X5.  With [ncols = 0] a second pass changes nothing: the columns that
    carry a saturated pixel after the first pass are those that carried one
    before it. *)
Theorem FlagSaturatedColumns_idempotent (m : RampModel) (i j r k' : nat) :
  groupdq (uncal2L1.FlagSaturatedColumns
             (uncal2L1.FlagSaturatedColumns m 0) 0) i j r k'
  = groupdq (uncal2L1.FlagSaturatedColumns m 0) i j r k'.
Proof.
  destruct (ramp_shape m) as [[[n0 n1] n2] n3] eqn:Hs.
  assert (Hs' : ramp_shape (uncal2L1.FlagSaturatedColumns m 0)
                = (n0, n1, n2, n3))
    by (rewrite FlagSaturatedColumns_shape; exact Hs).
  assert (E : Props.reached (uncal2L1.FlagSaturatedColumns m 0) 0 i j k'
              = Props.reached m 0 i j k').
  { apply eq_true_iff_eq.
    rewrite (reached_spec _ _ _ _ _ Hs'), (reached_spec _ _ _ _ _ Hs).
    split; intros (Hi & Hj & c & d & Hc & Hd & Hsat & Hsl);
      (split; [exact Hi |]); (split; [exact Hj |]).
    - rewrite flagged_groupdq in Hsat.
      destruct (Props.reached m 0 i j d) eqn:Hr.
      + apply (reached_spec _ _ _ _ _ Hs) in Hr.
        destruct Hr as (_ & _ & c' & d' & Hc' & Hd' & Hsat' & Hsl').
        rewrite in_slice_self in Hsl, Hsl' by assumption.
        apply Nat.eqb_eq in Hsl, Hsl'. subst.
        exists c', d'. repeat split; try assumption.
        rewrite in_slice_self by assumption. apply Nat.eqb_refl.
      + exists c, d. repeat split; assumption.
    - exists c, d. repeat split; try assumption.
      rewrite flagged_groupdq.
      destruct (Props.reached m 0 i j d); [apply saturated_lor | exact Hsat]. }
  rewrite (flagged_groupdq (uncal2L1.FlagSaturatedColumns m 0)), E.
  rewrite flagged_groupdq.
  destruct (Props.reached m 0 i j k'); [apply lor_idem_r | reflexivity].
Qed.


(* ================================================================== *)
(** ** CDSCustomStep on any ramp                                       *)
(* ================================================================== *)

Section MoreFloatFacts.

Open Scope float_scope.

Lemma float_mul_nan_r (x : float) : x * nan = nan.
Proof.
  apply Prim2SF_inj. rewrite mul_spec.
  change (Prim2SF nan) with S754_nan.
  destruct (Prim2SF x); reflexivity.
Qed.

Lemma float_add_nan_r (x : float) : x + nan = nan.
Proof.
  apply Prim2SF_inj. rewrite add_spec.
  change (Prim2SF nan) with S754_nan.
  destruct (Prim2SF x); reflexivity.
Qed.

Lemma float_add_nan_l (x : float) : nan + x = nan.
Proof.
  apply Prim2SF_inj. rewrite add_spec.
  change (Prim2SF nan) with S754_nan. reflexivity.
Qed.

(** [x - x] is +0 for a finite [x] and NaN otherwise; over 0 both give
    NaN. *)
Lemma float_sub_self_div_0 (x : float) : (x - x) / 0 = nan.
Proof.
  destruct (is_finite x) eqn:Hf.
  - rewrite float_sub_diag by exact Hf. reflexivity.
  - assert (E : x - x = nan).
    { apply Prim2SF_inj. rewrite sub_spec.
      rewrite is_finite_SF in Hf.
      change (Prim2SF nan) with S754_nan.
      destruct (Prim2SF x) as [s | s | | s m e]; try discriminate Hf;
        [destruct s; reflexivity | reflexivity]. }
    rewrite E. reflexivity.
Qed.

End MoreFloatFacts.

Lemma seq_split (g d : nat) :
  seq 0 (g + S d) = seq 0 g ++ g :: seq (S g) d.
Proof. rewrite seq_app. reflexivity. Qed.

(** [np.where] lists positions in row-major order: past the position
    [(i, g, k)] the list holds, for that integration and column, only
    groups after [g]. *)
Lemma indices3_split (n0 n1 n2 i g k : nat) :
  i < n0 -> g < n1 -> k < n2 ->
  exists l1 l2,
    Np.indices3 n0 n1 n2 = l1 ++ (i, g, k) :: l2
    /\ forall j, In (i, j, k) l2 -> g < j /\ j < n1.
Proof.
  intros Hi Hg Hk.
  set (row := fun (i0 j : nat) => map (fun k0 => (i0, j, k0)) (seq 0 n2)).
  set (plane := fun i0 => flat_map (row i0) (seq 0 n1)).
  assert (E0 : seq 0 n0 = seq 0 i ++ i :: seq (S i) (n0 - S i)).
  { rewrite <- seq_split. f_equal. lia. }
  assert (E1 : seq 0 n1 = seq 0 g ++ g :: seq (S g) (n1 - S g)).
  { rewrite <- seq_split. f_equal. lia. }
  assert (E2 : seq 0 n2 = seq 0 k ++ k :: seq (S k) (n2 - S k)).
  { rewrite <- seq_split. f_equal. lia. }
  exists (flat_map plane (seq 0 i) ++ flat_map (row i) (seq 0 g)
          ++ map (fun k0 => (i, g, k0)) (seq 0 k)).
  exists (map (fun k0 => (i, g, k0)) (seq (S k) (n2 - S k))
          ++ flat_map (row i) (seq (S g) (n1 - S g))
          ++ flat_map plane (seq (S i) (n0 - S i))).
  split.
  - assert (Ep : plane i
                 = flat_map (row i) (seq 0 g)
                   ++ row i g ++ flat_map (row i) (seq (S g) (n1 - S g))).
    { unfold plane. rewrite E1, flat_map_app. reflexivity. }
    assert (Er : row i g
                 = map (fun k0 => (i, g, k0)) (seq 0 k)
                   ++ (i, g, k)
                      :: map (fun k0 => (i, g, k0)) (seq (S k) (n2 - S k))).
    { unfold row. rewrite E2, map_app. reflexivity. }
    change (Np.indices3 n0 n1 n2) with (flat_map plane (seq 0 n0)).
    rewrite E0, flat_map_app.
    change (flat_map plane (i :: seq (S i) (n0 - S i)))
      with (plane i ++ flat_map plane (seq (S i) (n0 - S i))).
    rewrite Ep, Er. rewrite <- !app_assoc. reflexivity.
  - intros j Hin. apply in_app_or in Hin. destruct Hin as [Hin | Hin].
    + apply in_map_iff in Hin. destruct Hin as (k0 & E & Hk0).
      apply in_seq in Hk0. inversion E. lia.
    + apply in_app_or in Hin. destruct Hin as [Hin | Hin].
      * apply in_flat_map in Hin. destruct Hin as (j0 & Hj0 & Hin).
        apply in_map_iff in Hin. destruct Hin as (k0 & E & _).
        apply in_seq in Hj0. inversion E. lia.
      * apply in_flat_map in Hin. destruct Hin as (i0 & Hi0 & Hin).
        apply in_flat_map in Hin. destruct Hin as (j0 & _ & Hin).
        apply in_map_iff in Hin. destruct Hin as (k0 & E & _).
        apply in_seq in Hi0. inversion E. lia.
Qed.

Lemma where3_split (n0 n1 n2 : nat) (c : Np.array3 bool) (i g k : nat) :
  i < n0 -> g < n1 -> k < n2 -> c i g k = true ->
  exists l1 l2,
    Np.where3 n0 n1 n2 c = l1 ++ (i, g, k) :: l2
    /\ forall j, In (i, j, k) l2 -> g < j /\ j < n1 /\ c i j k = true.
Proof.
  intros Hi Hg Hk Hc.
  destruct (indices3_split Hi Hg Hk) as (m1 & m2 & E & Hafter).
  unfold Np.where3. rewrite E, filter_app. cbn [filter]. rewrite Hc.
  eexists. eexists. split; [reflexivity |].
  intros j Hin. apply filter_In in Hin. destruct Hin as [Hin Hcj].
  destruct (Hafter j Hin). auto.
Qed.

Lemma indices3_no_group (n0 n2 : nat) : Np.indices3 n0 0 n2 = [].
Proof.
  destruct (Np.indices3 n0 0 n2) as [| [[i j] k] l] eqn:E; [reflexivity |].
  assert (H : In (i, j, k) (Np.indices3 n0 0 n2))
    by (rewrite E; left; reflexivity).
  apply in_indices3 in H. lia.
Qed.

Lemma fold_left_invariant {A B : Type} (f : A -> B -> A) (P : A -> Prop)
    (l : list B) (a : A) :
  P a -> (forall a x, In x l -> P a -> P (f a x)) -> P (fold_left f l a).
Proof.
  revert a. induction l as [| x l IH]; intros a Ha Hf; [exact Ha |].
  cbn [fold_left]. apply IH.
  - apply Hf; [left; reflexivity | exact Ha].
  - intros a' y Hy. apply Hf. right. exact Hy.
Qed.

Lemma land_lor_sub (a b c d : N) :
  N.land (N.lor (N.lor (N.lor a b) c) d) (N.lor b c) = N.lor b c.
Proof.
  apply N.bits_inj. intros n.
  rewrite !N.land_spec, !N.lor_spec.
  destruct (N.testbit a n), (N.testbit b n), (N.testbit c n),
    (N.testbit d n); reflexivity.
Qed.

Section CDSColumns.

Variable m : RampModel.
Variables n0 n1 n2 n3 : nat.
Hypothesis shape : ramp_shape m = (n0, n1, n2, n3).

Lemma truncate_written (e : cds_custom_step.estimate) (i g r k : nat) :
  let w := cds_custom_step.truncate m e (i, g, k) in
  (cds_custom_step.cds w i r k, cds_custom_step.mask w i r k,
   cds_custom_step.ngroup_used w i r k)
  = Props.written m i g r k.
Proof.
  cbv zeta.
  cbn [cds_custom_step.truncate cds_custom_step.cds cds_custom_step.mask
       cds_custom_step.ngroup_used].
  unfold cds_custom_step.set_column. rewrite !Nat.eqb_refl. reflexivity.
Qed.

(** The loop overwrites: of the transitions listed for a column the last
    one decides. *)
Lemma fold_truncate_last (i k g : nat) (l1 l2 : list (nat * nat * nat))
    (e : cds_custom_step.estimate) :
  (forall j, ~ In (i, j, k) l2) ->
  let e' :=
    fold_left (cds_custom_step.truncate m) (l1 ++ (i, g, k) :: l2) e in
  forall r,
    (cds_custom_step.cds e' i r k, cds_custom_step.mask e' i r k,
     cds_custom_step.ngroup_used e' i r k)
    = Props.written m i g r k.
Proof.
  intros Hnone e' r. subst e'. rewrite fold_left_app. cbn [fold_left].
  pose proof (@fold_truncate_unique m i k g l2
                (cds_custom_step.truncate m
                   (fold_left (cds_custom_step.truncate m) l1 e) (i, g, k)))
    as H.
  cbv zeta in H. rewrite H by (intros j Hj; destruct (Hnone j Hj)).
  destruct (existsb _ l2); apply truncate_written.
Qed.

Lemma transition_listed (i j k : nat) :
  (cds_custom_step.saturation_diff m n2 i j k =? Z.of_N dqflags.SATURATED)%Z
  = Props.transition m i j k.
Proof. apply (saturation_diff_transition m shape). Qed.

(** The estimates of a column whose last transition is at [g]. *)
Lemma estimates_last_transition (i k g : nat) :
  i < n0 -> k < n3 -> S g < n1 ->
  Props.last_transition m i k g = true ->
  forall r,
    (cds_custom_step.cds (cds_custom_step.estimates m) i r k,
     cds_custom_step.mask (cds_custom_step.estimates m) i r k,
     cds_custom_step.ngroup_used (cds_custom_step.estimates m) i r k)
    = Props.written m i g r k.
Proof.
  intros Hi Hk Hg Hlast r.
  unfold Props.last_transition in Hlast. rewrite shape in Hlast.
  apply andb_true_iff in Hlast. destruct Hlast as [Ht Hafter].
  rewrite forallb_forall in Hafter.
  unfold cds_custom_step.estimates, cds_custom_step.transitions.
  rewrite shape.
  destruct (@where3_split n0 (n1 - 1) n3
              (fun i j k =>
                 (cds_custom_step.saturation_diff m n2 i j k
                  =? Z.of_N dqflags.SATURATED)%Z) i g k)
    as (l1 & l2 & E & Hl2); try lia.
  { rewrite transition_listed. exact Ht. }
  rewrite E. apply fold_truncate_last.
  intros j Hj. destruct (Hl2 j Hj) as (Hgj & Hj1 & Hc).
  rewrite transition_listed in Hc.
  assert (Hn : negb (Props.transition m i j k) = true)
    by (apply Hafter; apply in_seq; lia).
  rewrite Hc in Hn. discriminate.
Qed.

(** The estimates of a column without transition are the defaults. *)
Lemma estimates_no_transition (i k : nat) :
  Props.no_transition m i k = true ->
  forall r,
    (cds_custom_step.cds (cds_custom_step.estimates m) i r k,
     cds_custom_step.mask (cds_custom_step.estimates m) i r k,
     cds_custom_step.ngroup_used (cds_custom_step.estimates m) i r k)
    = (cds_custom_step.cds (cds_custom_step.defaults m n1) i r k,
       cds_custom_step.mask (cds_custom_step.defaults m n1) i r k,
       cds_custom_step.ngroup_used (cds_custom_step.defaults m n1) i r k).
Proof.
  intros Hnone r.
  unfold Props.no_transition in Hnone. rewrite shape in Hnone.
  rewrite forallb_forall in Hnone.
  assert (Hno : forall j, ~ In (i, j, k) (cds_custom_step.transitions m)).
  { intros j Hj. apply (in_transitions m shape) in Hj.
    destruct Hj as ((_ & Hj & _) & Hc & Hs).
    assert (Hn : negb (Props.transition m i j k) = true)
      by (apply Hnone; apply in_seq; lia).
    unfold Props.transition in Hn. rewrite Hc, Hs in Hn. discriminate. }
  unfold cds_custom_step.estimates. rewrite shape.
  pose proof (@fold_truncate_unique m i k 0 (cds_custom_step.transitions m)
                (cds_custom_step.defaults m n1)) as H.
  cbv zeta in H. rewrite H by (intros j Hj; destruct (Hno j Hj)).
  destruct (existsb _ (cds_custom_step.transitions m)) eqn:Hex;
    [| reflexivity].
  apply existsb_exists in Hex. destruct Hex as ([[i' j'] k'] & Hin & Hm).
  apply andb_true_iff in Hm. destruct Hm as [Ei Ek].
  apply Nat.eqb_eq in Ei, Ek. subst. destruct (Hno j' Hin).
Qed.

(** Every word of the mask the loop ends with is built from the flag words
    of one group of the ramp at that pixel. *)
Lemma estimates_mask_origin (i r k : nat) :
  0 < n1 ->
  exists j d,
    j < n1 /\ (d = 0%N \/ d = dqflags.DO_NOT_USE)
    /\ cds_custom_step.mask (cds_custom_step.estimates m) i r k
       = N.lor (N.lor (N.lor (groupdq m i j r k) (groupdq m i 0 r k))
                      (pixeldq m r k)) d.
Proof.
  intros Hn1. unfold cds_custom_step.estimates. rewrite shape.
  revert i r k.
  apply (@fold_left_invariant _ _ (cds_custom_step.truncate m)
           (fun e => forall i r k, exists j d,
              j < n1 /\ (d = 0%N \/ d = dqflags.DO_NOT_USE)
              /\ cds_custom_step.mask e i r k
                 = N.lor (N.lor (N.lor (groupdq m i j r k)
                                       (groupdq m i 0 r k))
                                (pixeldq m r k)) d)).
  - intros i r k. exists (n1 - 1), 0%N.
    split; [lia |]. split; [left; reflexivity |].
    cbn [cds_custom_step.defaults cds_custom_step.mask].
    rewrite N.lor_0_r. reflexivity.
  - intros e [[i' j'] k'] Hin IH i r k.
    apply (in_transitions m shape) in Hin.
    destruct Hin as ((_ & Hj' & _) & _).
    cbn [cds_custom_step.truncate cds_custom_step.mask].
    unfold cds_custom_step.set_column.
    destruct ((i =? i') && (k =? k')) eqn:E; [| apply IH].
    apply andb_true_iff in E. destruct E as [Ei Ek].
    apply Nat.eqb_eq in Ei, Ek. subst i' k'.
    exists j', (if j' =? 0 then dqflags.DO_NOT_USE else 0%N).
    split; [lia |]. split; [destruct (j' =? 0); auto |]. reflexivity.
Qed.

End CDSColumns.


(** X6.  With several saturation transitions in a column (a flag that is
    set, cleared and set again) the last one decides: for the last
    transition index [g] the column gets the rate
    [(data[g] - data[0]) / g] times the gain and the group count [g]
    ([/ 1], NaN and DO_NOT_USE for [g = 0]), and its mask word is
    [groupdq[g] | groupdq[0] | pixeldq]. *)
Theorem cds_last_transition_decides
    (ref : ReferenceFiles) (m : RampModel) (n0 n1 n2 n3 i k g : nat) :
  ramp_shape m = (n0, n1, n2, n3) ->
  i < n0 -> k < n3 -> 0 < n2 -> S g < n1 ->
  Props.last_transition m i k g = true ->
  exists out ng,
    cds_custom_step.process ref m = Py.ok out /\ ngroup out = Some ng
    /\ forall r,
         let norm := if g =? 0 then 1 else g in
         MA.val (data out i r k)
         = (gain_2d ref r k
            * ((ramp_data m i g r k - ramp_data m i 0%nat r k)
               / Py.float_of_nat norm))%float
         /\ ng i r k = (if g =? 0 then nan else Py.float_of_nat g)
         /\ dq out i r k
            = N.lor (N.lor (N.lor (groupdq m i g r k) (groupdq m i 0 r k))
                           (pixeldq m r k))
                    (if g =? 0 then dqflags.DO_NOT_USE else 0%N).
Proof.
  intros Hs Hi Hk Hn2 Hg Hlast.
  unfold cds_custom_step.process, cds_custom_step.get_gain_ron_2d.
  rewrite Hs.
  destruct (Nat.eqb_spec n1 0) as [E | _]; [lia |].
  destruct (Nat.eqb_spec n2 0) as [E | _]; [lia |]. cbn [orb].
  eexists. eexists. split; [reflexivity |]. split; [reflexivity |].
  intros r. cbn [data dq MA.array MA.plain MA.val].
  pose proof (estimates_last_transition m Hs Hi Hk Hg Hlast r) as H.
  unfold Props.written in H. injection H as Hc Hm Hn.
  rewrite Hc, Hm, Hn. repeat split; reflexivity.
Qed.

Lemma cds_last_transition_decides_witness :
  exists out ng,
    cds_custom_step.process Examples.reference Examples.flicker = Py.ok out
    /\ ngroup out = Some ng
    /\ forall r,
         let norm := if 3 =? 0 then 1 else 3 in
         MA.val (data out 0 r 0)
         = (gain_2d Examples.reference r 0%nat
            * ((ramp_data Examples.flicker 0%nat 3%nat r 0%nat
                - ramp_data Examples.flicker 0%nat 0%nat r 0%nat)
               / Py.float_of_nat norm))%float
         /\ ng 0 r 0 = (if 3 =? 0 then nan else Py.float_of_nat 3)
         /\ dq out 0 r 0
            = N.lor (N.lor (N.lor (groupdq Examples.flicker 0 3 r 0)
                                  (groupdq Examples.flicker 0 0 r 0))
                           (pixeldq Examples.flicker r 0))
                    (if 3 =? 0 then dqflags.DO_NOT_USE else 0%N).
Proof.
  apply (@cds_last_transition_decides Examples.reference Examples.flicker
           1 5 1 1 0 0 3).
  - reflexivity.
  - lia.
  - lia.
  - lia.
  - lia.
  - reflexivity.
Defined.

(** X7.  A column in which no group goes from clean to saturated keeps the
    defaults, whatever the other columns do, and also when it is saturated
    from the first group on: rate [gain * (last - first) / (num_groups - 1)],
    group count [num_groups - 1], mask word
    [groupdq[last] | groupdq[0] | pixeldq]. *)
Theorem cds_column_without_transition
    (ref : ReferenceFiles) (m : RampModel) (n0 n1 n2 n3 i k : nat) :
  ramp_shape m = (n0, n1, n2, n3) ->
  0 < n1 -> 0 < n2 ->
  Props.no_transition m i k = true ->
  exists out ng,
    cds_custom_step.process ref m = Py.ok out /\ ngroup out = Some ng
    /\ forall r,
         MA.val (data out i r k)
         = (gain_2d ref r k
            * ((ramp_data m i (n1 - 1)%nat r k - ramp_data m i 0%nat r k)
               / Py.float_of_nat (n1 - 1)%nat))%float
         /\ ng i r k = Py.float_of_nat (n1 - 1)
         /\ dq out i r k
            = N.lor (N.lor (groupdq m i (n1 - 1) r k) (groupdq m i 0 r k))
                    (pixeldq m r k).
Proof.
  intros Hs Hn1 Hn2 Hnone.
  unfold cds_custom_step.process, cds_custom_step.get_gain_ron_2d.
  rewrite Hs.
  destruct (Nat.eqb_spec n1 0) as [E | _]; [lia |].
  destruct (Nat.eqb_spec n2 0) as [E | _]; [lia |]. cbn [orb].
  eexists. eexists. split; [reflexivity |]. split; [reflexivity |].
  intros r. cbn [data dq MA.array MA.plain MA.val].
  pose proof (estimates_no_transition m Hs i k Hnone r) as H.
  cbn [cds_custom_step.defaults cds_custom_step.cds cds_custom_step.mask
       cds_custom_step.ngroup_used] in H.
  injection H as Hc Hm Hn. rewrite Hc, Hm, Hn.
  rewrite float_add_0_of_nat. repeat split; reflexivity.
Qed.

Lemma cds_column_without_transition_witness :
  exists out ng,
    cds_custom_step.process Examples.reference Examples.ramp = Py.ok out
    /\ ngroup out = Some ng
    /\ forall r,
         MA.val (data out 0 r 1)
         = (gain_2d Examples.reference r 1%nat
            * ((ramp_data Examples.ramp 0%nat (5 - 1)%nat r 1%nat
                - ramp_data Examples.ramp 0%nat 0%nat r 1%nat)
               / Py.float_of_nat (5 - 1)%nat))%float
         /\ ng 0 r 1 = Py.float_of_nat (5 - 1)
         /\ dq out 0 r 1
            = N.lor (N.lor (groupdq Examples.ramp 0 (5 - 1) r 1)
                           (groupdq Examples.ramp 0 0 r 1))
                    (pixeldq Examples.ramp r 1).
Proof.
  apply (@cds_column_without_transition Examples.reference Examples.ramp
           1 5 1 3 0 1).
  - reflexivity.
  - lia.
  - lia.
  - reflexivity.
Defined.

(** X8.  Every mask word of the rate cube is made of flag words of the ramp
    at that pixel: [groupdq[j] | groupdq[0] | pixeldq] for one group [j],
    with DO_NOT_USE possibly added; the flags of the first group and the
    pixel-level flags are therefore never lost. *)
Theorem cds_dq_origin
    (ref : ReferenceFiles) (m : RampModel) (n0 n1 n2 n3 : nat)
    (out : CubeModel) (i r k : nat) :
  ramp_shape m = (n0, n1, n2, n3) ->
  cds_custom_step.process ref m = Py.ok out ->
  (exists j d,
     j < n1 /\ (d = 0%N \/ d = dqflags.DO_NOT_USE)
     /\ dq out i r k
        = N.lor (N.lor (N.lor (groupdq m i j r k) (groupdq m i 0 r k))
                       (pixeldq m r k)) d)
  /\ N.land (dq out i r k) (N.lor (groupdq m i 0 r k) (pixeldq m r k))
     = N.lor (groupdq m i 0 r k) (pixeldq m r k).
Proof.
  intros Hs.
  unfold cds_custom_step.process, cds_custom_step.get_gain_ron_2d.
  rewrite Hs.
  destruct (Nat.eqb_spec n1 0) as [E | Hn1]; [discriminate |].
  destruct (n2 =? 0); [discriminate |]. cbn [orb].
  intros [= <-]. cbn [dq].
  destruct (@estimates_mask_origin m n0 n1 n2 n3 Hs i r k) as (j & d & H);
    [lia |].
  destruct H as (Hj & Hd & E).
  split; [exists j, d; auto |].
  rewrite E. apply land_lor_sub.
Qed.

Lemma cds_dq_origin_witness :
  (exists j d,
     j < 5 /\ (d = 0%N \/ d = dqflags.DO_NOT_USE)
     /\ dq Examples.rate_cube 0 0 2
        = N.lor (N.lor (N.lor (groupdq Examples.ramp 0 j 0 2)
                              (groupdq Examples.ramp 0 0 0 2))
                       (pixeldq Examples.ramp 0 2)) d)
  /\ N.land (dq Examples.rate_cube 0 0 2)
            (N.lor (groupdq Examples.ramp 0 0 0 2)
                   (pixeldq Examples.ramp 0 2))
     = N.lor (groupdq Examples.ramp 0 0 0 2) (pixeldq Examples.ramp 0 2).
Proof.
  apply (@cds_dq_origin Examples.reference Examples.ramp 1 5 1 3
           Examples.rate_cube 0 0 2 eq_refl eq_refl).
Defined.

(** X9.  The arrays of the rate cube agree with each other: the signal and
    var_rnoise are masked exactly where the mask word is nonzero;
    var_poisson and err are masked at least there; ngroup is the count both
    variances are computed with, var_rnoise being
    [2 (readnoise * gain)^2 / ngroup^2] and var_poisson, where it is not
    masked, [signal / ngroup]. *)
Theorem cds_output_arrays
    (ref : ReferenceFiles) (m : RampModel) (out : CubeModel) :
  cds_custom_step.process ref m = Py.ok out ->
  exists ng,
    ngroup out = Some ng
    /\ forall i r k,
         let flagged := (0 <? dq out i r k)%N in
         let ron := (readnoise_2d ref r k * gain_2d ref r k)%float in
         MA.msk (data out i r k) = flagged
         /\ MA.msk (var_rnoise out i r k) = flagged
         /\ (flagged = true ->
             MA.msk (var_poisson out i r k) = true
             /\ MA.msk (err out i r k) = true)
         /\ MA.val (var_rnoise out i r k)
            = (2 * (ron * ron) / (ng i r k * ng i r k))%float
         /\ (MA.msk (var_poisson out i r k) = false ->
             MA.val (var_poisson out i r k)
             = (MA.val (data out i r k) / ng i r k)%float).
Proof.
  unfold cds_custom_step.process, cds_custom_step.get_gain_ron_2d.
  destruct (ramp_shape m) as [[[n0 n1] n2] n3].
  destruct ((n1 =? 0) || (n2 =? 0)); [discriminate |].
  intros [= <-]. eexists. split; [reflexivity |].
  intros i r k.
  cbn [data dq var_poisson var_rnoise err].
  unfold MA.sqrt, MA.add, MA.binop, MA.true_divide, MA.array, MA.plain.
  cbn [MA.val MA.msk orb].
  split; [reflexivity |]. split; [reflexivity |]. split.
  - intros ->. rewrite !orb_true_r. split; reflexivity.
  - split; [reflexivity |]. intros ->. reflexivity.
Qed.

Lemma cds_output_arrays_witness :
  exists ng,
    ngroup Examples.rate_cube = Some ng
    /\ forall i r k,
         let flagged := (0 <? dq Examples.rate_cube i r k)%N in
         let ron := (readnoise_2d Examples.reference r k
                     * gain_2d Examples.reference r k)%float in
         MA.msk (data Examples.rate_cube i r k) = flagged
         /\ MA.msk (var_rnoise Examples.rate_cube i r k) = flagged
         /\ (flagged = true ->
             MA.msk (var_poisson Examples.rate_cube i r k) = true
             /\ MA.msk (err Examples.rate_cube i r k) = true)
         /\ MA.val (var_rnoise Examples.rate_cube i r k)
            = (2 * (ron * ron) / (ng i r k * ng i r k))%float
         /\ (MA.msk (var_poisson Examples.rate_cube i r k) = false ->
             MA.val (var_poisson Examples.rate_cube i r k)
             = (MA.val (data Examples.rate_cube i r k) / ng i r k)%float).
Proof.
  apply (@cds_output_arrays Examples.reference Examples.ramp
           Examples.rate_cube eq_refl).
Defined.

(** X10.  A ramp with a single group: the step returns, and every rate is
    NaN, whatever the data and the gain (the default difference
    [data[-1] - data[0]] is over [n1 - 1 = 0] groups); the group count is 0;
    the NaN is masked only where the flag words of the pixel are nonzero,
    while var_poisson and err are masked everywhere. *)
Theorem cds_single_group
    (ref : ReferenceFiles) (m : RampModel) (n0 n2 n3 : nat) :
  ramp_shape m = (n0, 1, n2, n3) -> 0 < n2 ->
  exists out ng,
    cds_custom_step.process ref m = Py.ok out /\ ngroup out = Some ng
    /\ forall i r k,
         MA.val (data out i r k) = nan
         /\ MA.msk (data out i r k)
            = (0 <? N.lor (N.lor (groupdq m i 0%nat r k)
                                 (groupdq m i 0%nat r k))
                          (pixeldq m r k))%N
         /\ ng i r k = 0%float
         /\ MA.msk (var_poisson out i r k) = true
         /\ MA.msk (err out i r k) = true.
Proof.
  intros Hs Hn2.
  unfold cds_custom_step.process, cds_custom_step.get_gain_ron_2d.
  rewrite Hs.
  destruct (Nat.eqb_spec n2 0) as [E | _]; [lia |].
  change ((1 =? 0) || false) with false. cbv iota.
  eexists. eexists. split; [reflexivity |]. split; [reflexivity |].
  intros i r k.
  unfold cds_custom_step.estimates, cds_custom_step.transitions.
  rewrite Hs. unfold Np.where3.
  change (1 - 1) with 0. rewrite indices3_no_group.
  cbn [filter fold_left data var_poisson err cds_custom_step.defaults
       cds_custom_step.cds cds_custom_step.mask cds_custom_step.ngroup_used].
  change (1 - 1) with 0.
  change (Py.float_of_nat 0) with 0%float.
  unfold MA.sqrt, MA.add, MA.binop, MA.true_divide, MA.array, MA.plain.
  cbn [MA.val MA.msk orb].
  rewrite float_sub_self_div_0, float_mul_nan_r.
  change (is_finite (nan / (0 + 0))) with false.
  cbn [negb orb]. rewrite !orb_true_r.
  repeat split.
Qed.

Lemma cds_single_group_witness :
  exists out ng,
    cds_custom_step.process Examples.reference Examples.one_group = Py.ok out
    /\ ngroup out = Some ng
    /\ forall i r k,
         MA.val (data out i r k) = nan
         /\ MA.msk (data out i r k)
            = (0 <? N.lor (N.lor (groupdq Examples.one_group i 0%nat r k)
                                 (groupdq Examples.one_group i 0%nat r k))
                          (pixeldq Examples.one_group r k))%N
         /\ ng i r k = 0%float
         /\ MA.msk (var_poisson out i r k) = true
         /\ MA.msk (err out i r k) = true.
Proof.
  apply (@cds_single_group Examples.reference Examples.one_group 1 1 2).
  - reflexivity.
  - lia.
Defined.


(* ================================================================== *)
(** ** ReferenceCorrectionCustomStep on any cube                       *)
(* ================================================================== *)

(** Whatever the number of rows, the reference band is the [min 6 n1] top
    rows followed by the [min 6 n1] bottom rows; with fewer than 12 rows the
    two overlap. *)
Lemma reference_rows_any (n1 : nat) :
  refcorr_custom_step.reference_rows n1
  = seq 0 (Nat.min 6 n1) ++ seq (n1 - Nat.min 6 n1) (Nat.min 6 n1).
Proof.
  destruct (le_lt_dec 6 n1) as [H | H].
  - rewrite reference_rows_12, Nat.min_l by exact H. reflexivity.
  - rewrite Nat.min_r by lia.
    unfold refcorr_custom_step.reference_rows, Py.slice_bound.
    change (0 <? 0)%Z with false. change (6 <? 0)%Z with false.
    change (-6 <? 0)%Z with true. cbv iota.
    destruct (Z.ltb_spec (-6 + Z.of_nat n1) 0); [| lia].
    destruct (Z.leb_spec (Z.of_nat n1) 6); [| lia].
    replace (if (Z.of_nat n1 <=? 0)%Z then n1 else Z.to_nat 0) with 0
      by (destruct (Z.leb_spec (Z.of_nat n1) 0); lia).
    rewrite Nat.sub_diag, !Nat.sub_0_r. reflexivity.
Qed.

Lemma reference_rows_length (n1 : nat) :
  length (refcorr_custom_step.reference_rows n1) = 2 * Nat.min 6 n1.
Proof. rewrite reference_rows_any, length_app, !length_seq. lia. Qed.

Lemma in_reference_rows (n1 r : nat) :
  In r (refcorr_custom_step.reference_rows n1)
  <-> r < n1 /\ (r < 6 \/ n1 - 6 <= r).
Proof.
  rewrite reference_rows_any, in_app_iff, !in_seq. lia.
Qed.

Lemma median_all_masked (l : list MA.mval) :
  forallb MA.msk l = true ->
  MA.median l = {| MA.val := 0%float; MA.msk := true |}.
Proof.
  intros H. unfold MA.median.
  rewrite (@filter_none _ (fun a => negb (MA.msk a)) l); [reflexivity |].
  intros x Hx. rewrite forallb_forall in H. rewrite (H x Hx). reflexivity.
Qed.

(** The unmasked samples of a list whose unmasked entries all hold
    [off]. *)
Lemma unmasked_constant (off : float) (l : list MA.mval) :
  (forall a, In a l -> MA.msk a = false -> MA.val a = off) ->
  map MA.val (filter (fun a => negb (MA.msk a)) l) = repeat off (MA.count l).
Proof.
  unfold MA.count.
  induction l as [| a l IH]; intros H; [reflexivity |].
  cbn [filter]. destruct (MA.msk a) eqn:E; cbn [negb].
  - apply IH. intros b Hb. apply H. right. exact Hb.
  - cbn [map length repeat]. rewrite (H a (or_introl eq_refl) E).
    f_equal. apply IH. intros b Hb. apply H. right. exact Hb.
Qed.

(** The masked median skips the masked samples: when the unmasked ones all
    hold [off] and there is at least one, it is [(off + off) / 2]. *)
Lemma median_unmasked_constant (off : float) (l : list MA.mval) :
  (forall a, In a l -> MA.msk a = false -> MA.val a = off) ->
  0 < MA.count l ->
  MA.median l = MA.plain ((off + off) / 2)%float.
Proof.
  intros Hoff Hn. unfold MA.median.
  rewrite (@unmasked_constant off l Hoff), sort_repeat, repeat_length.
  set (n := MA.count l) in *.
  destruct (Nat.eqb_spec n 0) as [E | _]; [lia |].
  assert (Hh : n / 2 < n) by (apply Nat.div_lt; lia).
  rewrite !nth_repeat_lt by (destruct (Nat.odd n); lia).
  destruct (is_nan off) eqn:E; [| reflexivity].
  rewrite (is_nan_eq off E). reflexivity.
Qed.

(** What the step returns on a cube with integrations, rows and columns. *)
Lemma refcorr_returns (c : CubeModel) (n0 n1 n2 : nat) :
  cube_shape c = (n0, n1, n2) -> 0 < n0 -> 0 < n1 -> 0 < n2 ->
  refcorr_custom_step.process c
  = Py.ok
      {| cube_shape := cube_shape c;
         data := fun k r col =>
           MA.subtract (data c k r col)
             (MA.median (refcorr_custom_step.background_samples c n1 k col));
         dq := dq c;
         var_poisson := var_poisson c;
         var_rnoise := fun k r col =>
           MA.imul_scalar (var_rnoise c k r col)
             (1 + 1 / Py.float_of_nat (2 * Nat.min 6 n1))%float;
         err := err c;
         ngroup := ngroup c;
         background :=
           Some (fun k col =>
                   MA.median
                     (refcorr_custom_step.background_samples c n1 k col)) |}.
Proof.
  intros Hs H0 H1 H2. unfold refcorr_custom_step.process. rewrite Hs.
  destruct (Nat.eqb_spec (n0 * n2) 0) as [E | _]; [nia |].
  rewrite reference_rows_length.
  destruct (Nat.eqb_spec (2 * Nat.min 6 n1) 0) as [E | _]; [lia |].
  reflexivity.
Qed.

(** X11.  A column whose reference pixels are all masked in an integration
    has no background: the median is masked, and the step leaves every
    pixel of that column of that integration masked, with its stored value
    as it was. *)
Theorem refcorr_reference_all_masked
    (c : CubeModel) (n0 n1 n2 k col : nat) :
  cube_shape c = (n0, n1, n2) -> 0 < n0 -> 0 < n1 -> 0 < n2 ->
  (forall r, r < n1 -> r < 6 \/ n1 - 6 <= r ->
     MA.msk (data c k r col) = true) ->
  exists out bg,
    refcorr_custom_step.process c = Py.ok out
    /\ background out = Some bg
    /\ MA.msk (bg k col) = true
    /\ forall r,
         data out k r col
         = {| MA.val := MA.val (data c k r col); MA.msk := true |}.
Proof.
  intros Hs H0 H1 H2 Hall.
  rewrite (refcorr_returns c Hs H0 H1 H2).
  eexists. eexists. split; [reflexivity |]. split; [reflexivity |].
  assert (Hmed : MA.median (refcorr_custom_step.background_samples c n1 k col)
                 = {| MA.val := 0%float; MA.msk := true |}).
  { apply median_all_masked. apply forallb_forall. intros a Ha.
    unfold refcorr_custom_step.background_samples in Ha.
    apply in_map_iff in Ha. destruct Ha as (r & <- & Hr).
    apply in_reference_rows in Hr. apply Hall; tauto. }
  cbn [data]. rewrite Hmed. split; [reflexivity |].
  intros r. unfold MA.subtract, MA.binop. cbn [MA.msk MA.val].
  rewrite orb_true_r. reflexivity.
Qed.

Lemma refcorr_reference_all_masked_witness :
  exists out bg,
    refcorr_custom_step.process Examples.shadowed_cube = Py.ok out
    /\ background out = Some bg
    /\ MA.msk (bg 0 0) = true
    /\ forall r,
         data out 0 r 0
         = {| MA.val := MA.val (data Examples.shadowed_cube 0 r 0);
              MA.msk := true |}.
Proof.
  apply (@refcorr_reference_all_masked Examples.shadowed_cube 1 3 2 0 0);
    try reflexivity; try lia.
Defined.

(** X12.  Masked reference pixels do not enter the background: when the
    unmasked reference samples of a column all hold [off] and there is at
    least one of them, the background is [(off + off) / 2] and it is
    subtracted from every unmasked pixel of the column. *)
Theorem refcorr_masked_reference_ignored
    (c : CubeModel) (n0 n1 n2 k col r0 : nat) (off : float) :
  cube_shape c = (n0, n1, n2) -> 0 < n0 -> 0 < n2 ->
  r0 < n1 -> r0 < 6 \/ n1 - 6 <= r0 ->
  MA.msk (data c k r0 col) = false ->
  (forall r, r < n1 -> r < 6 \/ n1 - 6 <= r ->
     MA.msk (data c k r col) = false -> MA.val (data c k r col) = off) ->
  exists out bg,
    refcorr_custom_step.process c = Py.ok out
    /\ background out = Some bg
    /\ bg k col = MA.plain ((off + off) / 2)%float
    /\ forall r, MA.msk (data c k r col) = false ->
         data out k r col
         = MA.plain (MA.val (data c k r col) - (off + off) / 2)%float.
Proof.
  intros Hs H0 H2 Hr0 Href Hun Hoff.
  rewrite (@refcorr_returns c n0 n1 n2 Hs H0 ltac:(lia) H2).
  eexists. eexists. split; [reflexivity |]. split; [reflexivity |].
  assert (Hmed : MA.median (refcorr_custom_step.background_samples c n1 k col)
                 = MA.plain ((off + off) / 2)%float).
  { apply median_unmasked_constant.
    - intros a Ha Hm.
      unfold refcorr_custom_step.background_samples in Ha.
      apply in_map_iff in Ha. destruct Ha as (r & <- & Hr).
      apply in_reference_rows in Hr. apply Hoff; tauto.
    - unfold MA.count.
      assert (Hin : In (data c k r0 col)
                      (filter (fun a => negb (MA.msk a))
                         (refcorr_custom_step.background_samples c n1 k col))).
      { apply filter_In. split.
        - unfold refcorr_custom_step.background_samples.
          apply in_map_iff. exists r0. split; [reflexivity |].
          apply in_reference_rows. tauto.
        - rewrite Hun. reflexivity. }
      destruct (filter _ _); [destruct Hin | cbn [length]; lia]. }
  cbn [data]. rewrite Hmed. split; [reflexivity |].
  intros r Hm. unfold MA.subtract, MA.binop, MA.plain. cbn [MA.msk MA.val].
  rewrite Hm. reflexivity.
Qed.

Lemma refcorr_masked_reference_ignored_witness :
  exists out bg,
    refcorr_custom_step.process Examples.shadowed_cube = Py.ok out
    /\ background out = Some bg
    /\ bg 0 1 = MA.plain ((5 + 5) / 2)%float
    /\ forall r, MA.msk (data Examples.shadowed_cube 0 r 1) = false ->
         data out 0 r 1
         = MA.plain (MA.val (data Examples.shadowed_cube 0%nat r 1%nat)
                     - (5 + 5) / 2)%float.
Proof.
  apply (@refcorr_masked_reference_ignored Examples.shadowed_cube
           1 3 2 0 1 0 5%float); try reflexivity; try lia.
  intros r Hr _. cbn [Examples.shadowed_cube data MA.msk MA.val].
  destruct r as [| [| r]]; cbn; try discriminate; reflexivity.
Defined.

(** X13.  On any cube with integrations, rows and columns the step returns;
    the reference band has [2 * min(6, n1)] samples (with fewer than 6 rows
    every row is taken twice), so every unmasked var_rnoise entry is
    multiplied by [1 + 1 / (2 * min(6, n1))] and every masked one by 1; the
    mask of a pixel is its input mask or-ed with that of its column's
    background; the shape, dq, var_poisson, err and ngroup are those of the
    input. *)
Theorem refcorr_noise_factor (c : CubeModel) (n0 n1 n2 : nat) :
  cube_shape c = (n0, n1, n2) -> 0 < n0 -> 0 < n1 -> 0 < n2 ->
  exists out bg,
    refcorr_custom_step.process c = Py.ok out
    /\ background out = Some bg
    /\ cube_shape out = (n0, n1, n2)
    /\ dq out = dq c /\ var_poisson out = var_poisson c
    /\ err out = err c /\ ngroup out = ngroup c
    /\ forall k r col,
         let v := var_rnoise c k r col in
         let factor := (1 + 1 / Py.float_of_nat (2 * Nat.min 6 n1))%float in
         var_rnoise out k r col
         = {| MA.val := (MA.val v * (if MA.msk v then 1 else factor))%float;
              MA.msk := MA.msk v |}
         /\ MA.msk (data out k r col)
            = MA.msk (data c k r col) || MA.msk (bg k col).
Proof.
  intros Hs H0 H1 H2.
  rewrite (refcorr_returns c Hs H0 H1 H2).
  eexists. eexists. split; [reflexivity |]. split; [reflexivity |].
  cbn [cube_shape dq var_poisson err ngroup var_rnoise data].
  repeat split; try reflexivity. exact Hs.
Qed.

Lemma refcorr_noise_factor_witness :
  exists out bg,
    refcorr_custom_step.process Examples.shadowed_cube = Py.ok out
    /\ background out = Some bg
    /\ cube_shape out = (1, 3, 2)
    /\ dq out = dq Examples.shadowed_cube
    /\ var_poisson out = var_poisson Examples.shadowed_cube
    /\ err out = err Examples.shadowed_cube
    /\ ngroup out = ngroup Examples.shadowed_cube
    /\ forall k r col,
         let v := var_rnoise Examples.shadowed_cube k r col in
         let factor := (1 + 1 / Py.float_of_nat (2 * Nat.min 6 3))%float in
         var_rnoise out k r col
         = {| MA.val := (MA.val v * (if MA.msk v then 1 else factor))%float;
              MA.msk := MA.msk v |}
         /\ MA.msk (data out k r col)
            = MA.msk (data Examples.shadowed_cube k r col)
              || MA.msk (bg k col).
Proof.
  apply (@refcorr_noise_factor Examples.shadowed_cube 1 3 2);
    try reflexivity; lia.
Defined.


(* ================================================================== *)
(** ** FlaggingCustomStep and the samples of the time average          *)
(* ================================================================== *)

Lemma lor_outlier_pos (a : N) :
  (0 <? N.lor a (N.lor dqflags.JUMP_DET dqflags.DO_NOT_USE))%N = true.
Proof. destruct a as [| p]; [reflexivity |]. destruct p; reflexivity. Qed.

Lemma pos_not_zero (a : N) : (0 <? a)%N = negb (a =? 0)%N.
Proof. destruct a; reflexivity. Qed.

(** X14.  After the flagger a mask word is nonzero exactly where the input
    word was nonzero or the pixel was clipped, whatever the clipping
    returns; the sample the time average builds from the output
    ([np.ma.array(data, mask = dq > 0)]) is masked exactly there, so no
    flagged or clipped sample enters a bin mean. *)
Theorem flagging_marks_clipped
    (sigma_clip : nat * nat * nat -> Np.array3 MA.mval -> Np.array3 MA.mval)
    (c : CubeModel) (i r col : nat) :
  let out := flagging_custom_step.process sigma_clip c in
  let clipped := MA.msk (sigma_clip (cube_shape c) (data c) i r col) in
  (0 <? dq out i r col)%N = (0 <? dq c i r col)%N || clipped
  /\ MA.msk (MA.array (data out i r col) (0 <? dq out i r col)%N)
     = (0 <? dq c i r col)%N || clipped.
Proof.
  cbv zeta.
  unfold flagging_custom_step.process, flagging_custom_step.new_outliers,
    MA.getmask, MA.array.
  cbn [dq data MA.msk].
  destruct (0 <? dq c i r col)%N eqn:Hd;
    destruct (MA.msk (sigma_clip (cube_shape c) (data c) i r col));
    cbn [xorb orb]; rewrite ?lor_outlier_pos, ?Hd; split; reflexivity.
Qed.

(** With a clipping that keeps its input's mask, on a cube whose flagged
    pixels are masked, the xor of the step selects the clipped pixels whose
    word is zero. *)
Lemma new_outliers_clean
    (sigma_clip : nat * nat * nat -> Np.array3 MA.mval -> Np.array3 MA.mval)
    (c : CubeModel) :
  Props.keeps_mask sigma_clip ->
  (forall i r col, (0 <? dq c i r col)%N = true ->
     MA.msk (data c i r col) = true) ->
  forall i r col,
    flagging_custom_step.new_outliers sigma_clip c i r col
    = (dq c i r col =? 0)%N
      && MA.msk (sigma_clip (cube_shape c) (data c) i r col).
Proof.
  intros Hkeep Hmask i r col.
  unfold flagging_custom_step.new_outliers, MA.getmask.
  specialize (Hmask i r col). rewrite pos_not_zero in *.
  destruct (dq c i r col =? 0)%N; cbn [negb andb xorb] in *.
  - reflexivity.
  - rewrite (Hkeep _ _ _ _ _ (Hmask eq_refl)). reflexivity.
Qed.

(** X15.  When the clipping keeps the mask of its input and every pixel
    with a nonzero mask word is masked in the signal (as in the cubes the
    rate estimator and the background corrector return), the flagger
    changes only clean pixels: a word that is nonzero stays as it is, and a
    zero word becomes JUMP_DET | DO_NOT_USE exactly when the pixel is
    clipped. *)
Theorem flagging_clipped_clean_pixels
    (sigma_clip : nat * nat * nat -> Np.array3 MA.mval -> Np.array3 MA.mval)
    (c : CubeModel) :
  Props.keeps_mask sigma_clip ->
  (forall i r col, (0 <? dq c i r col)%N = true ->
     MA.msk (data c i r col) = true) ->
  forall i r col,
    dq (flagging_custom_step.process sigma_clip c) i r col
    = if (dq c i r col =? 0)%N
         && MA.msk (sigma_clip (cube_shape c) (data c) i r col)
      then N.lor dqflags.JUMP_DET dqflags.DO_NOT_USE
      else dq c i r col.
Proof.
  intros Hkeep Hmask i r col.
  unfold flagging_custom_step.process. cbn [dq].
  rewrite (@new_outliers_clean sigma_clip c Hkeep Hmask i r col).
  destruct (N.eqb_spec (dq c i r col) 0) as [E | _]; cbn [andb];
    [| reflexivity].
  rewrite E.
  destruct (MA.msk (sigma_clip (cube_shape c) (data c) i r col));
    reflexivity.
Qed.

Lemma flagging_clipped_clean_pixels_witness :
  dq (flagging_custom_step.process Examples.clip_first
        Examples.masked_offset_cube) 0 0 0
  = if N.eqb (dq Examples.masked_offset_cube 0 0 0) 0%N
       && MA.msk (Examples.clip_first
                    (cube_shape Examples.masked_offset_cube)
                    (data Examples.masked_offset_cube) 0 0 0)
    then N.lor dqflags.JUMP_DET dqflags.DO_NOT_USE
    else dq Examples.masked_offset_cube 0 0 0.
Proof.
  apply (@flagging_clipped_clean_pixels Examples.clip_first
           Examples.masked_offset_cube).
  - intros s a i r c H. unfold Examples.clip_first, MA.array.
    cbn [MA.msk]. rewrite H. reflexivity.
  - intros i r col. cbn [Examples.masked_offset_cube dq data].
    destruct (Nat.eqb r 6); [reflexivity | discriminate].
Defined.


(* ================================================================== *)
(** ** TimeAverageStep on any cube                                     *)
(* ================================================================== *)

Lemma bin_samples_seq {A : Type} (B : nat) (a : Np.array3 A) (b r c : nat) :
  timeaverage_custom_step.bin_samples B a b r c
  = map (fun t => a t r c) (seq (b * B) B).
Proof.
  unfold timeaverage_custom_step.bin_samples.
  generalize (b * B). intros s.
  replace (seq s B) with (map (fun t => s + t) (seq 0 B)).
  - rewrite map_map. reflexivity.
  - clear. revert s.
    induction B as [| B IH]; intros s; [reflexivity |].
    cbn [seq map]. rewrite Nat.add_0_r. f_equal.
    rewrite <- (IH (S s)), <- (seq_shift B 0), map_map.
    apply map_ext. intros t. lia.
Qed.

(** X16.  The bins partition the integrations that are kept: read one after
    the other, the bins [0 .. n0 / B - 1] of a pixel hold the integrations
    [0 .. (n0 / B) * B - 1] in time order, each once; fewer than [B]
    integrations are left out at the end. *)
Theorem timeaverage_bins_partition
    (A : Type) (B n0 : nat) (a : Np.array3 A) (r c : nat) :
  0 < B ->
  concat (map (fun b => timeaverage_custom_step.bin_samples B a b r c)
              (seq 0 (n0 / B)))
  = map (fun t => a t r c) (seq 0 (n0 / B * B))
  /\ n0 / B * B <= n0 < n0 / B * B + B.
Proof.
  intros HB. split.
  - generalize (n0 / B). intros bins.
    induction bins as [| n IH]; [reflexivity |].
    rewrite seq_S, map_app, concat_app, IH. cbn [map concat Nat.add].
    rewrite app_nil_r, bin_samples_seq, <- map_app, <- seq_app.
    f_equal. f_equal. lia.
  - pose proof (Nat.div_mod_eq n0 B) as E.
    pose proof (Nat.mod_upper_bound n0 B ltac:(lia)) as Hm. nia.
Qed.

Lemma timeaverage_bins_partition_witness :
  concat (map (fun b =>
                 timeaverage_custom_step.bin_samples 2
                   (dq Examples.small_cube) b 0 1)
              (seq 0 (3 / 2)))
  = map (fun t => dq Examples.small_cube t 0 1) (seq 0 (3 / 2 * 2))
  /\ 3 / 2 * 2 <= 3 < 3 / 2 * 2 + 2.
Proof.
  apply (@timeaverage_bins_partition N 2 3 (dq Examples.small_cube) 0 1).
  lia.
Defined.

(** What the step returns for a positive bin size on a cube with pixels. *)
Lemma timeaverage_returns (B : nat) (c : CubeModel) (n0 n1 n2 : nat) :
  cube_shape c = (n0, n1, n2) -> 0 < B -> 0 < n1 -> 0 < n2 ->
  exists out,
    timeaverage_custom_step.process (Z.of_nat B) c = Py.ok out
    /\ cube_shape out = (n0 / B, n1, n2)
    /\ ngroup out
       = match ngroup c with
         | Some ng =>
             Some (fun b r col =>
                     MA.fsum (timeaverage_custom_step.bin_samples B ng b r col))
         | None => None
         end
    /\ (background c <> None -> background out <> None).
Proof.
  intros Hs HB H1 H2.
  unfold timeaverage_custom_step.process. rewrite Hs.
  destruct (Z.eqb_spec (Z.of_nat B) 0) as [E | _]; [lia |].
  pose proof (timeaverage_bins_count n0 HB H1 H2) as Hbins.
  cbv zeta in Hbins. rewrite Hbins. rewrite Nat2Z.id.
  eexists. split; [reflexivity |]. split; [reflexivity |].
  split; [reflexivity |].
  cbn [background]. destruct (background c); [discriminate | auto].
Qed.

(** X17.  A cube with fewer integrations than the bin size: the step
    returns a cube without any integration ([n0 // B = 0] bins) instead of
    raising. *)
Theorem timeaverage_short_cube
    (B : nat) (c : CubeModel) (n0 n1 n2 : nat) :
  cube_shape c = (n0, n1, n2) -> 0 < n1 -> 0 < n2 -> n0 < B ->
  exists out,
    timeaverage_custom_step.process (Z.of_nat B) c = Py.ok out
    /\ cube_shape out = (0, n1, n2).
Proof.
  intros Hs H1 H2 HB.
  destruct (@timeaverage_returns B c n0 n1 n2 Hs ltac:(lia) H1 H2)
    as (out & E & Hshape & _).
  exists out. split; [exact E |].
  rewrite Hshape, Nat.div_small by exact HB. reflexivity.
Qed.

Lemma timeaverage_short_cube_witness :
  exists out,
    timeaverage_custom_step.process (Z.of_nat 25) Examples.small_cube
    = Py.ok out
    /\ cube_shape out = (0, 1, 2).
Proof.
  apply (@timeaverage_short_cube 25 Examples.small_cube 3 1 2);
    try reflexivity; lia.
Defined.

Lemma fold_add_nan (l : list float) :
  fold_left PrimFloat.add l nan = nan.
Proof.
  induction l as [| x l IH]; [reflexivity |].
  cbn [fold_left]. rewrite float_add_nan_l. exact IH.
Qed.

(** A sum that meets a NaN is NaN. *)
Lemma fsum_nan (l : list float) : In nan l -> MA.fsum l = nan.
Proof.
  unfold MA.fsum. generalize 0%float.
  induction l as [| x l IH]; intros a Hin; [destruct Hin |].
  cbn [fold_left]. destruct Hin as [-> | Hin].
  - rewrite float_add_nan_r. apply fold_add_nan.
  - apply IH. exact Hin.
Qed.

(** X18.  The group counts are summed over a bin without regard to masks:
    when one integration of a bin has the NaN count the rate estimator
    writes for a column saturated from the second group on, the binned
    count of that pixel is NaN. *)
Theorem timeaverage_ngroup_nan
    (num_ave : Z) (c out : CubeModel) (ng : Np.array3 float)
    (b t r col : nat) :
  timeaverage_custom_step.process num_ave c = Py.ok out ->
  ngroup c = Some ng ->
  t < Z.to_nat num_ave ->
  ng (b * Z.to_nat num_ave + t) r col = nan ->
  exists ng',
    ngroup out = Some ng'
    /\ ng' b r col
       = MA.fsum (timeaverage_custom_step.bin_samples (Z.to_nat num_ave)
                    ng b r col)
    /\ ng' b r col = nan.
Proof.
  unfold timeaverage_custom_step.process.
  destruct (cube_shape c) as [[n0 n1] n2].
  destruct (num_ave =? 0)%Z; [discriminate |].
  destruct (timeaverage_custom_step.reshape_unknown _ _) as [e | bins];
    [discriminate |].
  intros [= <-] Hng Ht Hnan. cbn [ngroup]. rewrite Hng.
  eexists. split; [reflexivity |]. split; [reflexivity |].
  apply fsum_nan. unfold timeaverage_custom_step.bin_samples.
  apply in_map_iff. exists t. split; [exact Hnan | apply in_seq; lia].
Qed.

Lemma timeaverage_ngroup_nan_witness :
  exists ng',
    ngroup (Examples.cube_of
              (timeaverage_custom_step.process 1 Examples.rate_cube))
    = Some ng'
    /\ ng' 0 0 2
       = MA.fsum (timeaverage_custom_step.bin_samples (Z.to_nat 1)
                    (cds_custom_step.ngroup_used
                       (cds_custom_step.estimates Examples.ramp)) 0 0 2)
    /\ ng' 0 0 2 = nan.
Proof.
  apply (@timeaverage_ngroup_nan 1 Examples.rate_cube
           (Examples.cube_of
              (timeaverage_custom_step.process 1 Examples.rate_cube))
           (cds_custom_step.ngroup_used
              (cds_custom_step.estimates Examples.ramp))
           0 0 0 2 eq_refl eq_refl).
  - cbn. lia.
  - reflexivity.
Defined.


(* ================================================================== *)
(** ** The reduction: the custom steps chained by [run]                *)
(* ================================================================== *)

Lemma bind_ok {A B : Type} (a : A) (f : A -> Py.result B) :
  uncal2L1_run.bind (Py.ok a) f = f a.
Proof. reflexivity. Qed.

Lemma bind_raise {A B : Type} (e : Py.exn) (f : A -> Py.result B) :
  uncal2L1_run.bind (Py.raise e) f = Py.raise e.
Proof. reflexivity. Qed.

(** What the rate estimator returns on a ramp with groups and rows. *)
Lemma cds_returns (ref : ReferenceFiles) (m : RampModel)
    (n0 n1 n2 n3 : nat) :
  ramp_shape m = (n0, n1, n2, n3) -> 0 < n1 -> 0 < n2 ->
  exists c,
    cds_custom_step.process ref m = Py.ok c
    /\ cube_shape c = (n0, n2, n3)
    /\ dq c = cds_custom_step.mask (cds_custom_step.estimates m)
    /\ ngroup c
       = Some (cds_custom_step.ngroup_used (cds_custom_step.estimates m))
    /\ forall i r k, MA.msk (data c i r k) = (0 <? dq c i r k)%N.
Proof.
  intros Hs H1 H2.
  unfold cds_custom_step.process, cds_custom_step.get_gain_ron_2d.
  rewrite Hs.
  destruct (Nat.eqb_spec n1 0) as [E | _]; [lia |].
  destruct (Nat.eqb_spec n2 0) as [E | _]; [lia |]. cbn [orb].
  eexists. split; [reflexivity |]. repeat split.
Qed.

Lemma cds_rejects (ref : ReferenceFiles) (m : RampModel)
    (n0 n1 n2 n3 : nat) :
  ramp_shape m = (n0, n1, n2, n3) -> n1 = 0 \/ n2 = 0 ->
  cds_custom_step.process ref m = Py.raise Py.IndexError.
Proof.
  intros Hs H.
  unfold cds_custom_step.process, cds_custom_step.get_gain_ron_2d.
  rewrite Hs.
  destruct (Nat.eqb_spec n1 0) as [E | ?]; [reflexivity |].
  destruct (Nat.eqb_spec n2 0) as [E | ?]; [reflexivity | lia].
Qed.

Lemma timeaverage_rejects (num_ave : Z) (c : CubeModel) :
  (num_ave <= 0)%Z ->
  timeaverage_custom_step.process num_ave c
  = Py.raise (if (num_ave =? 0)%Z then Py.ZeroDivisionError
              else Py.ValueError).
Proof.
  intros H. unfold timeaverage_custom_step.process.
  destruct (cube_shape c) as [[n0 n1] n2].
  destruct (Z.eqb_spec num_ave 0) as [-> | Hne]; [reflexivity |].
  unfold timeaverage_custom_step.reshape_unknown. cbn [existsb].
  destruct (Z.ltb_spec num_ave 0); [reflexivity | lia].
Qed.

(** X19.  The outcome of the chain of custom steps on a ramp with
    integrations and columns.  Without groups or without rows the rate
    estimator raises IndexError.  Otherwise the chain reaches the time
    average, which raises ZeroDivisionError for [num_ave = 0] and ValueError
    for [num_ave < 0]; for [num_ave > 0] the chain returns the rate cube of
    shape [(n0, n2, n3)] and the binned cube of shape
    [(n0 // num_ave, n2, n3)], both carrying [ngroup] and [background]. *)
Theorem run_outcome
    (sigma_clip : nat * nat * nat -> Np.array3 MA.mval -> Np.array3 MA.mval)
    (ref : ReferenceFiles) (m : RampModel) (n0 n1 n2 n3 : nat)
    (num_ave : Z) :
  ramp_shape m = (n0, n1, n2, n3) -> 0 < n0 -> 0 < n3 ->
  let result := uncal2L1_run.run sigma_clip ref m num_ave in
  (n1 = 0 \/ n2 = 0 -> result = Py.raise Py.IndexError)
  /\ (0 < n1 -> 0 < n2 ->
      (num_ave = 0%Z -> result = Py.raise Py.ZeroDivisionError)
      /\ ((num_ave < 0)%Z -> result = Py.raise Py.ValueError)
      /\ ((0 < num_ave)%Z ->
          exists data_cube_mean data_cube,
            result = Py.ok (data_cube_mean, data_cube)
            /\ cube_shape data_cube = (n0, n2, n3)
            /\ cube_shape data_cube_mean = (n0 / Z.to_nat num_ave, n2, n3)
            /\ ngroup data_cube <> None /\ background data_cube <> None
            /\ ngroup data_cube_mean <> None
            /\ background data_cube_mean <> None)).
Proof.
  intros Hs H0 H3 result. subst result.
  assert (Hs' : ramp_shape (uncal2L1.FlagSaturatedColumns m 1)
                = (n0, n1, n2, n3))
    by (rewrite FlagSaturatedColumns_shape; exact Hs).
  unfold uncal2L1_run.run. split.
  - intros H. rewrite (cds_rejects ref _ Hs' H). apply bind_raise.
  - intros H1 H2.
    destruct (cds_returns ref _ Hs' H1 H2) as (c1 & E1 & Hc1 & _ & Hng1 & _).
    rewrite E1. rewrite bind_ok.
    rewrite (refcorr_returns c1 Hc1 H0 H2 H3). rewrite bind_ok.
    split; [| split].
    + intros ->. rewrite timeaverage_rejects by lia. apply bind_raise.
    + intros Hneg. rewrite timeaverage_rejects by lia.
      destruct (Z.eqb_spec num_ave 0); [lia | apply bind_raise].
    + intros Hpos.
      match goal with
      | |- context [timeaverage_custom_step.process _ ?c] => set (c2 := c)
      end.
      assert (Hc2 : cube_shape c2 = (n0, n2, n3)) by exact Hc1.
      destruct (@timeaverage_returns (Z.to_nat num_ave) c2 n0 n2 n3 Hc2
                  ltac:(lia) H2 H3) as (out & E & Hshape & Hng & Hbg).
      rewrite Z2Nat.id in E by lia. rewrite E. rewrite bind_ok.
      exists out, c2. split; [reflexivity |]. split; [exact Hc2 |].
      split; [exact Hshape |].
      assert (Hng2 : ngroup c2 = ngroup c1) by reflexivity.
      split; [rewrite Hng2, Hng1; discriminate |].
      split; [discriminate |].
      split.
      * rewrite Hng, Hng2, Hng1. discriminate.
      * apply Hbg. discriminate.
Qed.

Lemma run_outcome_witness :
  let result :=
    uncal2L1_run.run Examples.clip_first Examples.reference Examples.ramp 1 in
  (5 = 0 \/ 1 = 0 -> result = Py.raise Py.IndexError)
  /\ (0 < 5 -> 0 < 1 ->
      (1%Z = 0%Z -> result = Py.raise Py.ZeroDivisionError)
      /\ ((1 < 0)%Z -> result = Py.raise Py.ValueError)
      /\ ((0 < 1)%Z ->
          exists data_cube_mean data_cube,
            result = Py.ok (data_cube_mean, data_cube)
            /\ cube_shape data_cube = (1, 1, 3)
            /\ cube_shape data_cube_mean = (1 / Z.to_nat 1, 1, 3)
            /\ ngroup data_cube <> None /\ background data_cube <> None
            /\ ngroup data_cube_mean <> None
            /\ background data_cube_mean <> None)).
Proof.
  apply (@run_outcome Examples.clip_first Examples.reference Examples.ramp
           1 5 1 3 1).
  - reflexivity.
  - lia.
  - lia.
Defined.

(** The columns a saturated pixel of column [k''] can reach with
    [ncols = 1] are within one column of it. *)
Lemma in_slice_reach (n3 k k'' : nat) :
  k < n3 -> k'' < n3 -> 1 <= k ->
  Py.in_slice (Z.of_nat k'' - 1) (Z.of_nat k'' + 1 + 1) n3 k = true ->
  k - 1 <= k'' <= k + 1.
Proof.
  intros Hk Hk'' Hk1 H.
  destruct k'' as [| k''].
  - unfold Py.in_slice, Py.slice_bound in H.
    change (Z.of_nat 0 - 1 <? 0)%Z with true in H.
    change (Z.of_nat 0 + 1 + 1 <? 0)%Z with false in H. cbv iota in H.
    destruct (Z.ltb_spec (Z.of_nat 0 - 1 + Z.of_nat n3) 0); [lia |].
    apply andb_true_iff in H. destruct H as [Hlo Hhi].
    apply Nat.leb_le in Hlo. apply Nat.ltb_lt in Hhi.
    destruct (Z.leb_spec (Z.of_nat n3) (Z.of_nat 0 + 1 + 1)); lia.
  - rewrite in_slice_neighbours in H by lia.
    apply andb_true_iff in H. destruct H as [Hlo Hhi].
    apply Nat.leb_le in Hlo, Hhi. lia.
Qed.

Lemma land_lor_keep (a b c : N) :
  N.land a c = c -> N.land (N.lor a b) c = c.
Proof.
  intros H. apply N.bits_inj. intros n.
  assert (Hn : N.testbit (N.land a c) n = N.testbit c n) by (rewrite H; auto).
  rewrite N.land_spec in Hn. rewrite N.land_spec, N.lor_spec.
  destruct (N.testbit a n), (N.testbit b n), (N.testbit c n);
    try reflexivity; discriminate.
Qed.

(** X20.  FlagSaturatedColumns and the rate estimator together: when a
    pixel in any row of column [k >= 1] is saturated in every group after
    [g], and no pixel of the columns [k-1 .. k+1] is saturated up to group
    [g], the whole column is truncated at [g]: in the rate cube [run]
    returns, every row of that column has the group count [g] (NaN for
    [g = 0], with DO_NOT_USE in the mask word). *)
Theorem run_saturated_column
    (sigma_clip : nat * nat * nat -> Np.array3 MA.mval -> Np.array3 MA.mval)
    (ref : ReferenceFiles) (m : RampModel) (n0 n1 n2 n3 : nat)
    (num_ave : Z) (i r0 k g : nat) :
  ramp_shape m = (n0, n1, n2, n3) ->
  i < n0 -> r0 < n2 -> k < n3 -> 1 <= k -> S g < n1 -> (0 < num_ave)%Z ->
  (forall j r k', j <= g -> r < n2 -> k' < n3 -> k - 1 <= k' <= k + 1 ->
     N.land (groupdq m i j r k') dqflags.SATURATED = 0%N) ->
  (forall j, g < j -> j < n1 ->
     N.land (groupdq m i j r0 k) dqflags.SATURATED <> 0%N) ->
  exists data_cube_mean data_cube ng,
    uncal2L1_run.run sigma_clip ref m num_ave
    = Py.ok (data_cube_mean, data_cube)
    /\ ngroup data_cube = Some ng
    /\ forall r,
         ng i r k = (if g =? 0 then nan else Py.float_of_nat g)
         /\ (g = 0 ->
             N.land (dq data_cube i r k) dqflags.DO_NOT_USE
             = dqflags.DO_NOT_USE).
Proof.
  intros Hs Hi Hr0 Hk Hk1 Hg Hpos Hclean Hsat.
  set (m' := uncal2L1.FlagSaturatedColumns m 1).
  assert (Hs' : ramp_shape m' = (n0, n1, n2, n3))
    by (unfold m'; rewrite FlagSaturatedColumns_shape; exact Hs).
  assert (Hmid : n2 / 2 < n2) by (apply Nat.div_lt; lia).
  assert (Hlow : forall j, j <= g -> Props.saturated m' i j k = false).
  { intros j Hj. unfold Props.saturated. rewrite Hs'. cbv zeta.
    unfold m'. rewrite flagged_groupdq.
    destruct (Props.reached m 1 i j k) eqn:Hr.
    - apply (reached_spec _ _ _ _ _ Hs) in Hr.
      destruct Hr as (_ & _ & r & k' & Hr & Hk' & Hz & Hsl).
      apply in_slice_reach in Hsl; try assumption.
      destruct Hz. apply Hclean; assumption.
    - rewrite Hclean by (try assumption; lia). reflexivity. }
  assert (Hhigh : forall j, g < j -> j < n1 ->
                            Props.saturated m' i j k = true).
  { intros j Hj Hj1. unfold Props.saturated. rewrite Hs'. cbv zeta.
    unfold m'. rewrite flagged_groupdq.
    assert (Hr : Props.reached m 1 i j k = true).
    { apply (reached_spec _ _ _ _ _ Hs). split; [exact Hi |].
      split; [exact Hj1 |]. exists r0, k.
      repeat split; try assumption; [apply Hsat; assumption |].
      rewrite in_slice_neighbours by assumption.
      apply andb_true_iff. split; apply Nat.leb_le; lia. }
    rewrite Hr. apply negb_true_iff, N.eqb_neq, saturated_lor. }
  assert (Hlast : Props.last_transition m' i k g = true).
  { unfold Props.last_transition. rewrite Hs'.
    apply andb_true_iff. split.
    - unfold Props.transition. rewrite Hlow, Hhigh by lia. reflexivity.
    - apply forallb_forall. intros j Hj. apply in_seq in Hj.
      unfold Props.transition. rewrite (Hhigh j) by lia. reflexivity. }
  unfold uncal2L1_run.run. fold m'.
  destruct (@cds_returns ref m' n0 n1 n2 n3 Hs' ltac:(lia) ltac:(lia))
    as (c1 & E1 & Hc1 & Hdq1 & Hng1 & _).
  rewrite E1. rewrite bind_ok.
  rewrite (@refcorr_returns c1 n0 n2 n3 Hc1 ltac:(lia) ltac:(lia)
             ltac:(lia)).
  rewrite bind_ok.
  match goal with
  | |- context [timeaverage_custom_step.process _ ?c] => set (c2 := c)
  end.
  assert (Hc2 : cube_shape c2 = (n0, n2, n3)) by exact Hc1.
  destruct (@timeaverage_returns (Z.to_nat num_ave) c2 n0 n2 n3 Hc2
              ltac:(lia) ltac:(lia) ltac:(lia)) as (out & E & _).
  rewrite Z2Nat.id in E by lia. rewrite E. rewrite bind_ok.
  exists out, c2. eexists. split; [reflexivity |].
  split; [exact Hng1 |].
  intros r.
  pose proof (estimates_last_transition m' Hs' Hi Hk Hg Hlast r) as H.
  unfold Props.written in H. injection H as _ Hm Hn.
  split; [exact Hn |].
  intros ->. subst c2.
  unfold flagging_custom_step.process. cbn [dq]. rewrite Hdq1.
  assert (Hbit : N.land (cds_custom_step.mask (cds_custom_step.estimates m')
                           i r k) dqflags.DO_NOT_USE
                 = dqflags.DO_NOT_USE).
  { rewrite Hm. cbn [Nat.eqb]. apply land_lor_same. }
  destruct (flagging_custom_step.new_outliers _ _ _ _ _);
    [apply land_lor_keep |]; exact Hbit.
Qed.

Lemma run_saturated_column_witness :
  exists data_cube_mean data_cube ng,
    uncal2L1_run.run Examples.clip_first Examples.reference
      Examples.corner_hit 1
    = Py.ok (data_cube_mean, data_cube)
    /\ ngroup data_cube = Some ng
    /\ forall r,
         ng 0 r 1 = (if 1 =? 0 then nan else Py.float_of_nat 1)
         /\ (1 = 0 ->
             N.land (dq data_cube 0 r 1) dqflags.DO_NOT_USE
             = dqflags.DO_NOT_USE).
Proof.
  apply (@run_saturated_column Examples.clip_first Examples.reference
           Examples.corner_hit 1 4 3 3 1 0 0 1 1);
    try reflexivity; try lia.
  - intros j r k' Hj Hr Hk' _. cbn [Examples.corner_hit groupdq].
    destruct j as [| [| j]]; try lia; reflexivity.
  - intros j Hj Hj1. cbn [Examples.corner_hit groupdq].
    destruct j as [| [| [| [| j]]]]; try lia; discriminate.
Defined.

(** X21.  The rate cube [run] returns against the one the rate estimator
    produced, when the clipping keeps the mask of its input: a nonzero mask
    word is the estimator's, and a zero word becomes JUMP_DET | DO_NOT_USE
    exactly where the pixel is clipped; var_poisson, err and ngroup are the
    estimator's arrays as they were, while var_rnoise has been scaled by
    the background corrector. *)
Theorem run_rate_cube
    (sigma_clip : nat * nat * nat -> Np.array3 MA.mval -> Np.array3 MA.mval)
    (ref : ReferenceFiles) (m : RampModel) (n0 n1 n2 n3 : nat)
    (num_ave : Z) :
  Props.keeps_mask sigma_clip ->
  ramp_shape m = (n0, n1, n2, n3) ->
  0 < n0 -> 0 < n1 -> 0 < n2 -> 0 < n3 -> (0 < num_ave)%Z ->
  exists data_cube_mean data_cube c,
    uncal2L1_run.run sigma_clip ref m num_ave
    = Py.ok (data_cube_mean, data_cube)
    /\ cds_custom_step.process ref (uncal2L1.FlagSaturatedColumns m 1)
       = Py.ok c
    /\ var_poisson data_cube = var_poisson c
    /\ err data_cube = err c
    /\ ngroup data_cube = ngroup c
    /\ forall i r k,
         dq data_cube i r k
         = (if (dq c i r k =? 0)%N && MA.msk (data data_cube i r k)
            then N.lor dqflags.JUMP_DET dqflags.DO_NOT_USE
            else dq c i r k)
         /\ var_rnoise data_cube i r k
            = MA.imul_scalar (var_rnoise c i r k)
                (1 + 1 / Py.float_of_nat (2 * Nat.min 6 n2))%float.
Proof.
  intros Hkeep Hs H0 H1 H2 H3 Hpos.
  set (m' := uncal2L1.FlagSaturatedColumns m 1).
  assert (Hs' : ramp_shape m' = (n0, n1, n2, n3))
    by (unfold m'; rewrite FlagSaturatedColumns_shape; exact Hs).
  unfold uncal2L1_run.run. fold m'.
  destruct (cds_returns ref m' Hs' H1 H2) as (c1 & E1 & Hc1 & _ & _ & Hmsk).
  rewrite E1. rewrite bind_ok.
  rewrite (refcorr_returns c1 Hc1 H0 H2 H3). rewrite bind_ok.
  match goal with
  | |- context [flagging_custom_step.process _ ?c] => set (c2 := c)
  end.
  assert (Hc2 : cube_shape (flagging_custom_step.process sigma_clip c2)
                = (n0, n2, n3)) by exact Hc1.
  destruct (@timeaverage_returns (Z.to_nat num_ave) _ n0 n2 n3 Hc2
              ltac:(lia) H2 H3) as (out & E & _).
  rewrite Z2Nat.id in E by lia. rewrite E. rewrite bind_ok.
  exists out, (flagging_custom_step.process sigma_clip c2), c1.
  split; [reflexivity |]. split; [reflexivity |].
  split; [reflexivity |]. split; [reflexivity |]. split; [reflexivity |].
  intros i r k. split; [| reflexivity].
  assert (Hflag : forall i r col, (0 <? dq c2 i r col)%N = true ->
                                  MA.msk (data c2 i r col) = true).
  { intros i' r' col H. subst c2. cbn [dq data] in *.
    unfold MA.subtract, MA.binop. cbn [MA.msk].
    rewrite Hmsk, H. reflexivity. }
  unfold flagging_custom_step.process at 1. cbn [dq].
  rewrite (@new_outliers_clean sigma_clip c2 Hkeep Hflag i r k).
  change (dq c2 i r k) with (dq c1 i r k).
  destruct (N.eqb_spec (dq c1 i r k) 0) as [Ez | _]; cbn [andb];
    [| reflexivity].
  rewrite Ez.
  destruct (MA.msk (sigma_clip (cube_shape c2) (data c2) i r k)) eqn:Hc;
    unfold flagging_custom_step.process; cbn [data]; rewrite Hc;
    reflexivity.
Qed.

Lemma run_rate_cube_witness :
  exists data_cube_mean data_cube c,
    uncal2L1_run.run Examples.clip_first Examples.reference Examples.ramp 1
    = Py.ok (data_cube_mean, data_cube)
    /\ cds_custom_step.process Examples.reference
         (uncal2L1.FlagSaturatedColumns Examples.ramp 1)
       = Py.ok c
    /\ var_poisson data_cube = var_poisson c
    /\ err data_cube = err c
    /\ ngroup data_cube = ngroup c
    /\ forall i r k,
         dq data_cube i r k
         = (if (dq c i r k =? 0)%N && MA.msk (data data_cube i r k)
            then N.lor dqflags.JUMP_DET dqflags.DO_NOT_USE
            else dq c i r k)
         /\ var_rnoise data_cube i r k
            = MA.imul_scalar (var_rnoise c i r k)
                (1 + 1 / Py.float_of_nat (2 * Nat.min 6 1))%float.
Proof.
  apply (@run_rate_cube Examples.clip_first Examples.reference Examples.ramp
           1 5 1 3 1); try reflexivity; try lia.
  intros s a i r c H. unfold Examples.clip_first, MA.array.
  cbn [MA.msk]. rewrite H. reflexivity.
Defined.


(** X22.  The counterpart for column 0: when the only saturated pixels of
    an integration lie in column 0, in a row other than the middle one, and
    the ramp has three or more columns, the slice [-1:2] of
    FlagSaturatedColumns reaches nothing, the rate estimator sees no
    transition, and no column of that integration is truncated: in the rate
    cube [run] returns every pixel of the integration, the saturated one
    included, has the group count [num_groups - 1]. *)
Theorem run_first_column_not_truncated
    (sigma_clip : nat * nat * nat -> Np.array3 MA.mval -> Np.array3 MA.mval)
    (ref : ReferenceFiles) (m : RampModel) (n0 n1 n2 n3 : nat)
    (num_ave : Z) (i r0 : nat) :
  ramp_shape m = (n0, n1, n2, n3) ->
  i < n0 -> 0 < n1 -> r0 < n2 -> r0 <> n2 / 2 -> 3 <= n3 ->
  (0 < num_ave)%Z ->
  (forall j r k, j < n1 -> r < n2 -> k < n3 ->
     N.land (groupdq m i j r k) dqflags.SATURATED <> 0%N ->
     r = r0 /\ k = 0) ->
  exists data_cube_mean data_cube ng,
    uncal2L1_run.run sigma_clip ref m num_ave
    = Py.ok (data_cube_mean, data_cube)
    /\ ngroup data_cube = Some ng
    /\ forall r k, k < n3 -> ng i r k = Py.float_of_nat (n1 - 1).
Proof.
  intros Hs Hi H1 Hr0 Hmid' Hn3 Hpos Honly.
  set (m' := uncal2L1.FlagSaturatedColumns m 1).
  assert (Hs' : ramp_shape m' = (n0, n1, n2, n3))
    by (unfold m'; rewrite FlagSaturatedColumns_shape; exact Hs).
  assert (Hmid : n2 / 2 < n2) by (apply Nat.div_lt; lia).
  assert (Hclean : forall j k, j < n1 -> k < n3 ->
                               Props.saturated m' i j k = false).
  { intros j k Hj Hk. unfold Props.saturated. rewrite Hs'. cbv zeta.
    unfold m'. rewrite flagged_groupdq.
    destruct (Props.reached m 1 i j k) eqn:Hr.
    - apply (reached_spec _ _ _ _ _ Hs) in Hr.
      destruct Hr as (_ & _ & r & k' & Hr' & Hk' & Hz & Hsl).
      destruct (Honly j r k' Hj Hr' Hk' Hz) as [_ ->].
      rewrite in_slice_first_column in Hsl by exact Hn3. discriminate.
    - apply negb_false_iff, N.eqb_eq.
      destruct (N.eq_dec (N.land (groupdq m i j (n2 / 2) k)
                            dqflags.SATURATED) 0) as [E | E]; [exact E |].
      destruct (Honly j (n2 / 2) k Hj Hmid Hk E) as [Hrow _]. congruence. }
  assert (Hnone : forall k, k < n3 -> Props.no_transition m' i k = true).
  { intros k Hk. unfold Props.no_transition. rewrite Hs'.
    apply forallb_forall. intros j Hj. apply in_seq in Hj.
    unfold Props.transition. rewrite (Hclean (S j)) by lia.
    rewrite andb_false_r. reflexivity. }
  unfold uncal2L1_run.run. fold m'.
  destruct (@cds_returns ref m' n0 n1 n2 n3 Hs' H1 ltac:(lia))
    as (c1 & E1 & Hc1 & _ & Hng1 & _).
  rewrite E1. rewrite bind_ok.
  rewrite (@refcorr_returns c1 n0 n2 n3 Hc1 ltac:(lia) ltac:(lia)
             ltac:(lia)).
  rewrite bind_ok.
  match goal with
  | |- context [timeaverage_custom_step.process _ ?c] => set (c2 := c)
  end.
  assert (Hc2 : cube_shape c2 = (n0, n2, n3)) by exact Hc1.
  destruct (@timeaverage_returns (Z.to_nat num_ave) c2 n0 n2 n3 Hc2
              ltac:(lia) ltac:(lia) ltac:(lia)) as (out & E & _).
  rewrite Z2Nat.id in E by lia. rewrite E. rewrite bind_ok.
  exists out, c2. eexists. split; [reflexivity |].
  split; [exact Hng1 |].
  intros r k Hk.
  pose proof (estimates_no_transition m' Hs' i k (Hnone k Hk) r) as H.
  injection H as _ _ Hn. rewrite Hn.
  cbn [cds_custom_step.defaults cds_custom_step.ngroup_used].
  apply float_add_0_of_nat.
Qed.

Lemma run_first_column_not_truncated_witness :
  exists data_cube_mean data_cube ng,
    uncal2L1_run.run Examples.clip_first Examples.reference
      Examples.edge_hit 1
    = Py.ok (data_cube_mean, data_cube)
    /\ ngroup data_cube = Some ng
    /\ forall r k, k < 3 -> ng 0 r k = Py.float_of_nat (4 - 1).
Proof.
  apply (@run_first_column_not_truncated Examples.clip_first
           Examples.reference Examples.edge_hit 1 4 3 3 1 0 0);
    try reflexivity; try lia.
  - cbn. lia.
  - intros j r k Hj Hr Hk. cbn [Examples.edge_hit groupdq].
    destruct ((2 <=? j) && (r =? 0) && (k =? 0)) eqn:E.
    + intros _.
      repeat (apply andb_true_iff in E; destruct E as [E ?]).
      repeat match goal with H : (_ =? _) = true |- _ =>
               apply Nat.eqb_eq in H end.
      auto.
    + intros H. contradiction H. reflexivity.
Defined.
